(** * statsd: metric aggregation core

    A shallow embedding of the parts of statsd that its specification
    describes and that the properties below are about:

    - [MetricsManager::checkLogCredentials]      (src/metrics/MetricsManager.cpp)
    - [DurationMetricProducer]                   (src/metrics/DurationMetricProducer.cpp)
    - [AnomalyTracker]                           (src/anomaly/AnomalyTracker.h)
    - [HashableDimensionKey] and [filterValues]  (src/HashableDimensionKey.h)

    Maps and sets of the C++ code ([std::unordered_map], [std::set]) are
    stdpp's [gmap] and [gset]; 64-bit and 32-bit integers are [Z] with the
    two's-complement wrap-around written out. *)

From Stdlib Require Import ZArith Lia Bool List String.
From stdpp Require Import base option list gmap strings sorting.

Open Scope Z_scope.

(** ** Machine integers *)

Module Int.

(** Two's-complement reading of [z] on [w] bits. *)
Definition swrap (w z : Z) : Z := (z + 2 ^ (w - 1)) mod 2 ^ w - 2 ^ (w - 1).

(** Unsigned reading of [z] on [w] bits. *)
Definition uwrap (w z : Z) : Z := z mod 2 ^ w.

Definition int64 (z : Z) : Z := swrap 64 z.
Definition int32 (z : Z) : Z := swrap 32 z.
Definition uint32 (z : Z) : Z := uwrap 32 z.

Definition in_int64 (z : Z) : Prop := - 2 ^ 63 <= z < 2 ^ 63.

Lemma int64_range z : in_int64 (int64 z).
Proof.
  unfold in_int64, int64, swrap.
  change (2 ^ (64 - 1)) with (2 ^ 63).
  assert (Hm := Z.mod_pos_bound (z + 2 ^ 63) (2 ^ 64) ltac:(lia)).
  change (2 ^ 64) with (2 * 2 ^ 63) in *. lia.
Qed.

Lemma int64_id z : in_int64 z -> int64 z = z.
Proof.
  unfold in_int64, int64, swrap. intros Hz.
  change (2 ^ (64 - 1)) with (2 ^ 63).
  rewrite Z.mod_small; [lia|].
  change (2 ^ 64) with (2 * 2 ^ 63). lia.
Qed.

Lemma int64_idem z : int64 (int64 z) = int64 z.
Proof. apply int64_id, int64_range. Qed.

Lemma int32_small z : - 2 ^ 31 <= z < 2 ^ 31 -> int32 z = z.
Proof.
  unfold int32, swrap. intros Hz.
  change (2 ^ (32 - 1)) with (2 ^ 31).
  rewrite Z.mod_small; [lia|].
  change (2 ^ 32) with (2 * 2 ^ 31). lia.
Qed.

End Int.

(** ** MetricsManager: the log-source check *)

Module MetricsManager.

(** The part of a [LogEvent] that [checkLogCredentials] reads. *)
Record LogEvent := {
  GetTagId : Z;
  GetUid : Z;
  GetElapsedTimestampNs : Z
}.

(** The two sets [checkLogCredentials] consults
    ([std::set<int32_t> mAllowedLogSources], [std::set<int32_t>
    mWhitelistedAtomIds]). *)
Record MetricsManager := {
  mAllowedLogSources : gset Z;
  mWhitelistedAtomIds : gset Z
}.

Section CheckLogCredentials.

(** The platform uid constants come from [android_filesystem_config.h],
    which is not part of the repository: they are parameters. *)
Variables AID_ROOT AID_SYSTEM AID_SHELL : Z.

(** [MetricsManager::checkLogCredentials]. The lock on
    [mAllowedLogSourcesMutex] has no counterpart in a sequential model. *)
Definition checkLogCredentials (mm : MetricsManager) (event : LogEvent) : bool :=
  if decide (GetTagId event ∈ mWhitelistedAtomIds mm) then true
  else if (GetUid event =? AID_ROOT)
          || ((GetUid event >=? AID_SYSTEM) && (GetUid event <? AID_SHELL))
  then true
  else if decide (GetUid event ∉ mAllowedLogSources mm) then false
  else true.

(** Pre-installed system services: root, or a uid in [AID_SYSTEM, AID_SHELL). *)
Definition isSystemUid (uid : Z) : Prop :=
  uid = AID_ROOT \/ (AID_SYSTEM <= uid /\ uid < AID_SHELL).

Lemma isSystemUid_test uid :
  (uid =? AID_ROOT) || ((uid >=? AID_SYSTEM) && (uid <? AID_SHELL)) = true
  <-> isSystemUid uid.
Proof.
  unfold isSystemUid.
  rewrite orb_true_iff, andb_true_iff, Z.eqb_eq, Z.geb_le, Z.ltb_lt. tauto.
Qed.

(** C10: [checkLogCredentials] accepts every event whose atom tag is
    whitelisted and every event logged by root or by a uid in
    [AID_SYSTEM, AID_SHELL), whatever the allowed-log-source set holds; on
    every other event it answers whether the uid is in the allowed-log-source
    set. *)
Theorem checkLogCredentials_spec (mm : MetricsManager) (event : LogEvent) :
  (GetTagId event ∈ mWhitelistedAtomIds mm ->
     checkLogCredentials mm event = true)
  /\ (isSystemUid (GetUid event) -> checkLogCredentials mm event = true)
  /\ (GetTagId event ∉ mWhitelistedAtomIds mm ->
      ~ isSystemUid (GetUid event) ->
      (checkLogCredentials mm event = true
       <-> GetUid event ∈ mAllowedLogSources mm)).
Proof.
  unfold checkLogCredentials.
  destruct (decide (GetTagId event ∈ mWhitelistedAtomIds mm)) as [Hw|Hw].
  - repeat split; auto; intros; contradiction.
  - destruct ((GetUid event =? AID_ROOT)
              || ((GetUid event >=? AID_SYSTEM) && (GetUid event <? AID_SHELL)))
      eqn:Hsys.
    + apply isSystemUid_test in Hsys.
      repeat split; auto; intros; contradiction.
    + assert (Hn : ~ isSystemUid (GetUid event)).
      { intros Hs. apply isSystemUid_test in Hs. congruence. }
      split; [intros; contradiction|].
      split; [intros; contradiction|].
      intros _ _.
      destruct (decide (GetUid event ∉ mAllowedLogSources mm)) as [Hu|Hu].
      * split; [discriminate | intros; contradiction].
      * split; [intros _ | reflexivity].
        destruct (decide (GetUid event ∈ mAllowedLogSources mm)); tauto.
Qed.

End CheckLogCredentials.

(** A manager that whitelists atom 47 and allows uid 10123, checked with
    the usual Android values root = 0, system = 1000, shell = 2000. *)
Definition mm0 : MetricsManager :=
  {| mAllowedLogSources := {[ 10123 ]}; mWhitelistedAtomIds := {[ 47 ]} |}.

Example checkLogCredentials_whitelisted :
  checkLogCredentials 0 1000 2000 mm0
    {| GetTagId := 47; GetUid := 99999; GetElapsedTimestampNs := 5 |} = true.
Proof. reflexivity. Qed.

Example checkLogCredentials_system :
  checkLogCredentials 0 1000 2000 mm0
    {| GetTagId := 3; GetUid := 1999; GetElapsedTimestampNs := 5 |} = true.
Proof. reflexivity. Qed.

Example checkLogCredentials_shell_rejected :
  checkLogCredentials 0 1000 2000 mm0
    {| GetTagId := 3; GetUid := 2000; GetElapsedTimestampNs := 5 |} = false.
Proof. reflexivity. Qed.

Example checkLogCredentials_allowed :
  checkLogCredentials 0 1000 2000 mm0
    {| GetTagId := 3; GetUid := 10123; GetElapsedTimestampNs := 5 |} = true.
Proof. reflexivity. Qed.

(** The theorem at a concrete event: uid 10124 is neither whitelisted by
    tag nor a system uid, so the answer is membership in the allowed set. *)
Lemma checkLogCredentials_spec_witness :
  checkLogCredentials 0 1000 2000 mm0
    {| GetTagId := 3; GetUid := 10124; GetElapsedTimestampNs := 5 |} = true
  <-> 10124 ∈ mAllowedLogSources mm0.
Proof.
  apply (checkLogCredentials_spec 0 1000 2000 mm0
           {| GetTagId := 3; GetUid := 10124; GetElapsedTimestampNs := 5 |}).
  - simpl. set_solver.
  - unfold isSystemUid. simpl. lia.
Defined.

End MetricsManager.

(** ** MetricsManager: configuration, log sources and activity

    The functions of MetricsManager.cpp and MetricsManager.h that set a
    manager up from a [StatsdConfig] and keep its log sources, its validity
    and its active status. Trackers and producers are the manager's
    collaborators; [initStatsdConfig] / [updateStatsdConfig], [UidMap],
    [StatsdStats] and the [InvalidConfigReason] enumerators are declared in
    files that are not among the sources. *)

Module MetricsManagerState.

Import Int.

(** [PullAtomPackages] of statsd_config.proto. *)
Record PullAtomPackages := {
  atom_id : Z;
  packages : list string
}.

(** The fields of [StatsdConfig] that the functions below read. An optional
    field is [Some] exactly when its [has_...()] accessor answers true. *)
Record StatsdConfig := {
  ttl_in_seconds : option Z;
  restricted_metrics_delegate_package_name : option string;
  whitelisted_atom_ids : list Z;
  allowed_log_source : list string;
  default_pull_packages : list string;
  pull_atom_packages : list PullAtomPackages;
  max_metrics_memory_kb : option Z;
  soft_metrics_memory_kb : option Z;
  annotation : list (Z * Z)
}.

(** What [mUidMap->getAppUid(pkg)] answers at the time of a call: the uid
    map is shared with the rest of statsd and changes between calls. *)
Definition UidMap : Type := string -> gset Z.

Section Manager.

Context {InvalidConfigReason MetricProducer ConditionTracker : Type}.
Context {AtomMatchingTracker AnomalyTracker ActiveMetric : Type}.
Context {AlertMetadata MetricMetadata : Type}.

(** What the manager reports to the [StatsdStats] singleton, in call order
    (the config key, the same in every call, is left out). *)
Inductive StatsEvent :=
| noteConfigReceived (metricsCount conditionsCount matchersCount alertsCount : Z)
    (annotations : list (Z * Z)) (reason : option InvalidConfigReason)
| noteActiveStatusChanged (activate : bool).

(** The members the functions below read or write, and the telemetry sent so
    far (oldest first). The index maps that only [onLogEvent] reads and the
    members that only the report writer reads are left out. *)
Record MetricsManager := {
  mInvalidConfigReason : option InvalidConfigReason;
  mRestrictedMetricsDelegatePackageName : option string;
  mTtlNs : Z;
  mTtlEndNs : Z;
  mWhitelistedAtomIds : gset Z;
  mAllowedUid : list Z;
  mAllowedPkg : list string;
  mAllowedLogSources : gset Z;
  mDefaultPullUids : gset Z;
  mPullAtomUids : gmap Z (gset Z);
  mPullAtomPackages : gmap Z (gset string);
  mCombinedPullAtomUids : gmap Z (gset Z);
  mMaxMetricsBytes : Z;
  mTriggerGetDataBytes : Z;
  mAllMetricProducers : list MetricProducer;
  mAllConditionTrackers : list ConditionTracker;
  mAllAtomMatchingTrackers : list AtomMatchingTracker;
  mAllAnomalyTrackers : list AnomalyTracker;
  mMetricIndexesWithActivation : list Z;
  mAnnotations : list (Z * Z);
  mIsAlwaysActive : bool;
  mIsActive : bool;
  stats : list StatsEvent
}.

Definition with_mInvalidConfigReason (v : option InvalidConfigReason) (m : MetricsManager)
  : MetricsManager :=
  {| mInvalidConfigReason := v;
     mRestrictedMetricsDelegatePackageName := mRestrictedMetricsDelegatePackageName m;
     mTtlNs := mTtlNs m; mTtlEndNs := mTtlEndNs m;
     mWhitelistedAtomIds := mWhitelistedAtomIds m;
     mAllowedUid := mAllowedUid m; mAllowedPkg := mAllowedPkg m;
     mAllowedLogSources := mAllowedLogSources m;
     mDefaultPullUids := mDefaultPullUids m;
     mPullAtomUids := mPullAtomUids m;
     mPullAtomPackages := mPullAtomPackages m;
     mCombinedPullAtomUids := mCombinedPullAtomUids m;
     mMaxMetricsBytes := mMaxMetricsBytes m;
     mTriggerGetDataBytes := mTriggerGetDataBytes m;
     mAllMetricProducers := mAllMetricProducers m;
     mAllConditionTrackers := mAllConditionTrackers m;
     mAllAtomMatchingTrackers := mAllAtomMatchingTrackers m;
     mAllAnomalyTrackers := mAllAnomalyTrackers m;
     mMetricIndexesWithActivation := mMetricIndexesWithActivation m;
     mAnnotations := mAnnotations m; mIsAlwaysActive := mIsAlwaysActive m;
     mIsActive := mIsActive m; stats := stats m |}.

Definition with_mRestrictedMetricsDelegatePackageName (v : option string) (m : MetricsManager)
  : MetricsManager :=
  {| mInvalidConfigReason := mInvalidConfigReason m;
     mRestrictedMetricsDelegatePackageName := v; mTtlNs := mTtlNs m;
     mTtlEndNs := mTtlEndNs m; mWhitelistedAtomIds := mWhitelistedAtomIds m;
     mAllowedUid := mAllowedUid m; mAllowedPkg := mAllowedPkg m;
     mAllowedLogSources := mAllowedLogSources m;
     mDefaultPullUids := mDefaultPullUids m;
     mPullAtomUids := mPullAtomUids m;
     mPullAtomPackages := mPullAtomPackages m;
     mCombinedPullAtomUids := mCombinedPullAtomUids m;
     mMaxMetricsBytes := mMaxMetricsBytes m;
     mTriggerGetDataBytes := mTriggerGetDataBytes m;
     mAllMetricProducers := mAllMetricProducers m;
     mAllConditionTrackers := mAllConditionTrackers m;
     mAllAtomMatchingTrackers := mAllAtomMatchingTrackers m;
     mAllAnomalyTrackers := mAllAnomalyTrackers m;
     mMetricIndexesWithActivation := mMetricIndexesWithActivation m;
     mAnnotations := mAnnotations m; mIsAlwaysActive := mIsAlwaysActive m;
     mIsActive := mIsActive m; stats := stats m |}.

Definition with_mTtlNs (v : Z) (m : MetricsManager)
  : MetricsManager :=
  {| mInvalidConfigReason := mInvalidConfigReason m;
     mRestrictedMetricsDelegatePackageName := mRestrictedMetricsDelegatePackageName m;
     mTtlNs := v; mTtlEndNs := mTtlEndNs m;
     mWhitelistedAtomIds := mWhitelistedAtomIds m;
     mAllowedUid := mAllowedUid m; mAllowedPkg := mAllowedPkg m;
     mAllowedLogSources := mAllowedLogSources m;
     mDefaultPullUids := mDefaultPullUids m;
     mPullAtomUids := mPullAtomUids m;
     mPullAtomPackages := mPullAtomPackages m;
     mCombinedPullAtomUids := mCombinedPullAtomUids m;
     mMaxMetricsBytes := mMaxMetricsBytes m;
     mTriggerGetDataBytes := mTriggerGetDataBytes m;
     mAllMetricProducers := mAllMetricProducers m;
     mAllConditionTrackers := mAllConditionTrackers m;
     mAllAtomMatchingTrackers := mAllAtomMatchingTrackers m;
     mAllAnomalyTrackers := mAllAnomalyTrackers m;
     mMetricIndexesWithActivation := mMetricIndexesWithActivation m;
     mAnnotations := mAnnotations m; mIsAlwaysActive := mIsAlwaysActive m;
     mIsActive := mIsActive m; stats := stats m |}.

Definition with_mTtlEndNs (v : Z) (m : MetricsManager)
  : MetricsManager :=
  {| mInvalidConfigReason := mInvalidConfigReason m;
     mRestrictedMetricsDelegatePackageName := mRestrictedMetricsDelegatePackageName m;
     mTtlNs := mTtlNs m; mTtlEndNs := v;
     mWhitelistedAtomIds := mWhitelistedAtomIds m;
     mAllowedUid := mAllowedUid m; mAllowedPkg := mAllowedPkg m;
     mAllowedLogSources := mAllowedLogSources m;
     mDefaultPullUids := mDefaultPullUids m;
     mPullAtomUids := mPullAtomUids m;
     mPullAtomPackages := mPullAtomPackages m;
     mCombinedPullAtomUids := mCombinedPullAtomUids m;
     mMaxMetricsBytes := mMaxMetricsBytes m;
     mTriggerGetDataBytes := mTriggerGetDataBytes m;
     mAllMetricProducers := mAllMetricProducers m;
     mAllConditionTrackers := mAllConditionTrackers m;
     mAllAtomMatchingTrackers := mAllAtomMatchingTrackers m;
     mAllAnomalyTrackers := mAllAnomalyTrackers m;
     mMetricIndexesWithActivation := mMetricIndexesWithActivation m;
     mAnnotations := mAnnotations m; mIsAlwaysActive := mIsAlwaysActive m;
     mIsActive := mIsActive m; stats := stats m |}.

Definition with_mWhitelistedAtomIds (v : gset Z) (m : MetricsManager)
  : MetricsManager :=
  {| mInvalidConfigReason := mInvalidConfigReason m;
     mRestrictedMetricsDelegatePackageName := mRestrictedMetricsDelegatePackageName m;
     mTtlNs := mTtlNs m; mTtlEndNs := mTtlEndNs m; mWhitelistedAtomIds := v;
     mAllowedUid := mAllowedUid m; mAllowedPkg := mAllowedPkg m;
     mAllowedLogSources := mAllowedLogSources m;
     mDefaultPullUids := mDefaultPullUids m;
     mPullAtomUids := mPullAtomUids m;
     mPullAtomPackages := mPullAtomPackages m;
     mCombinedPullAtomUids := mCombinedPullAtomUids m;
     mMaxMetricsBytes := mMaxMetricsBytes m;
     mTriggerGetDataBytes := mTriggerGetDataBytes m;
     mAllMetricProducers := mAllMetricProducers m;
     mAllConditionTrackers := mAllConditionTrackers m;
     mAllAtomMatchingTrackers := mAllAtomMatchingTrackers m;
     mAllAnomalyTrackers := mAllAnomalyTrackers m;
     mMetricIndexesWithActivation := mMetricIndexesWithActivation m;
     mAnnotations := mAnnotations m; mIsAlwaysActive := mIsAlwaysActive m;
     mIsActive := mIsActive m; stats := stats m |}.

Definition with_mAllowedUid (v : list Z) (m : MetricsManager)
  : MetricsManager :=
  {| mInvalidConfigReason := mInvalidConfigReason m;
     mRestrictedMetricsDelegatePackageName := mRestrictedMetricsDelegatePackageName m;
     mTtlNs := mTtlNs m; mTtlEndNs := mTtlEndNs m;
     mWhitelistedAtomIds := mWhitelistedAtomIds m; mAllowedUid := v;
     mAllowedPkg := mAllowedPkg m;
     mAllowedLogSources := mAllowedLogSources m;
     mDefaultPullUids := mDefaultPullUids m;
     mPullAtomUids := mPullAtomUids m;
     mPullAtomPackages := mPullAtomPackages m;
     mCombinedPullAtomUids := mCombinedPullAtomUids m;
     mMaxMetricsBytes := mMaxMetricsBytes m;
     mTriggerGetDataBytes := mTriggerGetDataBytes m;
     mAllMetricProducers := mAllMetricProducers m;
     mAllConditionTrackers := mAllConditionTrackers m;
     mAllAtomMatchingTrackers := mAllAtomMatchingTrackers m;
     mAllAnomalyTrackers := mAllAnomalyTrackers m;
     mMetricIndexesWithActivation := mMetricIndexesWithActivation m;
     mAnnotations := mAnnotations m; mIsAlwaysActive := mIsAlwaysActive m;
     mIsActive := mIsActive m; stats := stats m |}.

Definition with_mAllowedPkg (v : list string) (m : MetricsManager)
  : MetricsManager :=
  {| mInvalidConfigReason := mInvalidConfigReason m;
     mRestrictedMetricsDelegatePackageName := mRestrictedMetricsDelegatePackageName m;
     mTtlNs := mTtlNs m; mTtlEndNs := mTtlEndNs m;
     mWhitelistedAtomIds := mWhitelistedAtomIds m;
     mAllowedUid := mAllowedUid m; mAllowedPkg := v;
     mAllowedLogSources := mAllowedLogSources m;
     mDefaultPullUids := mDefaultPullUids m;
     mPullAtomUids := mPullAtomUids m;
     mPullAtomPackages := mPullAtomPackages m;
     mCombinedPullAtomUids := mCombinedPullAtomUids m;
     mMaxMetricsBytes := mMaxMetricsBytes m;
     mTriggerGetDataBytes := mTriggerGetDataBytes m;
     mAllMetricProducers := mAllMetricProducers m;
     mAllConditionTrackers := mAllConditionTrackers m;
     mAllAtomMatchingTrackers := mAllAtomMatchingTrackers m;
     mAllAnomalyTrackers := mAllAnomalyTrackers m;
     mMetricIndexesWithActivation := mMetricIndexesWithActivation m;
     mAnnotations := mAnnotations m; mIsAlwaysActive := mIsAlwaysActive m;
     mIsActive := mIsActive m; stats := stats m |}.

Definition with_mAllowedLogSources (v : gset Z) (m : MetricsManager)
  : MetricsManager :=
  {| mInvalidConfigReason := mInvalidConfigReason m;
     mRestrictedMetricsDelegatePackageName := mRestrictedMetricsDelegatePackageName m;
     mTtlNs := mTtlNs m; mTtlEndNs := mTtlEndNs m;
     mWhitelistedAtomIds := mWhitelistedAtomIds m;
     mAllowedUid := mAllowedUid m; mAllowedPkg := mAllowedPkg m;
     mAllowedLogSources := v; mDefaultPullUids := mDefaultPullUids m;
     mPullAtomUids := mPullAtomUids m;
     mPullAtomPackages := mPullAtomPackages m;
     mCombinedPullAtomUids := mCombinedPullAtomUids m;
     mMaxMetricsBytes := mMaxMetricsBytes m;
     mTriggerGetDataBytes := mTriggerGetDataBytes m;
     mAllMetricProducers := mAllMetricProducers m;
     mAllConditionTrackers := mAllConditionTrackers m;
     mAllAtomMatchingTrackers := mAllAtomMatchingTrackers m;
     mAllAnomalyTrackers := mAllAnomalyTrackers m;
     mMetricIndexesWithActivation := mMetricIndexesWithActivation m;
     mAnnotations := mAnnotations m; mIsAlwaysActive := mIsAlwaysActive m;
     mIsActive := mIsActive m; stats := stats m |}.

Definition with_mDefaultPullUids (v : gset Z) (m : MetricsManager)
  : MetricsManager :=
  {| mInvalidConfigReason := mInvalidConfigReason m;
     mRestrictedMetricsDelegatePackageName := mRestrictedMetricsDelegatePackageName m;
     mTtlNs := mTtlNs m; mTtlEndNs := mTtlEndNs m;
     mWhitelistedAtomIds := mWhitelistedAtomIds m;
     mAllowedUid := mAllowedUid m; mAllowedPkg := mAllowedPkg m;
     mAllowedLogSources := mAllowedLogSources m; mDefaultPullUids := v;
     mPullAtomUids := mPullAtomUids m;
     mPullAtomPackages := mPullAtomPackages m;
     mCombinedPullAtomUids := mCombinedPullAtomUids m;
     mMaxMetricsBytes := mMaxMetricsBytes m;
     mTriggerGetDataBytes := mTriggerGetDataBytes m;
     mAllMetricProducers := mAllMetricProducers m;
     mAllConditionTrackers := mAllConditionTrackers m;
     mAllAtomMatchingTrackers := mAllAtomMatchingTrackers m;
     mAllAnomalyTrackers := mAllAnomalyTrackers m;
     mMetricIndexesWithActivation := mMetricIndexesWithActivation m;
     mAnnotations := mAnnotations m; mIsAlwaysActive := mIsAlwaysActive m;
     mIsActive := mIsActive m; stats := stats m |}.

Definition with_mPullAtomUids (v : gmap Z (gset Z)) (m : MetricsManager)
  : MetricsManager :=
  {| mInvalidConfigReason := mInvalidConfigReason m;
     mRestrictedMetricsDelegatePackageName := mRestrictedMetricsDelegatePackageName m;
     mTtlNs := mTtlNs m; mTtlEndNs := mTtlEndNs m;
     mWhitelistedAtomIds := mWhitelistedAtomIds m;
     mAllowedUid := mAllowedUid m; mAllowedPkg := mAllowedPkg m;
     mAllowedLogSources := mAllowedLogSources m;
     mDefaultPullUids := mDefaultPullUids m; mPullAtomUids := v;
     mPullAtomPackages := mPullAtomPackages m;
     mCombinedPullAtomUids := mCombinedPullAtomUids m;
     mMaxMetricsBytes := mMaxMetricsBytes m;
     mTriggerGetDataBytes := mTriggerGetDataBytes m;
     mAllMetricProducers := mAllMetricProducers m;
     mAllConditionTrackers := mAllConditionTrackers m;
     mAllAtomMatchingTrackers := mAllAtomMatchingTrackers m;
     mAllAnomalyTrackers := mAllAnomalyTrackers m;
     mMetricIndexesWithActivation := mMetricIndexesWithActivation m;
     mAnnotations := mAnnotations m; mIsAlwaysActive := mIsAlwaysActive m;
     mIsActive := mIsActive m; stats := stats m |}.

Definition with_mPullAtomPackages (v : gmap Z (gset string)) (m : MetricsManager)
  : MetricsManager :=
  {| mInvalidConfigReason := mInvalidConfigReason m;
     mRestrictedMetricsDelegatePackageName := mRestrictedMetricsDelegatePackageName m;
     mTtlNs := mTtlNs m; mTtlEndNs := mTtlEndNs m;
     mWhitelistedAtomIds := mWhitelistedAtomIds m;
     mAllowedUid := mAllowedUid m; mAllowedPkg := mAllowedPkg m;
     mAllowedLogSources := mAllowedLogSources m;
     mDefaultPullUids := mDefaultPullUids m;
     mPullAtomUids := mPullAtomUids m; mPullAtomPackages := v;
     mCombinedPullAtomUids := mCombinedPullAtomUids m;
     mMaxMetricsBytes := mMaxMetricsBytes m;
     mTriggerGetDataBytes := mTriggerGetDataBytes m;
     mAllMetricProducers := mAllMetricProducers m;
     mAllConditionTrackers := mAllConditionTrackers m;
     mAllAtomMatchingTrackers := mAllAtomMatchingTrackers m;
     mAllAnomalyTrackers := mAllAnomalyTrackers m;
     mMetricIndexesWithActivation := mMetricIndexesWithActivation m;
     mAnnotations := mAnnotations m; mIsAlwaysActive := mIsAlwaysActive m;
     mIsActive := mIsActive m; stats := stats m |}.

Definition with_mCombinedPullAtomUids (v : gmap Z (gset Z)) (m : MetricsManager)
  : MetricsManager :=
  {| mInvalidConfigReason := mInvalidConfigReason m;
     mRestrictedMetricsDelegatePackageName := mRestrictedMetricsDelegatePackageName m;
     mTtlNs := mTtlNs m; mTtlEndNs := mTtlEndNs m;
     mWhitelistedAtomIds := mWhitelistedAtomIds m;
     mAllowedUid := mAllowedUid m; mAllowedPkg := mAllowedPkg m;
     mAllowedLogSources := mAllowedLogSources m;
     mDefaultPullUids := mDefaultPullUids m;
     mPullAtomUids := mPullAtomUids m;
     mPullAtomPackages := mPullAtomPackages m; mCombinedPullAtomUids := v;
     mMaxMetricsBytes := mMaxMetricsBytes m;
     mTriggerGetDataBytes := mTriggerGetDataBytes m;
     mAllMetricProducers := mAllMetricProducers m;
     mAllConditionTrackers := mAllConditionTrackers m;
     mAllAtomMatchingTrackers := mAllAtomMatchingTrackers m;
     mAllAnomalyTrackers := mAllAnomalyTrackers m;
     mMetricIndexesWithActivation := mMetricIndexesWithActivation m;
     mAnnotations := mAnnotations m; mIsAlwaysActive := mIsAlwaysActive m;
     mIsActive := mIsActive m; stats := stats m |}.

Definition with_mMaxMetricsBytes (v : Z) (m : MetricsManager)
  : MetricsManager :=
  {| mInvalidConfigReason := mInvalidConfigReason m;
     mRestrictedMetricsDelegatePackageName := mRestrictedMetricsDelegatePackageName m;
     mTtlNs := mTtlNs m; mTtlEndNs := mTtlEndNs m;
     mWhitelistedAtomIds := mWhitelistedAtomIds m;
     mAllowedUid := mAllowedUid m; mAllowedPkg := mAllowedPkg m;
     mAllowedLogSources := mAllowedLogSources m;
     mDefaultPullUids := mDefaultPullUids m;
     mPullAtomUids := mPullAtomUids m;
     mPullAtomPackages := mPullAtomPackages m;
     mCombinedPullAtomUids := mCombinedPullAtomUids m; mMaxMetricsBytes := v;
     mTriggerGetDataBytes := mTriggerGetDataBytes m;
     mAllMetricProducers := mAllMetricProducers m;
     mAllConditionTrackers := mAllConditionTrackers m;
     mAllAtomMatchingTrackers := mAllAtomMatchingTrackers m;
     mAllAnomalyTrackers := mAllAnomalyTrackers m;
     mMetricIndexesWithActivation := mMetricIndexesWithActivation m;
     mAnnotations := mAnnotations m; mIsAlwaysActive := mIsAlwaysActive m;
     mIsActive := mIsActive m; stats := stats m |}.

Definition with_mTriggerGetDataBytes (v : Z) (m : MetricsManager)
  : MetricsManager :=
  {| mInvalidConfigReason := mInvalidConfigReason m;
     mRestrictedMetricsDelegatePackageName := mRestrictedMetricsDelegatePackageName m;
     mTtlNs := mTtlNs m; mTtlEndNs := mTtlEndNs m;
     mWhitelistedAtomIds := mWhitelistedAtomIds m;
     mAllowedUid := mAllowedUid m; mAllowedPkg := mAllowedPkg m;
     mAllowedLogSources := mAllowedLogSources m;
     mDefaultPullUids := mDefaultPullUids m;
     mPullAtomUids := mPullAtomUids m;
     mPullAtomPackages := mPullAtomPackages m;
     mCombinedPullAtomUids := mCombinedPullAtomUids m;
     mMaxMetricsBytes := mMaxMetricsBytes m; mTriggerGetDataBytes := v;
     mAllMetricProducers := mAllMetricProducers m;
     mAllConditionTrackers := mAllConditionTrackers m;
     mAllAtomMatchingTrackers := mAllAtomMatchingTrackers m;
     mAllAnomalyTrackers := mAllAnomalyTrackers m;
     mMetricIndexesWithActivation := mMetricIndexesWithActivation m;
     mAnnotations := mAnnotations m; mIsAlwaysActive := mIsAlwaysActive m;
     mIsActive := mIsActive m; stats := stats m |}.

Definition with_mAllMetricProducers (v : list MetricProducer) (m : MetricsManager)
  : MetricsManager :=
  {| mInvalidConfigReason := mInvalidConfigReason m;
     mRestrictedMetricsDelegatePackageName := mRestrictedMetricsDelegatePackageName m;
     mTtlNs := mTtlNs m; mTtlEndNs := mTtlEndNs m;
     mWhitelistedAtomIds := mWhitelistedAtomIds m;
     mAllowedUid := mAllowedUid m; mAllowedPkg := mAllowedPkg m;
     mAllowedLogSources := mAllowedLogSources m;
     mDefaultPullUids := mDefaultPullUids m;
     mPullAtomUids := mPullAtomUids m;
     mPullAtomPackages := mPullAtomPackages m;
     mCombinedPullAtomUids := mCombinedPullAtomUids m;
     mMaxMetricsBytes := mMaxMetricsBytes m;
     mTriggerGetDataBytes := mTriggerGetDataBytes m;
     mAllMetricProducers := v;
     mAllConditionTrackers := mAllConditionTrackers m;
     mAllAtomMatchingTrackers := mAllAtomMatchingTrackers m;
     mAllAnomalyTrackers := mAllAnomalyTrackers m;
     mMetricIndexesWithActivation := mMetricIndexesWithActivation m;
     mAnnotations := mAnnotations m; mIsAlwaysActive := mIsAlwaysActive m;
     mIsActive := mIsActive m; stats := stats m |}.

Definition with_mAllAnomalyTrackers (v : list AnomalyTracker) (m : MetricsManager)
  : MetricsManager :=
  {| mInvalidConfigReason := mInvalidConfigReason m;
     mRestrictedMetricsDelegatePackageName := mRestrictedMetricsDelegatePackageName m;
     mTtlNs := mTtlNs m; mTtlEndNs := mTtlEndNs m;
     mWhitelistedAtomIds := mWhitelistedAtomIds m;
     mAllowedUid := mAllowedUid m; mAllowedPkg := mAllowedPkg m;
     mAllowedLogSources := mAllowedLogSources m;
     mDefaultPullUids := mDefaultPullUids m;
     mPullAtomUids := mPullAtomUids m;
     mPullAtomPackages := mPullAtomPackages m;
     mCombinedPullAtomUids := mCombinedPullAtomUids m;
     mMaxMetricsBytes := mMaxMetricsBytes m;
     mTriggerGetDataBytes := mTriggerGetDataBytes m;
     mAllMetricProducers := mAllMetricProducers m;
     mAllConditionTrackers := mAllConditionTrackers m;
     mAllAtomMatchingTrackers := mAllAtomMatchingTrackers m;
     mAllAnomalyTrackers := v;
     mMetricIndexesWithActivation := mMetricIndexesWithActivation m;
     mAnnotations := mAnnotations m; mIsAlwaysActive := mIsAlwaysActive m;
     mIsActive := mIsActive m; stats := stats m |}.

Definition with_mMetricIndexesWithActivation (v : list Z) (m : MetricsManager)
  : MetricsManager :=
  {| mInvalidConfigReason := mInvalidConfigReason m;
     mRestrictedMetricsDelegatePackageName := mRestrictedMetricsDelegatePackageName m;
     mTtlNs := mTtlNs m; mTtlEndNs := mTtlEndNs m;
     mWhitelistedAtomIds := mWhitelistedAtomIds m;
     mAllowedUid := mAllowedUid m; mAllowedPkg := mAllowedPkg m;
     mAllowedLogSources := mAllowedLogSources m;
     mDefaultPullUids := mDefaultPullUids m;
     mPullAtomUids := mPullAtomUids m;
     mPullAtomPackages := mPullAtomPackages m;
     mCombinedPullAtomUids := mCombinedPullAtomUids m;
     mMaxMetricsBytes := mMaxMetricsBytes m;
     mTriggerGetDataBytes := mTriggerGetDataBytes m;
     mAllMetricProducers := mAllMetricProducers m;
     mAllConditionTrackers := mAllConditionTrackers m;
     mAllAtomMatchingTrackers := mAllAtomMatchingTrackers m;
     mAllAnomalyTrackers := mAllAnomalyTrackers m;
     mMetricIndexesWithActivation := v; mAnnotations := mAnnotations m;
     mIsAlwaysActive := mIsAlwaysActive m; mIsActive := mIsActive m;
     stats := stats m |}.

Definition with_mAnnotations (v : list (Z * Z)) (m : MetricsManager)
  : MetricsManager :=
  {| mInvalidConfigReason := mInvalidConfigReason m;
     mRestrictedMetricsDelegatePackageName := mRestrictedMetricsDelegatePackageName m;
     mTtlNs := mTtlNs m; mTtlEndNs := mTtlEndNs m;
     mWhitelistedAtomIds := mWhitelistedAtomIds m;
     mAllowedUid := mAllowedUid m; mAllowedPkg := mAllowedPkg m;
     mAllowedLogSources := mAllowedLogSources m;
     mDefaultPullUids := mDefaultPullUids m;
     mPullAtomUids := mPullAtomUids m;
     mPullAtomPackages := mPullAtomPackages m;
     mCombinedPullAtomUids := mCombinedPullAtomUids m;
     mMaxMetricsBytes := mMaxMetricsBytes m;
     mTriggerGetDataBytes := mTriggerGetDataBytes m;
     mAllMetricProducers := mAllMetricProducers m;
     mAllConditionTrackers := mAllConditionTrackers m;
     mAllAtomMatchingTrackers := mAllAtomMatchingTrackers m;
     mAllAnomalyTrackers := mAllAnomalyTrackers m;
     mMetricIndexesWithActivation := mMetricIndexesWithActivation m;
     mAnnotations := v; mIsAlwaysActive := mIsAlwaysActive m;
     mIsActive := mIsActive m; stats := stats m |}.

Definition with_mIsAlwaysActive (v : bool) (m : MetricsManager)
  : MetricsManager :=
  {| mInvalidConfigReason := mInvalidConfigReason m;
     mRestrictedMetricsDelegatePackageName := mRestrictedMetricsDelegatePackageName m;
     mTtlNs := mTtlNs m; mTtlEndNs := mTtlEndNs m;
     mWhitelistedAtomIds := mWhitelistedAtomIds m;
     mAllowedUid := mAllowedUid m; mAllowedPkg := mAllowedPkg m;
     mAllowedLogSources := mAllowedLogSources m;
     mDefaultPullUids := mDefaultPullUids m;
     mPullAtomUids := mPullAtomUids m;
     mPullAtomPackages := mPullAtomPackages m;
     mCombinedPullAtomUids := mCombinedPullAtomUids m;
     mMaxMetricsBytes := mMaxMetricsBytes m;
     mTriggerGetDataBytes := mTriggerGetDataBytes m;
     mAllMetricProducers := mAllMetricProducers m;
     mAllConditionTrackers := mAllConditionTrackers m;
     mAllAtomMatchingTrackers := mAllAtomMatchingTrackers m;
     mAllAnomalyTrackers := mAllAnomalyTrackers m;
     mMetricIndexesWithActivation := mMetricIndexesWithActivation m;
     mAnnotations := mAnnotations m; mIsAlwaysActive := v;
     mIsActive := mIsActive m; stats := stats m |}.

Definition with_mIsActive (v : bool) (m : MetricsManager)
  : MetricsManager :=
  {| mInvalidConfigReason := mInvalidConfigReason m;
     mRestrictedMetricsDelegatePackageName := mRestrictedMetricsDelegatePackageName m;
     mTtlNs := mTtlNs m; mTtlEndNs := mTtlEndNs m;
     mWhitelistedAtomIds := mWhitelistedAtomIds m;
     mAllowedUid := mAllowedUid m; mAllowedPkg := mAllowedPkg m;
     mAllowedLogSources := mAllowedLogSources m;
     mDefaultPullUids := mDefaultPullUids m;
     mPullAtomUids := mPullAtomUids m;
     mPullAtomPackages := mPullAtomPackages m;
     mCombinedPullAtomUids := mCombinedPullAtomUids m;
     mMaxMetricsBytes := mMaxMetricsBytes m;
     mTriggerGetDataBytes := mTriggerGetDataBytes m;
     mAllMetricProducers := mAllMetricProducers m;
     mAllConditionTrackers := mAllConditionTrackers m;
     mAllAtomMatchingTrackers := mAllAtomMatchingTrackers m;
     mAllAnomalyTrackers := mAllAnomalyTrackers m;
     mMetricIndexesWithActivation := mMetricIndexesWithActivation m;
     mAnnotations := mAnnotations m; mIsAlwaysActive := mIsAlwaysActive m;
     mIsActive := v; stats := stats m |}.

Definition with_stats (v : list StatsEvent) (m : MetricsManager)
  : MetricsManager :=
  {| mInvalidConfigReason := mInvalidConfigReason m;
     mRestrictedMetricsDelegatePackageName := mRestrictedMetricsDelegatePackageName m;
     mTtlNs := mTtlNs m; mTtlEndNs := mTtlEndNs m;
     mWhitelistedAtomIds := mWhitelistedAtomIds m;
     mAllowedUid := mAllowedUid m; mAllowedPkg := mAllowedPkg m;
     mAllowedLogSources := mAllowedLogSources m;
     mDefaultPullUids := mDefaultPullUids m;
     mPullAtomUids := mPullAtomUids m;
     mPullAtomPackages := mPullAtomPackages m;
     mCombinedPullAtomUids := mCombinedPullAtomUids m;
     mMaxMetricsBytes := mMaxMetricsBytes m;
     mTriggerGetDataBytes := mTriggerGetDataBytes m;
     mAllMetricProducers := mAllMetricProducers m;
     mAllConditionTrackers := mAllConditionTrackers m;
     mAllAtomMatchingTrackers := mAllAtomMatchingTrackers m;
     mAllAnomalyTrackers := mAllAnomalyTrackers m;
     mMetricIndexesWithActivation := mMetricIndexesWithActivation m;
     mAnnotations := mAnnotations m; mIsAlwaysActive := mIsAlwaysActive m;
     mIsActive := mIsActive m; stats := v |}.

(** The members that [initStatsdConfig] and [updateStatsdConfig] fill in,
    among those kept above. *)
Record ConfigParts := {
  partsReason : option InvalidConfigReason;
  partsMetricProducers : list MetricProducer;
  partsConditionTrackers : list ConditionTracker;
  partsAtomMatchingTrackers : list AtomMatchingTracker;
  partsAnomalyTrackers : list AnomalyTracker;
  partsMetricIndexesWithActivation : list Z
}.

(** What the manager uses and the sources do not define. The values of
    [sAidToUidMapping] are read as the [int32_t] uids the manager stores. *)
Record Collaborators := {
  (* invalid_config_reason_enum.h *)
  INVALID_CONFIG_REASON_RESTRICTED_METRIC_NOT_ENABLED : InvalidConfigReason;
  INVALID_CONFIG_REASON_TOO_MANY_LOG_SOURCES : InvalidConfigReason;
  INVALID_CONFIG_REASON_DEFAULT_PULL_PACKAGES_NOT_IN_MAP : InvalidConfigReason;
  INVALID_CONFIG_REASON_TOO_MANY_SOURCES_IN_PULL_PACKAGES : InvalidConfigReason;
  INVALID_CONFIG_REASON_TOO_MANY_METRICS : InvalidConfigReason;
  INVALID_CONFIG_REASON_TOO_MANY_CONDITIONS : InvalidConfigReason;
  INVALID_CONFIG_REASON_TOO_MANY_MATCHERS : InvalidConfigReason;
  INVALID_CONFIG_REASON_TOO_MANY_ALERTS : InvalidConfigReason;
  (* StatsdStats *)
  kMaxLogSourceCount : Z;
  kMaxPullAtomPackages : Z;
  kMaxMetricCountPerConfig : Z;
  kMaxConditionCountPerConfig : Z;
  kMaxMatcherCountPerConfig : Z;
  kMaxAlertCountPerConfig : Z;
  kDefaultMaxMetricsBytesPerConfig : Z;
  kHardMaxMetricsBytesPerConfig : Z;
  kDefaultBytesPerConfigTriggerGetData : Z;
  kHardMaxTriggerGetDataBytes : Z;
  (* stats_util.h, UidMap, flags *)
  NS_PER_SEC : Z;
  sAidToUidMapping : gmap string Z;
  isAtLeastU : bool;
  (* config_update_utils.h *)
  updateStatsdConfig : StatsdConfig -> Z -> Z -> MetricsManager -> ConfigParts;
  (* MetricProducer *)
  isActive : MetricProducer -> bool;
  getMetricId : MetricProducer -> Z;
  loadActiveMetric : ActiveMetric -> Z -> MetricProducer -> MetricProducer;
  producerNotifyAppUpgrade : Z -> MetricProducer -> MetricProducer;
  producerNotifyAppRemoved : Z -> MetricProducer -> MetricProducer;
  (* ActiveMetric (active_config_list.proto) *)
  activeMetricId : ActiveMetric -> Z;
  (* ConfigKey: mConfigKey.GetId() and mConfigKey.GetUid() *)
  configKeyId : Z;
  configKeyUid : Z;
  (* statsd_metadata.proto: the message that add_alert_metadata() and
     add_metric_metadata() append *)
  newAlertMetadata : AlertMetadata;
  newMetricMetadata : MetricMetadata;
  (* AnomalyTracker, MetricProducer: the answer, the message as written and
     the object afterwards *)
  writeAlertMetadataToProto :
    Z -> Z -> AnomalyTracker -> AlertMetadata -> bool * AlertMetadata * AnomalyTracker;
  writeMetricMetadataToProto :
    MetricProducer -> MetricMetadata -> bool * MetricMetadata * MetricProducer
}.

Variable E : Collaborators.

(** Appends one call to the [StatsdStats] log. *)
Definition note (e : StatsEvent) (m : MetricsManager) : MetricsManager :=
  with_stats (stats m ++ [e]) m.

(** [MetricsManager::isConfigValid]. *)
Definition isConfigValid (m : MetricsManager) : bool :=
  match mInvalidConfigReason m with
  | None => true
  | Some _ => false
  end.

(** [MetricsManager::hasRestrictedMetricsDelegate]. *)
Definition hasRestrictedMetricsDelegate (m : MetricsManager) : bool :=
  match mRestrictedMetricsDelegatePackageName m with
  | Some _ => true
  | None => false
  end.

(** [MetricsManager::validateRestrictedMetricsDelegate]. *)
Definition validateRestrictedMetricsDelegate (uidMap : UidMap) (callingUid : Z)
    (m : MetricsManager) : bool :=
  match mRestrictedMetricsDelegatePackageName m with
  | None => false
  | Some name => bool_decide (callingUid ∈ uidMap name)
  end.

(** *** Time to live *)

(** [MetricsManager::isInTtl]. *)
Definition isInTtl (timestampNs : Z) (m : MetricsManager) : bool :=
  (mTtlNs m <=? 0) || (timestampNs <? mTtlEndNs m).

(** [MetricsManager::refreshTtl]. *)
Definition refreshTtl (currentTimestampNs : Z) (m : MetricsManager) : MetricsManager :=
  if mTtlNs m >? 0
  then with_mTtlEndNs (int64 (currentTimestampNs + mTtlNs m)) m
  else m.

(** [config.has_ttl_in_seconds() ? config.ttl_in_seconds() * NS_PER_SEC : -1],
    the value the constructor and [updateConfig] give [mTtlNs]. *)
Definition ttlNsOf (config : StatsdConfig) : Z :=
  match ttl_in_seconds config with
  | Some seconds => int64 (seconds * NS_PER_SEC E)
  | None => -1
  end.

(** *** Log sources *)

(** [MetricsManager::initAllowedLogSources]: the set is cleared, then filled
    with [mAllowedUid] and with the uids of every allowed package. *)
Definition initAllowedLogSources (uidMap : UidMap) (m : MetricsManager)
  : MetricsManager :=
  with_mAllowedLogSources
    (foldl (fun sources pkg => sources ∪ uidMap pkg)
       (list_to_set (mAllowedUid m)) (mAllowedPkg m)) m.

(** [combined[atomId].insert(uids.begin(), uids.end())]: [operator[]]
    creates the entry when it is missing. *)
Definition insertUids (atomId : Z) (uids : gset Z) (combined : gmap Z (gset Z))
  : gmap Z (gset Z) :=
  <[atomId := default ∅ (combined !! atomId) ∪ uids]> combined.

(** [MetricsManager::initPullAtomSources]. *)
Definition initPullAtomSources (uidMap : UidMap) (m : MetricsManager)
  : MetricsManager :=
  let fromUids :=
    foldl (fun combined entry => insertUids (fst entry) (snd entry) combined)
      ∅ (map_to_list (mPullAtomUids m)) in
  let fromPackages :=
    foldl
      (fun combined (entry : Z * gset string) =>
         foldl (fun combined pkg => insertUids (fst entry) (uidMap pkg) combined)
           combined (elements (snd entry)))
      fromUids (map_to_list (mPullAtomPackages m)) in
  with_mCombinedPullAtomUids fromPackages m.

(** [MetricsManager::getPullAtomUids]: the uids combined for the atom, then
    the default pull uids, each set in ascending order. *)
Definition getPullAtomUids (atomId : Z) (m : MetricsManager) : list Z :=
  match mCombinedPullAtomUids m !! atomId with
  | Some uids => merge_sort Z.le (elements uids)
  | None => []
  end
  ++ merge_sort Z.le (elements (mDefaultPullUids m)).

(** The first loop of [createAllLogSourcesFromConfig]: a source named in
    [sAidToUidMapping] is an allowed uid, any other an allowed package. *)
Definition addAllowedLogSource (m : MetricsManager) (source : string)
  : MetricsManager :=
  match sAidToUidMapping E !! source with
  | Some uid => with_mAllowedUid (mAllowedUid m ++ [uid]) m
  | None => with_mAllowedPkg (mAllowedPkg m ++ [source]) m
  end.

(** The loop over [default_pull_packages]; [numPullPackages] is an [int]. *)
Definition addDefaultPullPackage (acc : Z * MetricsManager) (pullSource : string)
  : Z * MetricsManager :=
  match sAidToUidMapping E !! pullSource with
  | Some uid =>
      (int32 (fst acc + 1),
       with_mDefaultPullUids ({[uid]} ∪ mDefaultPullUids (snd acc)) (snd acc))
  | None =>
      (fst acc,
       with_mInvalidConfigReason
         (Some (INVALID_CONFIG_REASON_DEFAULT_PULL_PACKAGES_NOT_IN_MAP E)) (snd acc))
  end.

(** The inner loop over the packages of one [PullAtomPackages]. *)
Definition addPullAtomPackage (atomId : Z) (acc : Z * MetricsManager)
    (pullPackage : string) : Z * MetricsManager :=
  let m := snd acc in
  (int32 (fst acc + 1),
   match sAidToUidMapping E !! pullPackage with
   | Some uid =>
       with_mPullAtomUids
         (<[atomId := {[uid]} ∪ default ∅ (mPullAtomUids m !! atomId)]>
            (mPullAtomUids m)) m
   | None =>
       with_mPullAtomPackages
         (<[atomId := {[pullPackage]} ∪ default ∅ (mPullAtomPackages m !! atomId)]>
            (mPullAtomPackages m)) m
   end).

(** [MetricsManager::createAllLogSourcesFromConfig]. *)
Definition createAllLogSourcesFromConfig (uidMap : UidMap) (config : StatsdConfig)
    (m : MetricsManager) : MetricsManager :=
  let m1 := foldl addAllowedLogSource m (allowed_log_source config) in
  let m2 :=
    if Z.of_nat (length (mAllowedUid m1) + length (mAllowedPkg m1))
       >? kMaxLogSourceCount E
    then with_mInvalidConfigReason
           (Some (INVALID_CONFIG_REASON_TOO_MANY_LOG_SOURCES E)) m1
    else initAllowedLogSources uidMap m1 in
  let defaults := foldl addDefaultPullPackage (0, m2) (default_pull_packages config) in
  let perAtom :=
    foldl
      (fun acc pullAtomPackages =>
         foldl (addPullAtomPackage (int32 (atom_id pullAtomPackages))) acc
           (packages pullAtomPackages))
      defaults (pull_atom_packages config) in
  if fst perAtom >? kMaxPullAtomPackages E
  then with_mInvalidConfigReason
         (Some (INVALID_CONFIG_REASON_TOO_MANY_SOURCES_IN_PULL_PACKAGES E))
         (snd perAtom)
  else initPullAtomSources uidMap (snd perAtom).

(** [MetricsManager::onUidMapReceived]. *)
Definition onUidMapReceived (uidMap : UidMap) (eventTimeNs : Z) (m : MetricsManager)
  : MetricsManager :=
  let m1 := initPullAtomSources uidMap m in
  if (length (mAllowedPkg m1) =? 0)%nat then m1
  else initAllowedLogSources uidMap m1.

(** The two checks that [notifyAppUpgrade] and [notifyAppRemoved] share:
    the allowed sources are rebuilt when [apk] is an allowed package, the
    pull sources (once) when some atom pulls from [apk]. *)
Definition refreshSourcesFor (uidMap : UidMap) (apk : string) (m : MetricsManager)
  : MetricsManager :=
  let m1 :=
    if bool_decide (apk ∈ mAllowedPkg m) then initAllowedLogSources uidMap m
    else m in
  if existsb (fun entry : Z * gset string => bool_decide (apk ∈ snd entry))
       (map_to_list (mPullAtomPackages m1))
  then initPullAtomSources uidMap m1
  else m1.

(** [MetricsManager::notifyAppUpgrade]. *)
Definition notifyAppUpgrade (uidMap : UidMap) (eventTimeNs : Z) (apk : string)
    (uid version : Z) (m : MetricsManager) : MetricsManager :=
  refreshSourcesFor uidMap apk
    (with_mAllMetricProducers
       (producerNotifyAppUpgrade E eventTimeNs <$> mAllMetricProducers m) m).

(** [MetricsManager::notifyAppRemoved]. *)
Definition notifyAppRemoved (uidMap : UidMap) (eventTimeNs : Z) (apk : string)
    (uid : Z) (m : MetricsManager) : MetricsManager :=
  refreshSourcesFor uidMap apk
    (with_mAllMetricProducers
       (producerNotifyAppRemoved E eventTimeNs <$> mAllMetricProducers m) m).

(** The manager as [checkLogCredentials] sees it. *)
Definition credentials (m : MetricsManager) : MetricsManager.MetricsManager :=
  {| MetricsManager.mAllowedLogSources := mAllowedLogSources m;
     MetricsManager.mWhitelistedAtomIds := mWhitelistedAtomIds m |}.

(** *** Memory limits *)

(** [static_cast<size_t>] of an [int]; [size_t] has 64 bits. *)
Definition size_t_of_int (z : Z) : Z := uwrap 64 z.

(** [MetricsManager::setMaxMetricsBytesFromConfig]. The product
    [config.max_metrics_memory_kb() * 1024] is computed on [int]. *)
Definition setMaxMetricsBytesFromConfig (config : StatsdConfig) (m : MetricsManager)
  : MetricsManager :=
  match max_metrics_memory_kb config with
  | None => with_mMaxMetricsBytes (kDefaultMaxMetricsBytesPerConfig E) m
  | Some kb =>
      if (kb <=? 0)
         || (size_t_of_int (int32 (kb * 1024)) >? kHardMaxMetricsBytesPerConfig E)
      then with_mMaxMetricsBytes (kDefaultMaxMetricsBytesPerConfig E) m
      else with_mMaxMetricsBytes (size_t_of_int (int32 (kb * 1024))) m
  end.

(** [MetricsManager::setTriggerGetDataBytesFromConfig]. *)
Definition setTriggerGetDataBytesFromConfig (config : StatsdConfig)
    (m : MetricsManager) : MetricsManager :=
  match soft_metrics_memory_kb config with
  | None => with_mTriggerGetDataBytes (kDefaultBytesPerConfigTriggerGetData E) m
  | Some kb =>
      if (kb <=? 0)
         || (size_t_of_int (int32 (kb * 1024)) >? kHardMaxTriggerGetDataBytes E)
      then with_mTriggerGetDataBytes (kDefaultBytesPerConfigTriggerGetData E) m
      else with_mTriggerGetDataBytes (size_t_of_int (int32 (kb * 1024))) m
  end.

(** *** Guardrails and active status *)

(** [MetricsManager::verifyGuardrailsAndUpdateStatsdStats]. *)
Definition verifyGuardrailsAndUpdateStatsdStats (m : MetricsManager)
  : MetricsManager :=
  let metricsCount := Z.of_nat (length (mAllMetricProducers m)) in
  let conditionsCount := Z.of_nat (length (mAllConditionTrackers m)) in
  let matchersCount := Z.of_nat (length (mAllAtomMatchingTrackers m)) in
  let alertsCount := Z.of_nat (length (mAllAnomalyTrackers m)) in
  let m1 :=
    if metricsCount >? kMaxMetricCountPerConfig E
    then with_mInvalidConfigReason
           (Some (INVALID_CONFIG_REASON_TOO_MANY_METRICS E)) m
    else m in
  let m2 :=
    if conditionsCount >? kMaxConditionCountPerConfig E
    then with_mInvalidConfigReason
           (Some (INVALID_CONFIG_REASON_TOO_MANY_CONDITIONS E)) m1
    else m1 in
  let m3 :=
    if matchersCount >? kMaxMatcherCountPerConfig E
    then with_mInvalidConfigReason
           (Some (INVALID_CONFIG_REASON_TOO_MANY_MATCHERS E)) m2
    else m2 in
  let m4 :=
    if alertsCount >? kMaxAlertCountPerConfig E
    then with_mInvalidConfigReason
           (Some (INVALID_CONFIG_REASON_TOO_MANY_ALERTS E)) m3
    else m3 in
  note (noteConfigReceived metricsCount conditionsCount matchersCount alertsCount
          (mAnnotations m4) (mInvalidConfigReason m4)) m4.

(** [mAllMetricProducers[metricIndex]]; an index outside the vector, which
    the C++ code leaves undefined, finds no producer. *)
Definition producerAt (metricIndex : Z) (m : MetricsManager) : option MetricProducer :=
  if metricIndex <? 0 then None
  else mAllMetricProducers m !! Z.to_nat metricIndex.

(** [MetricsManager::initializeConfigActiveStatus]. *)
Definition initializeConfigActiveStatus (m : MetricsManager) : MetricsManager :=
  let always :=
    negb (length (mMetricIndexesWithActivation m) =? length (mAllMetricProducers m))%nat
    || (length (mAllMetricProducers m) =? 0)%nat in
  let m1 := with_mIsActive always (with_mIsAlwaysActive always m) in
  foldl
    (fun m2 metric =>
       with_mIsActive
         (mIsActive m2
          || match producerAt metric m2 with
             | Some producer => isActive E producer
             | None => false
             end) m2)
    m1 (mMetricIndexesWithActivation m1).

(** The body of the inner loop of [loadActiveConfig]. *)
Definition loadActiveMetricAt (activeMetric : ActiveMetric) (currentTimeNs : Z)
    (m : MetricsManager) (metricIndex : Z) : MetricsManager :=
  match producerAt metricIndex m with
  | Some metric =>
      if getMetricId E metric =? activeMetricId E activeMetric then
        let metric := loadActiveMetric E activeMetric currentTimeNs metric in
        let m1 :=
          with_mAllMetricProducers
            (<[Z.to_nat metricIndex := metric]> (mAllMetricProducers m)) m in
        let m2 :=
          if negb (mIsActive m1) && isActive E metric
          then note (noteActiveStatusChanged true) m1
          else m1 in
        with_mIsActive (mIsActive m2 || isActive E metric) m2
      else m
  | None => m
  end.

(** [MetricsManager::loadActiveConfig]; [config] is the list of the
    [ActiveConfig]'s metrics. *)
Definition loadActiveConfig (config : list ActiveMetric) (currentTimeNs : Z)
    (m : MetricsManager) : MetricsManager :=
  if (length config =? 0)%nat then m
  else
    foldl
      (fun m1 activeMetric =>
         foldl (loadActiveMetricAt activeMetric currentTimeNs) m1
           (mMetricIndexesWithActivation m1))
      m config.

(** *** Metadata *)

(** [metadata::StatsMetadata]: the config key and the repeated alert and
    metric metadata. *)
Record StatsMetadata := {
  config_key : Z * Z;
  alert_metadata : list AlertMetadata;
  metric_metadata : list MetricMetadata
}.

(** One turn of the first loop of [writeMetadataToProto]: a message is
    appended, the tracker writes into it, and [RemoveLast] takes it away
    again when nothing was written. *)
Definition writeAlert (currentWallClockTimeNs systemElapsedTimeNs : Z)
    (acc : bool * list AlertMetadata * list AnomalyTracker)
    (anomalyTracker : AnomalyTracker)
  : bool * list AlertMetadata * list AnomalyTracker :=
  let '(metadataWritten, alerts, trackers) := acc in
  let alerts1 := alerts ++ [newAlertMetadata E] in
  let '(alertWritten, alertMetadata, anomalyTracker) :=
    writeAlertMetadataToProto E currentWallClockTimeNs systemElapsedTimeNs
      anomalyTracker (newAlertMetadata E) in
  let alerts2 := removelast alerts1 ++ [alertMetadata] in
  (metadataWritten || alertWritten,
   if alertWritten then alerts2 else removelast alerts2,
   trackers ++ [anomalyTracker]).

(** One turn of the second loop. *)
Definition writeMetric (acc : bool * list MetricMetadata * list MetricProducer)
    (metricProducer : MetricProducer)
  : bool * list MetricMetadata * list MetricProducer :=
  let '(metadataWritten, metrics, producers) := acc in
  let metrics1 := metrics ++ [newMetricMetadata E] in
  let '(metricWritten, metricMetadata, metricProducer) :=
    writeMetricMetadataToProto E metricProducer (newMetricMetadata E) in
  let metrics2 := removelast metrics1 ++ [metricMetadata] in
  (metadataWritten || metricWritten,
   if metricWritten then metrics2 else removelast metrics2,
   producers ++ [metricProducer]).

(** [MetricsManager::writeMetadataToProto]: the answer, the metadata and the
    manager afterwards. *)
Definition writeMetadataToProto (currentWallClockTimeNs systemElapsedTimeNs : Z)
    (statsMetadata : StatsMetadata) (m : MetricsManager)
  : bool * StatsMetadata * MetricsManager :=
  let '(written1, alerts, trackers) :=
    foldl (writeAlert currentWallClockTimeNs systemElapsedTimeNs)
      (false, alert_metadata statsMetadata, []) (mAllAnomalyTrackers m) in
  let '(written2, metrics, producers) :=
    foldl writeMetric (written1, metric_metadata statsMetadata, [])
      (mAllMetricProducers m) in
  (written2,
   {| config_key := (configKeyId E, configKeyUid E);
      alert_metadata := alerts;
      metric_metadata := metrics |},
   with_mAllMetricProducers producers (with_mAllAnomalyTrackers trackers m)).

(** *** Config update *)

(** The members [updateConfig] takes from [updateStatsdConfig]. *)
Definition with_parts (parts : ConfigParts) (m : MetricsManager) : MetricsManager :=
  {| mInvalidConfigReason := partsReason parts;
     mRestrictedMetricsDelegatePackageName := mRestrictedMetricsDelegatePackageName m;
     mTtlNs := mTtlNs m; mTtlEndNs := mTtlEndNs m;
     mWhitelistedAtomIds := mWhitelistedAtomIds m;
     mAllowedUid := mAllowedUid m; mAllowedPkg := mAllowedPkg m;
     mAllowedLogSources := mAllowedLogSources m;
     mDefaultPullUids := mDefaultPullUids m;
     mPullAtomUids := mPullAtomUids m;
     mPullAtomPackages := mPullAtomPackages m;
     mCombinedPullAtomUids := mCombinedPullAtomUids m;
     mMaxMetricsBytes := mMaxMetricsBytes m;
     mTriggerGetDataBytes := mTriggerGetDataBytes m;
     mAllMetricProducers := partsMetricProducers parts;
     mAllConditionTrackers := partsConditionTrackers parts;
     mAllAtomMatchingTrackers := partsAtomMatchingTrackers parts;
     mAllAnomalyTrackers := partsAnomalyTrackers parts;
     mMetricIndexesWithActivation := partsMetricIndexesWithActivation parts;
     mAnnotations := mAnnotations m; mIsAlwaysActive := mIsAlwaysActive m;
     mIsActive := mIsActive m; stats := stats m |}.

(** [MetricsManager::updateConfig]: the answer and the manager afterwards. *)
Definition updateConfig (uidMap : UidMap) (config : StatsdConfig)
    (timeBaseNs currentTimeNs : Z) (m : MetricsManager) : bool * MetricsManager :=
  if negb (isAtLeastU E)
     && bool_decide (is_Some (restricted_metrics_delegate_package_name config))
  then
    (false,
     with_mInvalidConfigReason
       (Some (INVALID_CONFIG_REASON_RESTRICTED_METRIC_NOT_ENABLED E)) m)
  else
    let m1 :=
      with_mRestrictedMetricsDelegatePackageName
        (restricted_metrics_delegate_package_name config) m in
    let m2 := with_mMetricIndexesWithActivation [] m1 in
    let m3 :=
      with_parts (updateStatsdConfig E config timeBaseNs currentTimeNs m2) m2 in
    let m4 := refreshTtl currentTimeNs (with_mTtlNs (ttlNsOf config) m3) in
    let m5 :=
      with_mAnnotations (annotation config)
        (with_mWhitelistedAtomIds (list_to_set (whitelisted_atom_ids config)) m4) in
    let m6 :=
      with_mPullAtomPackages ∅
        (with_mPullAtomUids ∅
           (with_mDefaultPullUids ∅
              (with_mAllowedPkg [] (with_mAllowedUid [] m5)))) in
    let m7 := createAllLogSourcesFromConfig uidMap config m6 in
    let m8 := setMaxMetricsBytesFromConfig config m7 in
    let m9 := setTriggerGetDataBytesFromConfig config m8 in
    let m10 := verifyGuardrailsAndUpdateStatsdStats m9 in
    let m11 := initializeConfigActiveStatus m10 in
    (isConfigValid m11, m11).

(** *** Time to live: properties *)

(** X9: A manager without a positive TTL never expires and [refreshTtl] leaves
    it alone. With a positive TTL (and no 64-bit overflow) [refreshTtl] moves
    the end to [currentTimestampNs + mTtlNs]: the config is in its TTL at
    exactly the timestamps before that end, the refresh time among them. *)
Theorem refreshTtl_then_isInTtl (currentTimestampNs timestampNs : Z)
    (m : MetricsManager) :
  let m' := refreshTtl currentTimestampNs m in
  (mTtlNs m <= 0 -> m' = m /\ isInTtl timestampNs m' = true)
  /\ (0 < mTtlNs m -> in_int64 (currentTimestampNs + mTtlNs m) ->
      mTtlEndNs m' = currentTimestampNs + mTtlNs m
      /\ (isInTtl timestampNs m' = true
          <-> timestampNs < currentTimestampNs + mTtlNs m)
      /\ isInTtl currentTimestampNs m' = true
      /\ isInTtl (currentTimestampNs + mTtlNs m) m' = false).
Proof.
  intros m'. subst m'. unfold refreshTtl, isInTtl. split.
  - intros Hle. destruct (mTtlNs m >? 0) eqn:Hgt; [apply Z.gtb_lt in Hgt; lia|].
    split; [reflexivity|]. apply orb_true_iff. left. apply Z.leb_le, Hle.
  - intros Hpos Hrange.
    destruct (mTtlNs m >? 0) eqn:Hgt;
      [|rewrite Z.gtb_ltb in Hgt; apply Z.ltb_ge in Hgt; lia].
    simpl. rewrite (int64_id _ Hrange).
    destruct (mTtlNs m <=? 0) eqn:Hle; [apply Z.leb_le in Hle; lia|]. simpl.
    split; [reflexivity|]. split; [apply Z.ltb_lt|].
    split; [apply Z.ltb_lt; lia|apply Z.ltb_ge; lia].
Qed.

(** *** Guardrails: properties *)

(** X6: [verifyGuardrailsAndUpdateStatsdStats] leaves a config valid exactly when
    it was valid and none of the four counts exceeds its limit; of several
    failing checks the last one names the reason; and whatever the outcome,
    one [noteConfigReceived] with the counts and the final reason is sent. *)
Theorem verifyGuardrailsAndUpdateStatsdStats_spec (m : MetricsManager) :
  let metricsCount := Z.of_nat (length (mAllMetricProducers m)) in
  let conditionsCount := Z.of_nat (length (mAllConditionTrackers m)) in
  let matchersCount := Z.of_nat (length (mAllAtomMatchingTrackers m)) in
  let alertsCount := Z.of_nat (length (mAllAnomalyTrackers m)) in
  let m' := verifyGuardrailsAndUpdateStatsdStats m in
  (isConfigValid m' = true
   <-> isConfigValid m = true
       /\ metricsCount <= kMaxMetricCountPerConfig E
       /\ conditionsCount <= kMaxConditionCountPerConfig E
       /\ matchersCount <= kMaxMatcherCountPerConfig E
       /\ alertsCount <= kMaxAlertCountPerConfig E)
  /\ stats m'
     = stats m ++ [noteConfigReceived metricsCount conditionsCount matchersCount
                     alertsCount (mAnnotations m) (mInvalidConfigReason m')]
  /\ (kMaxAlertCountPerConfig E < alertsCount ->
      mInvalidConfigReason m' = Some (INVALID_CONFIG_REASON_TOO_MANY_ALERTS E))
  /\ (alertsCount <= kMaxAlertCountPerConfig E ->
      kMaxMatcherCountPerConfig E < matchersCount ->
      mInvalidConfigReason m' = Some (INVALID_CONFIG_REASON_TOO_MANY_MATCHERS E))
  /\ (alertsCount <= kMaxAlertCountPerConfig E ->
      matchersCount <= kMaxMatcherCountPerConfig E ->
      kMaxConditionCountPerConfig E < conditionsCount ->
      mInvalidConfigReason m' = Some (INVALID_CONFIG_REASON_TOO_MANY_CONDITIONS E))
  /\ (alertsCount <= kMaxAlertCountPerConfig E ->
      matchersCount <= kMaxMatcherCountPerConfig E ->
      conditionsCount <= kMaxConditionCountPerConfig E ->
      kMaxMetricCountPerConfig E < metricsCount ->
      mInvalidConfigReason m' = Some (INVALID_CONFIG_REASON_TOO_MANY_METRICS E))
  /\ (alertsCount <= kMaxAlertCountPerConfig E ->
      matchersCount <= kMaxMatcherCountPerConfig E ->
      conditionsCount <= kMaxConditionCountPerConfig E ->
      metricsCount <= kMaxMetricCountPerConfig E ->
      mInvalidConfigReason m' = mInvalidConfigReason m).
Proof.
  intros metricsCount conditionsCount matchersCount alertsCount m'.
  subst m'. unfold verifyGuardrailsAndUpdateStatsdStats, isConfigValid.
  fold metricsCount conditionsCount matchersCount alertsCount.
  destruct (metricsCount >? kMaxMetricCountPerConfig E) eqn:H1;
    [apply Z.gtb_lt in H1|rewrite Z.gtb_ltb in H1; apply Z.ltb_ge in H1];
  (destruct (conditionsCount >? kMaxConditionCountPerConfig E) eqn:H2;
    [apply Z.gtb_lt in H2|rewrite Z.gtb_ltb in H2; apply Z.ltb_ge in H2]);
  (destruct (matchersCount >? kMaxMatcherCountPerConfig E) eqn:H3;
    [apply Z.gtb_lt in H3|rewrite Z.gtb_ltb in H3; apply Z.ltb_ge in H3]);
  (destruct (alertsCount >? kMaxAlertCountPerConfig E) eqn:H4;
    [apply Z.gtb_lt in H4|rewrite Z.gtb_ltb in H4; apply Z.ltb_ge in H4]);
  simpl;
  (split; [split; [intros Hv; try discriminate; repeat split; auto; lia
                  |intros (Hv & ? & ? & ? & ?); try lia; exact Hv]|]);
  (split; [reflexivity|]);
  repeat split; intros; try reflexivity; lia.
Qed.

(** *** Active status: properties *)

Lemma foldl_active_status (m1 : MetricsManager) (indexes : list Z) (b : bool) :
  foldl
    (fun m2 metric =>
       with_mIsActive
         (mIsActive m2
          || match producerAt metric m2 with
             | Some producer => isActive E producer
             | None => false
             end) m2)
    (with_mIsActive b m1) indexes
  = with_mIsActive
      (b || existsb
              (fun metric =>
                 match producerAt metric m1 with
                 | Some producer => isActive E producer
                 | None => false
                 end) indexes) m1.
Proof.
  revert b. induction indexes as [|metric indexes IH]; intros b; simpl.
  - rewrite orb_false_r. reflexivity.
  - change (with_mIsActive ?x (with_mIsActive b m1)) with (with_mIsActive x m1).
    change (producerAt metric (with_mIsActive b m1)) with (producerAt metric m1).
    rewrite IH, orb_assoc. reflexivity.
Qed.

(** X7: [initializeConfigActiveStatus]: the config is always active when it has
    no metrics or when the number of metrics with activation differs from
    the number of metrics; it starts active when it is always active or when
    one of the metrics with activation is active. Nothing else changes. *)
Theorem initializeConfigActiveStatus_spec (m : MetricsManager) :
  let m' := initializeConfigActiveStatus m in
  let always :=
    length (mMetricIndexesWithActivation m) <> length (mAllMetricProducers m)
    \/ length (mAllMetricProducers m) = 0%nat in
  (mIsAlwaysActive m' = true <-> always)
  /\ (mIsActive m' = true
      <-> always
          \/ exists metric producer,
               metric ∈ mMetricIndexesWithActivation m
               /\ producerAt metric m = Some producer
               /\ isActive E producer = true)
  /\ m' = with_mIsActive (mIsActive m') (with_mIsAlwaysActive (mIsAlwaysActive m') m).
Proof.
  intros m' always. subst m'. unfold initializeConfigActiveStatus.
  set (b := negb (length (mMetricIndexesWithActivation m)
                  =? length (mAllMetricProducers m))%nat
            || (length (mAllMetricProducers m) =? 0)%nat).
  assert (Hb : b = true <-> always).
  { subst b always. rewrite orb_true_iff, negb_true_iff, Nat.eqb_neq, Nat.eqb_eq.
    reflexivity. }
  change (mMetricIndexesWithActivation (with_mIsActive b (with_mIsAlwaysActive b m)))
    with (mMetricIndexesWithActivation m).
  rewrite foldl_active_status. simpl.
  split; [exact Hb|]. split; [|reflexivity].
  rewrite orb_true_iff, Hb, existsb_exists.
  split; (intros [Ha|Hex]; [left; exact Ha|right]).
  - destruct Hex as (metric & Hin & Hact).
    change (producerAt metric (with_mIsAlwaysActive b m)) with (producerAt metric m)
      in Hact.
    destruct (producerAt metric m) as [producer|] eqn:Hp; [|discriminate].
    exists metric, producer. rewrite list_elem_of_In. auto.
  - destruct Hex as (metric & producer & Hin & Hp & Hact).
    exists metric. rewrite <- list_elem_of_In. split; [exact Hin|].
    change (producerAt metric (with_mIsAlwaysActive b m)) with (producerAt metric m).
    rewrite Hp. exact Hact.
Qed.

(** What one step of [loadActiveConfig] may do to the active flag and the
    telemetry. *)
Definition activationNoted (m m' : MetricsManager) : Prop :=
  stats m'
  = stats m ++ (if negb (mIsActive m) && mIsActive m'
                then [noteActiveStatusChanged true] else [])
  /\ (mIsActive m = true -> mIsActive m' = true)
  /\ mMetricIndexesWithActivation m' = mMetricIndexesWithActivation m
  /\ length (mAllMetricProducers m') = length (mAllMetricProducers m)
  /\ mAllowedLogSources m' = mAllowedLogSources m
  /\ mInvalidConfigReason m' = mInvalidConfigReason m.

Lemma activationNoted_refl m : activationNoted m m.
Proof.
  unfold activationNoted. repeat split; [|auto].
  destruct (mIsActive m); simpl; rewrite app_nil_r; reflexivity.
Qed.

Lemma activationNoted_trans m1 m2 m3 :
  activationNoted m1 m2 -> activationNoted m2 m3 -> activationNoted m1 m3.
Proof.
  unfold activationNoted.
  intros (Hs1 & Ha1 & Hi1 & Hl1 & Hsrc1 & Hr1) (Hs2 & Ha2 & Hi2 & Hl2 & Hsrc2 & Hr2).
  repeat split; try congruence; [|auto].
  rewrite Hs2, Hs1, <- app_assoc. f_equal.
  destruct (mIsActive m1) eqn:H1.
  - rewrite (Ha1 eq_refl) in *. reflexivity.
  - destruct (mIsActive m2) eqn:H2.
    + rewrite (Ha2 eq_refl). reflexivity.
    + destruct (mIsActive m3); reflexivity.
Qed.

Lemma loadActiveMetricAt_activationNoted activeMetric t m metricIndex :
  activationNoted m (loadActiveMetricAt activeMetric t m metricIndex).
Proof.
  unfold loadActiveMetricAt.
  destruct (producerAt metricIndex m) as [metric|]; [|apply activationNoted_refl].
  destruct (getMetricId E metric =? activeMetricId E activeMetric);
    [|apply activationNoted_refl].
  unfold activationNoted.
  destruct (mIsActive m) eqn:Hact; simpl; rewrite Hact; simpl.
  - rewrite app_nil_r, length_insert. repeat split.
    intros _. rewrite Hact. reflexivity.
  - destruct (isActive E (loadActiveMetric E activeMetric t metric)); simpl;
      rewrite ?Hact; simpl; rewrite ?app_nil_r, length_insert;
      repeat split; discriminate.
Qed.

Lemma foldl_loadActiveMetricAt_activationNoted activeMetric t indexes m :
  activationNoted m (foldl (loadActiveMetricAt activeMetric t) m indexes).
Proof.
  revert m. induction indexes as [|i indexes IH]; intros m; simpl.
  - apply activationNoted_refl.
  - eapply activationNoted_trans; [|apply IH].
    apply loadActiveMetricAt_activationNoted.
Qed.

Lemma loadActiveMetricAt_keeps_unmatched activeMetric t m metricIndex
    (i : nat) (producer : MetricProducer) :
  getMetricId E producer <> activeMetricId E activeMetric ->
  mAllMetricProducers m !! i = Some producer ->
  mAllMetricProducers (loadActiveMetricAt activeMetric t m metricIndex) !! i
  = Some producer.
Proof.
  intros Hid Hp. unfold loadActiveMetricAt, producerAt.
  destruct (metricIndex <? 0); [exact Hp|].
  destruct (mAllMetricProducers m !! Z.to_nat metricIndex) as [metric|] eqn:Hm;
    [|exact Hp].
  destruct (getMetricId E metric =? activeMetricId E activeMetric) eqn:Heq;
    [|exact Hp].
  apply Z.eqb_eq in Heq.
  assert (Hne : Z.to_nat metricIndex <> i).
  { intros Hsame. rewrite Hsame, Hp in Hm. injection Hm as Hm.
    subst metric. contradiction. }
  match goal with
  | |- mAllMetricProducers ?r !! i = _ =>
      assert (Hr : mAllMetricProducers r
                   = <[Z.to_nat metricIndex :=
                         loadActiveMetric E activeMetric t metric]>
                       (mAllMetricProducers m))
  end.
  { cbv zeta. destruct (negb _ && isActive E _); reflexivity. }
  rewrite Hr, list_lookup_insert_ne by exact Hne. exact Hp.
Qed.

(** X8: [loadActiveConfig] never deactivates a config and reports the change of
    the active status at most once: [noteActiveStatusChanged(true)] is sent
    exactly when the config was inactive before and is active afterwards.
    A producer whose id is named by no active metric is left as it was, and
    the log sources and the validity of the config are not touched. *)
Theorem loadActiveConfig_notes_activation_once
    (config : list ActiveMetric) (currentTimeNs : Z) (m : MetricsManager) :
  let m' := loadActiveConfig config currentTimeNs m in
  stats m'
  = stats m ++ (if negb (mIsActive m) && mIsActive m'
                then [noteActiveStatusChanged true] else [])
  /\ (mIsActive m = true -> mIsActive m' = true)
  /\ length (mAllMetricProducers m') = length (mAllMetricProducers m)
  /\ (forall (i : nat) producer,
        mAllMetricProducers m !! i = Some producer ->
        Forall (fun activeMetric =>
                  getMetricId E producer <> activeMetricId E activeMetric) config ->
        mAllMetricProducers m' !! i = Some producer)
  /\ mAllowedLogSources m' = mAllowedLogSources m
  /\ mInvalidConfigReason m' = mInvalidConfigReason m.
Proof.
  intros m'. subst m'. unfold loadActiveConfig.
  assert (Hnoted : forall config m,
            activationNoted m
              (foldl
                 (fun m1 activeMetric =>
                    foldl (loadActiveMetricAt activeMetric currentTimeNs) m1
                      (mMetricIndexesWithActivation m1))
                 m config)).
  { clear. intros config. induction config as [|a config IH]; intros m; simpl.
    - apply activationNoted_refl.
    - eapply activationNoted_trans; [|apply IH].
      apply foldl_loadActiveMetricAt_activationNoted. }
  assert (Hkept : forall config m (i : nat) producer,
            mAllMetricProducers m !! i = Some producer ->
            Forall (fun activeMetric =>
                      getMetricId E producer <> activeMetricId E activeMetric)
              config ->
            mAllMetricProducers
              (foldl
                 (fun m1 activeMetric =>
                    foldl (loadActiveMetricAt activeMetric currentTimeNs) m1
                      (mMetricIndexesWithActivation m1))
                 m config) !! i = Some producer).
  { clear. intros config. induction config as [|a config IH];
      intros m i producer Hp Hids; simpl; [exact Hp|].
    apply Forall_cons in Hids as [Hid Hids].
    apply IH; [|exact Hids].
    generalize (mMetricIndexesWithActivation m). intros indexes.
    revert m Hp. induction indexes as [|j indexes IHj]; intros m Hp; simpl;
      [exact Hp|].
    apply IHj. apply loadActiveMetricAt_keeps_unmatched; assumption. }
  destruct (length config =? 0)%nat eqn:Hempty.
  - destruct (activationNoted_refl m) as (Hs & Ha & _).
    split; [exact Hs|]. split; [exact Ha|]. repeat split. auto.
  - destruct (Hnoted config m) as (Hs & Ha & _ & Hl & Hsrc & Hr).
    split; [exact Hs|]. split; [exact Ha|]. split; [exact Hl|].
    split; [apply Hkept|]. split; assumption.
Qed.

(** *** Log sources: properties *)

Lemma foldl_union_elem (uidMap : UidMap) (pkgs : list string) (acc : gset Z)
    (uid : Z) :
  uid ∈ foldl (fun sources pkg => sources ∪ uidMap pkg) acc pkgs
  <-> uid ∈ acc \/ exists pkg, pkg ∈ pkgs /\ uid ∈ uidMap pkg.
Proof.
  revert acc. induction pkgs as [|pkg pkgs IH]; intros acc; simpl.
  - split; [auto|]. intros [Hacc|(pkg & Hin & _)]; [exact Hacc|].
    apply elem_of_nil in Hin. contradiction.
  - rewrite IH, elem_of_union. split.
    + intros [[Hacc|Hpkg]|(pkg' & Hin & Huid)].
      * left. exact Hacc.
      * right. exists pkg. split; [apply list_elem_of_here|exact Hpkg].
      * right. exists pkg'. split; [apply list_elem_of_further, Hin|exact Huid].
    + intros [Hacc|(pkg' & Hin & Huid)]; [left; left; exact Hacc|].
      apply elem_of_cons in Hin as [->|Hin].
      * left. right. exact Huid.
      * right. exists pkg'. auto.
Qed.

(** The allowed log sources are exactly what the uid map says they should
    be: the allowed uids and the uids of the allowed packages. *)
Definition allowedLogSourcesCurrent (uidMap : UidMap) (m : MetricsManager) : Prop :=
  forall uid,
    uid ∈ mAllowedLogSources m
    <-> uid ∈ mAllowedUid m
        \/ exists pkg, pkg ∈ mAllowedPkg m /\ uid ∈ uidMap pkg.

Lemma initAllowedLogSources_current (uidMap : UidMap) (m : MetricsManager) :
  allowedLogSourcesCurrent uidMap (initAllowedLogSources uidMap m).
Proof.
  intros uid. unfold initAllowedLogSources. simpl.
  rewrite foldl_union_elem, elem_of_list_to_set. reflexivity.
Qed.

Lemma insertUids_elem (a b : Z) (uids : gset Z) (combined : gmap Z (gset Z))
    (uid : Z) :
  uid ∈ default ∅ (insertUids a uids combined !! b)
  <-> uid ∈ default ∅ (combined !! b) \/ (a = b /\ uid ∈ uids).
Proof.
  unfold insertUids. destruct (decide (a = b)) as [->|Hne].
  - rewrite lookup_insert_eq. simpl. rewrite elem_of_union. tauto.
  - rewrite lookup_insert_ne by exact Hne. tauto.
Qed.

Lemma foldl_insertUids_elem (entries : list (Z * gset Z))
    (combined : gmap Z (gset Z)) (b uid : Z) :
  uid ∈ default ∅
          (foldl (fun combined entry => insertUids (fst entry) (snd entry) combined)
             combined entries !! b)
  <-> uid ∈ default ∅ (combined !! b)
      \/ exists uids, (b, uids) ∈ entries /\ uid ∈ uids.
Proof.
  revert combined. induction entries as [|[a uids] entries IH]; intros combined; simpl.
  - split; [auto|]. intros [H|(uids & Hin & _)]; [exact H|].
    apply elem_of_nil in Hin. contradiction.
  - rewrite IH, insertUids_elem. split.
    + intros [[H|[-> H]]|(uids' & Hin & H)].
      * left. exact H.
      * right. exists uids. split; [apply list_elem_of_here|exact H].
      * right. exists uids'. split; [apply list_elem_of_further, Hin|exact H].
    + intros [H|(uids' & Hin & H)]; [left; left; exact H|].
      apply elem_of_cons in Hin as [Heq|Hin].
      * injection Heq as -> ->. left. right. auto.
      * right. exists uids'. auto.
Qed.

Lemma foldl_insertUids_packages_elem (uidMap : UidMap) (a : Z) (pkgs : list string)
    (combined : gmap Z (gset Z)) (b uid : Z) :
  uid ∈ default ∅
          (foldl (fun combined pkg => insertUids a (uidMap pkg) combined)
             combined pkgs !! b)
  <-> uid ∈ default ∅ (combined !! b)
      \/ (a = b /\ exists pkg, pkg ∈ pkgs /\ uid ∈ uidMap pkg).
Proof.
  revert combined. induction pkgs as [|pkg pkgs IH]; intros combined; simpl.
  - split; [auto|]. intros [H|(_ & pkg & Hin & _)]; [exact H|].
    apply elem_of_nil in Hin. contradiction.
  - rewrite IH, insertUids_elem. split.
    + intros [[H|[-> H]]|(-> & pkg' & Hin & H)].
      * left. exact H.
      * right. split; [reflexivity|]. exists pkg.
        split; [apply list_elem_of_here|exact H].
      * right. split; [reflexivity|]. exists pkg'.
        split; [apply list_elem_of_further, Hin|exact H].
    + intros [H|(-> & pkg' & Hin & H)]; [left; left; exact H|].
      apply elem_of_cons in Hin as [->|Hin].
      * left. right. auto.
      * right. split; [reflexivity|]. exists pkg'. auto.
Qed.

Lemma foldl_insertUids_entries_elem (uidMap : UidMap)
    (entries : list (Z * gset string)) (combined : gmap Z (gset Z)) (b uid : Z) :
  uid ∈ default ∅
          (foldl
             (fun combined (entry : Z * gset string) =>
                foldl (fun combined pkg => insertUids (fst entry) (uidMap pkg) combined)
                  combined (elements (snd entry)))
             combined entries !! b)
  <-> uid ∈ default ∅ (combined !! b)
      \/ exists pkgs pkg, (b, pkgs) ∈ entries /\ pkg ∈ pkgs /\ uid ∈ uidMap pkg.
Proof.
  revert combined. induction entries as [|[a pkgs] entries IH]; intros combined; simpl.
  - split; [auto|]. intros [H|(pkgs & pkg & Hin & _)]; [exact H|].
    apply elem_of_nil in Hin. contradiction.
  - rewrite IH, foldl_insertUids_packages_elem. split.
    + intros [[H|(-> & pkg & Hin & H)]|(pkgs' & pkg & Hin & Hpkg & H)].
      * left. exact H.
      * right. exists pkgs, pkg. apply elem_of_elements in Hin.
        split; [apply list_elem_of_here|auto].
      * right. exists pkgs', pkg. split; [apply list_elem_of_further, Hin|auto].
    + intros [H|(pkgs' & pkg & Hin & Hpkg & H)]; [left; left; exact H|].
      apply elem_of_cons in Hin as [Heq|Hin].
      * injection Heq as -> ->. left. right. split; [reflexivity|].
        exists pkg. rewrite elem_of_elements. auto.
      * right. exists pkgs', pkg. auto.
Qed.

(** The combined pull uids are exactly what the uid map says they should
    be: per atom, the atom's pull uids and the uids of its pull packages. *)
Definition pullAtomSourcesCurrent (uidMap : UidMap) (m : MetricsManager) : Prop :=
  forall atomId uid,
    uid ∈ default ∅ (mCombinedPullAtomUids m !! atomId)
    <-> uid ∈ default ∅ (mPullAtomUids m !! atomId)
        \/ exists pkg,
             pkg ∈ default ∅ (mPullAtomPackages m !! atomId) /\ uid ∈ uidMap pkg.

Lemma default_lookup_elem `{Countable V} (table : gmap Z (gset V)) (a : Z) (x : V) :
  x ∈ default ∅ (table !! a)
  <-> exists xs, (a, xs) ∈ map_to_list table /\ x ∈ xs.
Proof.
  split.
  - destruct (table !! a) as [xs|] eqn:Ha; simpl.
    + intros Hx. exists xs. rewrite elem_of_map_to_list. auto.
    + intros Hx. apply elem_of_empty in Hx. contradiction.
  - intros (xs & Hin & Hx). apply elem_of_map_to_list in Hin.
    rewrite Hin. exact Hx.
Qed.

Lemma initPullAtomSources_current (uidMap : UidMap) (m : MetricsManager) :
  pullAtomSourcesCurrent uidMap (initPullAtomSources uidMap m).
Proof.
  intros atomId uid. unfold initPullAtomSources. simpl.
  rewrite foldl_insertUids_entries_elem, foldl_insertUids_elem, lookup_empty.
  simpl. rewrite elem_of_empty, default_lookup_elem. split.
  - intros [[[]|H]|(pkgs & pkg & Hin & Hpkg & H)]; [left; exact H|].
    right. exists pkg. split; [|exact H].
    apply default_lookup_elem. exists pkgs. auto.
  - intros [H|(pkg & Hpkg & H)]; [left; right; exact H|].
    apply default_lookup_elem in Hpkg as (pkgs & Hin & Hpkg).
    right. exists pkgs, pkg. auto.
Qed.

(** X3: After [initPullAtomSources], [getPullAtomUids] lists for an atom exactly
    the uids configured for it, the uids that the uid map gives for its pull
    packages, and the default pull uids; what the combined map held before
    plays no part. *)
Theorem getPullAtomUids_after_initPullAtomSources
    (uidMap : UidMap) (m : MetricsManager) (atomId uid : Z) :
  uid ∈ getPullAtomUids atomId (initPullAtomSources uidMap m)
  <-> uid ∈ default ∅ (mPullAtomUids m !! atomId)
      \/ (exists pkg,
            pkg ∈ default ∅ (mPullAtomPackages m !! atomId) /\ uid ∈ uidMap pkg)
      \/ uid ∈ mDefaultPullUids m.
Proof.
  assert (Hcurrent := initPullAtomSources_current uidMap m atomId uid).
  unfold getPullAtomUids.
  change (mDefaultPullUids (initPullAtomSources uidMap m)) with (mDefaultPullUids m).
  change (mPullAtomUids (initPullAtomSources uidMap m)) with (mPullAtomUids m)
    in Hcurrent.
  change (mPullAtomPackages (initPullAtomSources uidMap m))
    with (mPullAtomPackages m) in Hcurrent.
  rewrite elem_of_app, (merge_sort_Permutation Z.le (elements (mDefaultPullUids m))),
    elem_of_elements.
  destruct (mCombinedPullAtomUids (initPullAtomSources uidMap m) !! atomId)
    as [uids|]; simpl in Hcurrent.
  - rewrite (merge_sort_Permutation Z.le (elements uids)), elem_of_elements.
    rewrite Hcurrent. tauto.
  - rewrite elem_of_empty in Hcurrent. rewrite elem_of_nil. tauto.
Qed.

(** *** Keeping the sources current when the uid map changes *)

Lemma refreshSourcesFor_current (oldMap newMap : UidMap) (apk : string)
    (m : MetricsManager) :
  (forall pkg, pkg <> apk -> newMap pkg = oldMap pkg) ->
  allowedLogSourcesCurrent oldMap m ->
  pullAtomSourcesCurrent oldMap m ->
  allowedLogSourcesCurrent newMap (refreshSourcesFor newMap apk m)
  /\ pullAtomSourcesCurrent newMap (refreshSourcesFor newMap apk m).
Proof.
  intros Hmaps Hallowed Hpull. unfold refreshSourcesFor.
  set (m1 := if bool_decide (apk ∈ mAllowedPkg m)
             then initAllowedLogSources newMap m else m).
  assert (Hallowed1 : allowedLogSourcesCurrent newMap m1).
  { subst m1. destruct (bool_decide (apk ∈ mAllowedPkg m)) eqn:Hin.
    - apply initAllowedLogSources_current.
    - apply bool_decide_eq_false in Hin. intros uid. rewrite (Hallowed uid).
      split; (intros [H|(pkg & Hpkg & H)]; [left; exact H|]);
        right; exists pkg; (split; [exact Hpkg|]);
        [rewrite Hmaps|rewrite <- Hmaps]; try exact H;
        intros ->; contradiction. }
  assert (Hpull1 : pullAtomSourcesCurrent oldMap m1).
  { subst m1. destruct (bool_decide (apk ∈ mAllowedPkg m)); exact Hpull. }
  destruct (existsb (fun entry : Z * gset string => bool_decide (apk ∈ snd entry))
              (map_to_list (mPullAtomPackages m1))) eqn:Hex.
  - split; [exact Hallowed1|apply initPullAtomSources_current].
  - split; [exact Hallowed1|].
    assert (Hnot : forall atomId pkg,
              pkg ∈ default ∅ (mPullAtomPackages m1 !! atomId) -> pkg <> apk).
    { intros atomId pkg Hpkg ->.
      apply default_lookup_elem in Hpkg as (pkgs & Hin & Hpkg).
      assert (Htrue : existsb
                        (fun entry : Z * gset string => bool_decide (apk ∈ snd entry))
                        (map_to_list (mPullAtomPackages m1)) = true).
      { apply existsb_exists. exists (atomId, pkgs).
        split; [apply list_elem_of_In, Hin|]. apply bool_decide_eq_true_2, Hpkg. }
      congruence. }
    intros atomId uid. rewrite (Hpull1 atomId uid).
    split; (intros [H|(pkg & Hpkg & H)]; [left; exact H|]);
      right; exists pkg; (split; [exact Hpkg|]);
      [rewrite Hmaps|rewrite <- Hmaps]; try exact H; eapply Hnot; exact Hpkg.
Qed.

(** X4: When an app is upgraded or removed the uid map changes for that package
    only. [notifyAppUpgrade] and [notifyAppRemoved] rebuild the allowed log
    sources only if the package is an allowed one, and the combined pull uids
    only if some atom pulls from it; that is enough: sources that agreed
    with the old uid map agree with the new one afterwards. *)
Theorem notifyApp_keeps_sources_current
    (oldMap newMap : UidMap) (eventTimeNs : Z) (apk : string) (uid version : Z)
    (m : MetricsManager) :
  (forall pkg, pkg <> apk -> newMap pkg = oldMap pkg) ->
  allowedLogSourcesCurrent oldMap m ->
  pullAtomSourcesCurrent oldMap m ->
  let upgraded := notifyAppUpgrade newMap eventTimeNs apk uid version m in
  let removed := notifyAppRemoved newMap eventTimeNs apk uid m in
  allowedLogSourcesCurrent newMap upgraded
  /\ pullAtomSourcesCurrent newMap upgraded
  /\ allowedLogSourcesCurrent newMap removed
  /\ pullAtomSourcesCurrent newMap removed
  /\ mAllMetricProducers upgraded
     = producerNotifyAppUpgrade E eventTimeNs <$> mAllMetricProducers m
  /\ mAllMetricProducers removed
     = producerNotifyAppRemoved E eventTimeNs <$> mAllMetricProducers m.
Proof.
  intros Hmaps Hallowed Hpull upgraded removed. subst upgraded removed.
  unfold notifyAppUpgrade, notifyAppRemoved.
  destruct (refreshSourcesFor_current oldMap newMap apk
              (with_mAllMetricProducers
                 (producerNotifyAppUpgrade E eventTimeNs <$> mAllMetricProducers m) m)
              Hmaps Hallowed Hpull) as [Hu1 Hu2].
  destruct (refreshSourcesFor_current oldMap newMap apk
              (with_mAllMetricProducers
                 (producerNotifyAppRemoved E eventTimeNs <$> mAllMetricProducers m) m)
              Hmaps Hallowed Hpull) as [Hr1 Hr2].
  split; [exact Hu1|]. split; [exact Hu2|]. split; [exact Hr1|].
  split; [exact Hr2|].
  unfold refreshSourcesFor. simpl.
  split; destruct (bool_decide (apk ∈ mAllowedPkg m)); simpl;
    destruct (existsb _ _); reflexivity.
Qed.

(** X5: A new uid map snapshot may differ from the old one anywhere.
    [onUidMapReceived] always rebuilds the combined pull uids, and skips the
    allowed log sources only when no package is allowed, in which case they
    do not depend on the uid map: sources that agreed with the old map agree
    with the new one afterwards. *)
Theorem onUidMapReceived_keeps_sources_current
    (oldMap newMap : UidMap) (eventTimeNs : Z) (m : MetricsManager) :
  allowedLogSourcesCurrent oldMap m ->
  let m' := onUidMapReceived newMap eventTimeNs m in
  allowedLogSourcesCurrent newMap m'
  /\ pullAtomSourcesCurrent newMap m'
  /\ (mAllowedPkg m = [] -> mAllowedLogSources m' = mAllowedLogSources m).
Proof.
  intros Hallowed m'. subst m'. unfold onUidMapReceived.
  change (mAllowedPkg (initPullAtomSources newMap m)) with (mAllowedPkg m).
  destruct (mAllowedPkg m) as [|pkg pkgs] eqn:Hpkgs; simpl.
  - split; [|split; [apply initPullAtomSources_current|reflexivity]].
    intros uid. specialize (Hallowed uid). rewrite Hpkgs in Hallowed.
    unfold initPullAtomSources. simpl. rewrite Hpkgs, Hallowed.
    split; (intros [H|(pkg & Hin & _)]; [left; exact H|]);
      apply elem_of_nil in Hin; contradiction.
  - split; [apply initAllowedLogSources_current|].
    split; [|discriminate].
    exact (initPullAtomSources_current newMap m).
Qed.

(** *** Reading the log sources from a config *)

(** The allowed log sources of a config that name an AID, as uids. *)
Definition aidSources (sources : list string) : list Z :=
  omap (fun source => sAidToUidMapping E !! source) sources.

(** The allowed log sources of a config that name no AID: packages. *)
Definition packageSources (sources : list string) : list string :=
  List.filter
    (fun source =>
       match sAidToUidMapping E !! source with Some _ => false | None => true end)
    sources.

Lemma foldl_addAllowedLogSource (sources : list string) (m : MetricsManager) :
  foldl addAllowedLogSource m sources
  = with_mAllowedPkg (mAllowedPkg m ++ packageSources sources)
      (with_mAllowedUid (mAllowedUid m ++ aidSources sources) m).
Proof.
  revert m. induction sources as [|source sources IH]; intros m; simpl.
  - destruct m. unfold with_mAllowedPkg, with_mAllowedUid. simpl.
    rewrite !app_nil_r. reflexivity.
  - rewrite IH. unfold addAllowedLogSource, aidSources, packageSources.
    simpl. destruct (sAidToUidMapping E !! source) as [uid|]; simpl;
      unfold with_mAllowedPkg, with_mAllowedUid; simpl;
      rewrite <- ?app_assoc; reflexivity.
Qed.

Lemma sources_split_length (sources : list string) :
  (length (aidSources sources) + length (packageSources sources)
   = length sources)%nat.
Proof.
  induction sources as [|source sources IH]; [reflexivity|].
  change (aidSources (source :: sources))
    with (match sAidToUidMapping E !! source with
          | Some uid => uid :: aidSources sources
          | None => aidSources sources
          end).
  change (packageSources (source :: sources))
    with (if match sAidToUidMapping E !! source with
             | Some _ => false
             | None => true
             end
          then source :: packageSources sources
          else packageSources sources).
  destruct (sAidToUidMapping E !! source); simpl length; lia.
Qed.

Lemma elem_of_aidSources (sources : list string) (uid : Z) :
  uid ∈ aidSources sources
  <-> exists source, source ∈ sources /\ sAidToUidMapping E !! source = Some uid.
Proof. unfold aidSources. apply list_elem_of_omap. Qed.

Lemma elem_of_packageSources (sources : list string) (pkg : string) :
  pkg ∈ packageSources sources
  <-> pkg ∈ sources /\ sAidToUidMapping E !! pkg = None.
Proof.
  unfold packageSources. rewrite !list_elem_of_In, filter_In.
  destruct (sAidToUidMapping E !! pkg); split; intros [? ?]; split;
    auto; discriminate.
Qed.

(** The number of packages a config names for pulling. *)
Definition pullPackageCount (config : StatsdConfig) : Z :=
  Z.of_nat (length (default_pull_packages config))
  + Z.of_nat (length (mjoin (packages <$> pull_atom_packages config))).

Definition inAidMap (pkg : string) : Prop := is_Some (sAidToUidMapping E !! pkg).

#[local] Instance inAidMap_dec pkg : Decision (inAidMap pkg).
Proof. unfold inAidMap. apply _. Defined.

Lemma foldl_addDefaultPullPackage (pkgs : list string) (n : Z) (m : MetricsManager) :
  exists defaults,
    snd (foldl addDefaultPullPackage (n, m) pkgs)
    = with_mInvalidConfigReason
        (if bool_decide (Forall inAidMap pkgs)
         then mInvalidConfigReason m
         else Some (INVALID_CONFIG_REASON_DEFAULT_PULL_PACKAGES_NOT_IN_MAP E))
        (with_mDefaultPullUids defaults m)
    /\ (0 <= n -> n + Z.of_nat (length pkgs) < 2 ^ 31 -> Forall inAidMap pkgs ->
        fst (foldl addDefaultPullPackage (n, m) pkgs) = n + Z.of_nat (length pkgs)).
Proof.
  revert n m. induction pkgs as [|pkg pkgs IH]; intros n m.
  - exists (mDefaultPullUids m). simpl. split; [|intros; lia].
    destruct m. reflexivity.
  - change (foldl addDefaultPullPackage (n, m) (pkg :: pkgs))
      with (foldl addDefaultPullPackage (addDefaultPullPackage (n, m) pkg) pkgs).
    destruct (sAidToUidMapping E !! pkg) as [uid|] eqn:Hpkg.
    + assert (Hstep : addDefaultPullPackage (n, m) pkg
                      = (int32 (n + 1),
                         with_mDefaultPullUids ({[uid]} ∪ mDefaultPullUids m) m)).
      { unfold addDefaultPullPackage. rewrite Hpkg. reflexivity. }
      rewrite Hstep.
      destruct (IH (int32 (n + 1))
                  (with_mDefaultPullUids ({[uid]} ∪ mDefaultPullUids m) m))
        as (defaults & Hsnd & Hfst).
      exists defaults. split.
      * rewrite Hsnd. simpl.
        assert (Hdec : bool_decide (Forall inAidMap (pkg :: pkgs))
                       = bool_decide (Forall inAidMap pkgs)).
        { apply bool_decide_ext. rewrite Forall_cons. unfold inAidMap at 1.
          rewrite Hpkg. split; [tauto|]. split; [eauto|assumption]. }
        rewrite Hdec. reflexivity.
      * intros Hn Hmax Hall. apply Forall_cons in Hall as [_ Hall].
        simpl length in Hmax.
        assert (Hint : int32 (n + 1) = n + 1) by (apply int32_small; lia).
        rewrite Hfst; [rewrite Hint; simpl length; lia
                      |rewrite Hint; lia|rewrite Hint; lia|exact Hall].
    + assert (Hstep : addDefaultPullPackage (n, m) pkg
                      = (n,
                         with_mInvalidConfigReason
                           (Some (INVALID_CONFIG_REASON_DEFAULT_PULL_PACKAGES_NOT_IN_MAP E))
                           m)).
      { unfold addDefaultPullPackage. rewrite Hpkg. reflexivity. }
      rewrite Hstep.
      destruct (IH n
                  (with_mInvalidConfigReason
                     (Some (INVALID_CONFIG_REASON_DEFAULT_PULL_PACKAGES_NOT_IN_MAP E))
                     m)) as (defaults & Hsnd & _).
      exists defaults. split.
      * rewrite Hsnd. simpl.
        assert (Hdec : bool_decide (Forall inAidMap (pkg :: pkgs)) = false).
        { apply bool_decide_eq_false_2. rewrite Forall_cons. unfold inAidMap at 1.
          rewrite Hpkg. intros [[x Hx] _]. discriminate. }
        rewrite Hdec. destruct (bool_decide (Forall inAidMap pkgs)); reflexivity.
      * intros _ _ Hall. apply Forall_cons in Hall as [[x Hx] _].
        rewrite Hpkg in Hx. discriminate.
Qed.

Lemma foldl_addPullAtomPackage (atomId : Z) (pkgs : list string) (n : Z)
    (m : MetricsManager) :
  exists uids packages,
    snd (foldl (addPullAtomPackage atomId) (n, m) pkgs)
    = with_mPullAtomPackages packages (with_mPullAtomUids uids m)
    /\ (0 <= n -> n + Z.of_nat (length pkgs) < 2 ^ 31 ->
        fst (foldl (addPullAtomPackage atomId) (n, m) pkgs)
        = n + Z.of_nat (length pkgs)).
Proof.
  revert n m. induction pkgs as [|pkg pkgs IH]; intros n m.
  - exists (mPullAtomUids m), (mPullAtomPackages m). simpl.
    split; [|intros; lia]. destruct m. reflexivity.
  - change (foldl (addPullAtomPackage atomId) (n, m) (pkg :: pkgs))
      with (foldl (addPullAtomPackage atomId)
              (int32 (n + 1), snd (addPullAtomPackage atomId (n, m) pkg)) pkgs).
    destruct (IH (int32 (n + 1)) (snd (addPullAtomPackage atomId (n, m) pkg)))
      as (uids & packages & Hsnd & Hfst).
    exists uids, packages. split.
    + rewrite Hsnd. unfold addPullAtomPackage. simpl.
      destruct (sAidToUidMapping E !! pkg); reflexivity.
    + intros Hn Hmax. simpl length in Hmax.
      assert (Hint : int32 (n + 1) = n + 1) by (apply int32_small; lia).
      rewrite Hfst; [rewrite Hint; simpl length; lia
                    |rewrite Hint; lia|rewrite Hint; lia].
Qed.

Lemma foldl_pull_atom_packages (entries : list PullAtomPackages) (n : Z)
    (m : MetricsManager) :
  exists uids packages,
    snd (foldl
           (fun acc pullAtomPackages =>
              foldl (addPullAtomPackage (int32 (atom_id pullAtomPackages))) acc
                (MetricsManagerState.packages pullAtomPackages))
           (n, m) entries)
    = with_mPullAtomPackages packages (with_mPullAtomUids uids m)
    /\ (0 <= n ->
        n + Z.of_nat (length (mjoin (MetricsManagerState.packages <$> entries)))
        < 2 ^ 31 ->
        fst (foldl
               (fun acc pullAtomPackages =>
                  foldl (addPullAtomPackage (int32 (atom_id pullAtomPackages))) acc
                    (MetricsManagerState.packages pullAtomPackages))
               (n, m) entries)
        = n + Z.of_nat (length (mjoin (MetricsManagerState.packages <$> entries)))).
Proof.
  revert n m. induction entries as [|entry entries IH]; intros n m.
  - exists (mPullAtomUids m), (mPullAtomPackages m). simpl.
    split; [|intros; lia]. destruct m. reflexivity.
  - cbn [foldl]. rewrite fmap_cons.
    change (mjoin (MetricsManagerState.packages entry
                   :: (MetricsManagerState.packages <$> entries)))
      with (MetricsManagerState.packages entry
            ++ mjoin (MetricsManagerState.packages <$> entries)).
    destruct (foldl_addPullAtomPackage (int32 (atom_id entry))
                (MetricsManagerState.packages entry) n m)
      as (uids1 & packages1 & Hsnd1 & Hfst1).
    destruct (foldl (addPullAtomPackage (int32 (atom_id entry))) (n, m)
                (MetricsManagerState.packages entry)) as [n1 m1] eqn:Hinner.
    cbn [fst snd] in Hsnd1, Hfst1.
    destruct (IH n1 m1) as (uids & packages & Hsnd & Hfst).
    exists uids, packages. split.
    + rewrite Hsnd, Hsnd1. reflexivity.
    + intros Hn Hmax. rewrite length_app, Nat2Z.inj_add in Hmax.
      assert (H1 : n1 = n + Z.of_nat (length (MetricsManagerState.packages entry)))
        by (apply Hfst1; lia).
      rewrite Hfst by lia. rewrite length_app, Nat2Z.inj_add. lia.
Qed.

(** The manager after the first loop of [createAllLogSourcesFromConfig] and
    the check of the number of log sources. *)
Definition withLogSources (uidMap : UidMap) (config : StatsdConfig)
    (m : MetricsManager) : MetricsManager :=
  let m1 :=
    with_mAllowedPkg (mAllowedPkg m ++ packageSources (allowed_log_source config))
      (with_mAllowedUid (mAllowedUid m ++ aidSources (allowed_log_source config)) m) in
  if Z.of_nat (length (mAllowedUid m1) + length (mAllowedPkg m1))
     >? kMaxLogSourceCount E
  then with_mInvalidConfigReason
         (Some (INVALID_CONFIG_REASON_TOO_MANY_LOG_SOURCES E)) m1
  else initAllowedLogSources uidMap m1.

Lemma createAllLogSourcesFromConfig_anatomy (uidMap : UidMap) (config : StatsdConfig)
    (m : MetricsManager) :
  exists reason defaults uids packages combined,
    createAllLogSourcesFromConfig uidMap config m
    = with_mCombinedPullAtomUids combined
        (with_mInvalidConfigReason reason
           (with_mPullAtomPackages packages
              (with_mPullAtomUids uids
                 (with_mDefaultPullUids defaults (withLogSources uidMap config m)))))
    /\ (reason = None ->
        mInvalidConfigReason (withLogSources uidMap config m) = None)
    /\ (pullPackageCount config < 2 ^ 31 ->
        (reason = None
         <-> mInvalidConfigReason (withLogSources uidMap config m) = None
             /\ Forall inAidMap (default_pull_packages config)
             /\ pullPackageCount config <= kMaxPullAtomPackages E)).
Proof.
  unfold createAllLogSourcesFromConfig. cbv zeta.
  rewrite foldl_addAllowedLogSource. fold (withLogSources uidMap config m).
  set (m2 := withLogSources uidMap config m).
  destruct (foldl_addDefaultPullPackage (default_pull_packages config) 0 m2)
    as (defaults & Hd & Hdn).
  set (dflt := foldl addDefaultPullPackage (0, m2) (default_pull_packages config))
    in *.
  destruct (foldl_pull_atom_packages (pull_atom_packages config) (fst dflt) (snd dflt))
    as (uids & pkgs & Hp & Hpn).
  rewrite <- surjective_pairing in Hp, Hpn.
  set (per := foldl _ dflt (pull_atom_packages config)) in *.
  set (r3 := if bool_decide (Forall inAidMap (default_pull_packages config))
             then mInvalidConfigReason m2
             else Some (INVALID_CONFIG_REASON_DEFAULT_PULL_PACKAGES_NOT_IN_MAP E))
    in *.
  assert (Hcount : pullPackageCount config < 2 ^ 31 ->
            Forall inAidMap (default_pull_packages config) ->
            fst per = pullPackageCount config).
  { intros Hmax Hall. unfold pullPackageCount in *.
    assert (Hdn' : fst dflt = Z.of_nat (length (default_pull_packages config))).
    { rewrite Hdn; [lia|lia| |exact Hall].
      assert (0 <= Z.of_nat
                     (length (mjoin (packages <$> pull_atom_packages config))))
        by lia.
      lia. }
    rewrite Hpn; rewrite Hdn'; lia. }
  assert (Hr3 : r3 = None
                <-> mInvalidConfigReason m2 = None
                    /\ Forall inAidMap (default_pull_packages config)).
  { subst r3. destruct (bool_decide (Forall inAidMap (default_pull_packages config)))
      eqn:Hall.
    - apply bool_decide_eq_true in Hall. tauto.
    - apply bool_decide_eq_false in Hall. split; [discriminate|tauto]. }
  destruct (fst per >? kMaxPullAtomPackages E) eqn:Hgt.
  - exists (Some (INVALID_CONFIG_REASON_TOO_MANY_SOURCES_IN_PULL_PACKAGES E)),
      defaults, uids, pkgs, (mCombinedPullAtomUids m2).
    split; [rewrite Hp, Hd; reflexivity|]. split; [discriminate|].
    intros Hmax. split; [discriminate|]. intros (_ & Hall & Hle).
    apply Z.gtb_lt in Hgt. rewrite (Hcount Hmax Hall) in Hgt. lia.
  - exists r3, defaults, uids, pkgs,
      (mCombinedPullAtomUids (initPullAtomSources uidMap (snd per))).
    split; [rewrite Hp, Hd; reflexivity|]. split; [apply Hr3|].
    intros Hmax. rewrite Hr3. rewrite Z.gtb_ltb in Hgt. apply Z.ltb_ge in Hgt.
    split.
    + intros (Hvalid & Hall). rewrite (Hcount Hmax Hall) in Hgt. auto.
    + tauto.
Qed.

Lemma createAllLogSourcesFromConfig_validity
    (uidMap : UidMap) (config : StatsdConfig) (m : MetricsManager) :
  pullPackageCount config < 2 ^ 31 ->
  isConfigValid (createAllLogSourcesFromConfig uidMap config m) = true
  <-> isConfigValid m = true
      /\ Z.of_nat (length (mAllowedUid m) + length (mAllowedPkg m)
                   + length (allowed_log_source config))
         <= kMaxLogSourceCount E
      /\ Forall inAidMap (default_pull_packages config)
      /\ pullPackageCount config <= kMaxPullAtomPackages E.
Proof.
  intros Hmax.
  destruct (createAllLogSourcesFromConfig_anatomy uidMap config m)
    as (reason & defaults & uids & pkgs & combined & Heq & _ & Hreason).
  specialize (Hreason Hmax). rewrite Heq. unfold isConfigValid. simpl.
  assert (Hsources :
            mInvalidConfigReason (withLogSources uidMap config m) = None
            <-> mInvalidConfigReason m = None
                /\ Z.of_nat (length (mAllowedUid m) + length (mAllowedPkg m)
                             + length (allowed_log_source config))
                   <= kMaxLogSourceCount E).
  { unfold withLogSources. cbv zeta. simpl.
    rewrite !length_app.
    assert (Hlen := sources_split_length (allowed_log_source config)).
    set (total := Z.of_nat (length (mAllowedUid m)
                            + length (aidSources (allowed_log_source config))
                            + (length (mAllowedPkg m)
                               + length (packageSources (allowed_log_source config))))).
    assert (Htotal : total
                     = Z.of_nat (length (mAllowedUid m) + length (mAllowedPkg m)
                                 + length (allowed_log_source config)))
      by (subst total; lia).
    rewrite <- Htotal.
    destruct (total >? kMaxLogSourceCount E) eqn:Hgt; simpl.
    - apply Z.gtb_lt in Hgt. split; [discriminate|lia].
    - rewrite Z.gtb_ltb in Hgt. apply Z.ltb_ge in Hgt. tauto. }
  assert (Hnone : forall o : option InvalidConfigReason,
            match o with None => true | Some _ => false end = true <-> o = None).
  { intros [r|]; split; congruence. }
  rewrite !Hnone, Hreason, Hsources. tauto.
Qed.

(** X1: [createAllLogSourcesFromConfig] leaves a config valid exactly when it
    was valid, the allowed log sources (those the manager held and those of
    the config) number at most [kMaxLogSourceCount], every default pull
    package is named in [sAidToUidMapping], and the pull packages number at
    most [kMaxPullAtomPackages]. *)
Theorem createAllLogSourcesFromConfig_valid_iff
    (uidMap : UidMap) (config : StatsdConfig) (m : MetricsManager) :
  pullPackageCount config < 2 ^ 31 ->
  isConfigValid (createAllLogSourcesFromConfig uidMap config m) = true
  <-> isConfigValid m = true
      /\ Z.of_nat (length (mAllowedUid m) + length (mAllowedPkg m)
                   + length (allowed_log_source config))
         <= kMaxLogSourceCount E
      /\ Forall inAidMap (default_pull_packages config)
      /\ pullPackageCount config <= kMaxPullAtomPackages E.
Proof.
  apply createAllLogSourcesFromConfig_validity.
Qed.

Lemma checkLogCredentials_iff (AID_ROOT AID_SYSTEM AID_SHELL : Z)
    (mm : MetricsManager.MetricsManager) (event : MetricsManager.LogEvent) :
  MetricsManager.checkLogCredentials AID_ROOT AID_SYSTEM AID_SHELL mm event = true
  <-> MetricsManager.GetTagId event ∈ MetricsManager.mWhitelistedAtomIds mm
      \/ MetricsManager.isSystemUid AID_ROOT AID_SYSTEM AID_SHELL
           (MetricsManager.GetUid event)
      \/ MetricsManager.GetUid event ∈ MetricsManager.mAllowedLogSources mm.
Proof.
  unfold MetricsManager.checkLogCredentials.
  destruct (decide (MetricsManager.GetTagId event
                    ∈ MetricsManager.mWhitelistedAtomIds mm)) as [Hw|Hw];
    [tauto|].
  destruct ((MetricsManager.GetUid event =? AID_ROOT)
            || ((MetricsManager.GetUid event >=? AID_SYSTEM)
                && (MetricsManager.GetUid event <? AID_SHELL))) eqn:Htest.
  { apply MetricsManager.isSystemUid_test in Htest. tauto. }
  assert (Hsys : ~ MetricsManager.isSystemUid AID_ROOT AID_SYSTEM AID_SHELL
                     (MetricsManager.GetUid event)).
  { intros Hs. apply MetricsManager.isSystemUid_test in Hs. congruence. }
  destruct (decide (MetricsManager.GetUid event
                    ∉ MetricsManager.mAllowedLogSources mm)) as [Hout|Hin].
  - split; [discriminate|tauto].
  - split; [intros _|reflexivity].
    destruct (decide (MetricsManager.GetUid event
                      ∈ MetricsManager.mAllowedLogSources mm)); tauto.
Qed.

(** The uids that the allowed log sources of a config stand for: the uid of
    a source that names an AID, and the uids that the uid map gives for any
    other source, read as a package name. *)
Definition allowedBySource (uidMap : UidMap) (config : StatsdConfig) (uid : Z) : Prop :=
  exists source,
    source ∈ allowed_log_source config
    /\ (sAidToUidMapping E !! source = Some uid
        \/ (sAidToUidMapping E !! source = None /\ uid ∈ uidMap source)).

Lemma withLogSources_too_many (uidMap : UidMap) (config : StatsdConfig)
    (m : MetricsManager) :
  kMaxLogSourceCount E
  < Z.of_nat (length (mAllowedUid m) + length (mAllowedPkg m)
              + length (allowed_log_source config)) ->
  withLogSources uidMap config m
  = with_mInvalidConfigReason
      (Some (INVALID_CONFIG_REASON_TOO_MANY_LOG_SOURCES E))
      (with_mAllowedPkg
         (mAllowedPkg m ++ packageSources (allowed_log_source config))
         (with_mAllowedUid
            (mAllowedUid m ++ aidSources (allowed_log_source config)) m)).
Proof.
  intros Hgt. unfold withLogSources. cbv zeta. simpl.
  assert (Hlen := sources_split_length (allowed_log_source config)).
  destruct (_ >? _) eqn:Htest; [reflexivity|].
  rewrite Z.gtb_ltb in Htest. apply Z.ltb_ge in Htest.
  rewrite !length_app in Htest. lia.
Qed.

Lemma withLogSources_within (uidMap : UidMap) (config : StatsdConfig)
    (m : MetricsManager) :
  Z.of_nat (length (mAllowedUid m) + length (mAllowedPkg m)
            + length (allowed_log_source config))
  <= kMaxLogSourceCount E ->
  withLogSources uidMap config m
  = initAllowedLogSources uidMap
      (with_mAllowedPkg
         (mAllowedPkg m ++ packageSources (allowed_log_source config))
         (with_mAllowedUid
            (mAllowedUid m ++ aidSources (allowed_log_source config)) m)).
Proof.
  intros Hle. unfold withLogSources. cbv zeta. simpl.
  assert (Hlen := sources_split_length (allowed_log_source config)).
  destruct (_ >? _) eqn:Htest; [|reflexivity].
  apply Z.gtb_lt in Htest. rewrite !length_app in Htest. lia.
Qed.

Lemma createAllLogSourcesFromConfig_allows
    (uidMap : UidMap) (config : StatsdConfig) (m : MetricsManager) (uid : Z) :
  Z.of_nat (length (mAllowedUid m) + length (mAllowedPkg m)
            + length (allowed_log_source config))
  <= kMaxLogSourceCount E ->
  uid ∈ mAllowedLogSources (createAllLogSourcesFromConfig uidMap config m)
  <-> uid ∈ mAllowedUid m
      \/ (exists pkg, pkg ∈ mAllowedPkg m /\ uid ∈ uidMap pkg)
      \/ allowedBySource uidMap config uid.
Proof.
  intros Hle.
  destruct (createAllLogSourcesFromConfig_anatomy uidMap config m)
    as (reason & defaults & uids & pkgs & combined & Heq & _).
  rewrite Heq. simpl. rewrite (withLogSources_within uidMap config m Hle).
  rewrite (initAllowedLogSources_current uidMap _ uid). simpl.
  rewrite elem_of_app, elem_of_aidSources. unfold allowedBySource. split.
  - intros [[H|(source & Hin & H)]|(pkg & Hpkg & H)].
    + left. exact H.
    + right. right. exists source. auto.
    + apply elem_of_app in Hpkg as [Hpkg|Hpkg].
      * right. left. exists pkg. auto.
      * apply elem_of_packageSources in Hpkg as [Hin Hnone].
        right. right. exists pkg. auto.
  - intros [H|[(pkg & Hpkg & H)|(source & Hin & [H|[Hnone H]])]].
    + left. left. exact H.
    + right. exists pkg. rewrite elem_of_app. auto.
    + left. right. exists source. auto.
    + right. exists source. rewrite elem_of_app, elem_of_packageSources. auto.
Qed.

(** The members that [createAllLogSourcesFromConfig] does not touch. *)
Lemma createAllLogSourcesFromConfig_frame
    (uidMap : UidMap) (config : StatsdConfig) (m : MetricsManager) :
  let m' := createAllLogSourcesFromConfig uidMap config m in
  mAllMetricProducers m' = mAllMetricProducers m
  /\ mAllConditionTrackers m' = mAllConditionTrackers m
  /\ mAllAtomMatchingTrackers m' = mAllAtomMatchingTrackers m
  /\ mAllAnomalyTrackers m' = mAllAnomalyTrackers m
  /\ mMetricIndexesWithActivation m' = mMetricIndexesWithActivation m
  /\ mWhitelistedAtomIds m' = mWhitelistedAtomIds m
  /\ mTtlNs m' = mTtlNs m
  /\ mTtlEndNs m' = mTtlEndNs m
  /\ mRestrictedMetricsDelegatePackageName m'
     = mRestrictedMetricsDelegatePackageName m
  /\ mAnnotations m' = mAnnotations m
  /\ stats m' = stats m.
Proof.
  intros m'. subst m'.
  destruct (createAllLogSourcesFromConfig_anatomy uidMap config m)
    as (reason & defaults & uids & pkgs & combined & Heq & _).
  rewrite Heq. simpl. unfold withLogSources. cbv zeta.
  destruct (_ >? _); repeat split.
Qed.

(** X2: When the log sources of the manager and of the config number at most
    [kMaxLogSourceCount], [createAllLogSourcesFromConfig] allows exactly the
    uids the manager already listed, the uids of the packages it already
    listed, the uids of the sources that name an AID, and the uids that the
    uid map gives for every other source, read as a package name;
    [checkLogCredentials] then accepts an event exactly when its tag is
    whitelisted, its uid is a system uid, or its uid is one of these. With
    more log sources the allowed set is left as it was and the config is
    invalid. The whitelisted atom ids are never changed. *)
Theorem createAllLogSourcesFromConfig_allowed_sources
    (AID_ROOT AID_SYSTEM AID_SHELL : Z)
    (uidMap : UidMap) (config : StatsdConfig) (m : MetricsManager)
    (event : MetricsManager.LogEvent) :
  let m' := createAllLogSourcesFromConfig uidMap config m in
  let total :=
    Z.of_nat (length (mAllowedUid m) + length (mAllowedPkg m)
              + length (allowed_log_source config)) in
  let allowed uid :=
    uid ∈ mAllowedUid m
    \/ (exists pkg, pkg ∈ mAllowedPkg m /\ uid ∈ uidMap pkg)
    \/ (exists source,
          source ∈ allowed_log_source config
          /\ (sAidToUidMapping E !! source = Some uid
              \/ (sAidToUidMapping E !! source = None /\ uid ∈ uidMap source))) in
  (total <= kMaxLogSourceCount E ->
   (forall uid, uid ∈ mAllowedLogSources m' <-> allowed uid)
   /\ (MetricsManager.checkLogCredentials AID_ROOT AID_SYSTEM AID_SHELL
         (credentials m') event = true
       <-> MetricsManager.GetTagId event ∈ mWhitelistedAtomIds m
           \/ MetricsManager.isSystemUid AID_ROOT AID_SYSTEM AID_SHELL
                (MetricsManager.GetUid event)
           \/ allowed (MetricsManager.GetUid event)))
  /\ (kMaxLogSourceCount E < total ->
      mAllowedLogSources m' = mAllowedLogSources m
      /\ isConfigValid m' = false)
  /\ mWhitelistedAtomIds m' = mWhitelistedAtomIds m.
Proof.
  intros m' total allowed.
  assert (Hw : mWhitelistedAtomIds m' = mWhitelistedAtomIds m).
  { apply (createAllLogSourcesFromConfig_frame uidMap config m). }
  split; [|split; [|exact Hw]].
  - intros Hle.
    assert (Hallows : forall uid, uid ∈ mAllowedLogSources m' <-> allowed uid).
    { intros uid. apply (createAllLogSourcesFromConfig_allows uidMap config m uid Hle). }
    split; [exact Hallows|].
    rewrite checkLogCredentials_iff. simpl. rewrite Hw, Hallows. reflexivity.
  - intros Hgt. subst m'.
    destruct (createAllLogSourcesFromConfig_anatomy uidMap config m)
      as (reason & defaults & uids & pkgs & combined & Heq & Hreason & _).
    rewrite Heq. simpl.
    rewrite (withLogSources_too_many uidMap config m Hgt) in *. simpl.
    split; [reflexivity|].
    unfold isConfigValid. simpl.
    destruct reason as [r|]; [reflexivity|].
    specialize (Hreason eq_refl). discriminate.
Qed.

(** *** Memory limits: properties *)

Lemma size_t_of_int_small (z : Z) : 0 <= z < 2 ^ 31 -> size_t_of_int (int32 z) = z.
Proof.
  intros Hz. rewrite int32_small by lia. unfold size_t_of_int, uwrap.
  apply Z.mod_small. split; [lia|].
  apply Z.lt_trans with (2 ^ 31); [lia|reflexivity].
Qed.

(** X10: The byte limits of a config, when the products [kb * 1024] do not
    overflow [int]: a limit given in the config is used, in bytes, exactly
    when it is positive and at most the hard maximum; a missing, zero,
    negative or too large limit gives the default. *)
Theorem memory_limits_from_config (config : StatsdConfig) (m : MetricsManager) :
  (forall kb, max_metrics_memory_kb config = Some kb -> kb * 1024 < 2 ^ 31) ->
  (forall kb, soft_metrics_memory_kb config = Some kb -> kb * 1024 < 2 ^ 31) ->
  let m' :=
    setTriggerGetDataBytesFromConfig config
      (setMaxMetricsBytesFromConfig config m) in
  mMaxMetricsBytes m'
  = match max_metrics_memory_kb config with
    | Some kb =>
        if (0 <? kb) && (kb * 1024 <=? kHardMaxMetricsBytesPerConfig E)
        then kb * 1024
        else kDefaultMaxMetricsBytesPerConfig E
    | None => kDefaultMaxMetricsBytesPerConfig E
    end
  /\ mTriggerGetDataBytes m'
     = match soft_metrics_memory_kb config with
       | Some kb =>
           if (0 <? kb) && (kb * 1024 <=? kHardMaxTriggerGetDataBytes E)
           then kb * 1024
           else kDefaultBytesPerConfigTriggerGetData E
       | None => kDefaultBytesPerConfigTriggerGetData E
       end
  /\ (mMaxMetricsBytes m' = kDefaultMaxMetricsBytesPerConfig E
      \/ 0 < mMaxMetricsBytes m' <= kHardMaxMetricsBytesPerConfig E)
  /\ (mTriggerGetDataBytes m' = kDefaultBytesPerConfigTriggerGetData E
      \/ 0 < mTriggerGetDataBytes m' <= kHardMaxTriggerGetDataBytes E).
Proof.
  intros Hmax Hsoft m'.
  assert (Hlimit : forall (given : option Z) (hard fallback : Z),
            (forall kb, given = Some kb -> kb * 1024 < 2 ^ 31) ->
            let limit :=
              match given with
              | Some kb =>
                  if (kb <=? 0) || (size_t_of_int (int32 (kb * 1024)) >? hard)
                  then fallback
                  else size_t_of_int (int32 (kb * 1024))
              | None => fallback
              end in
            limit
            = match given with
              | Some kb =>
                  if (0 <? kb) && (kb * 1024 <=? hard) then kb * 1024 else fallback
              | None => fallback
              end
            /\ (limit = fallback \/ 0 < limit <= hard)).
  { intros [kb|] hard fallback Hsmall; cbv zeta; [|split; [reflexivity|left; reflexivity]].
    specialize (Hsmall kb eq_refl).
    destruct (kb <=? 0) eqn:Hkb; simpl.
    - apply Z.leb_le in Hkb.
      destruct (0 <? kb) eqn:Hpos; [apply Z.ltb_lt in Hpos; lia|].
      split; [reflexivity|left; reflexivity].
    - apply Z.leb_gt in Hkb.
      rewrite (size_t_of_int_small (kb * 1024)) by lia.
      destruct (0 <? kb) eqn:Hpos; [|apply Z.ltb_ge in Hpos; lia]. simpl.
      rewrite Z.gtb_ltb.
      destruct (hard <? kb * 1024) eqn:Hhard.
      + apply Z.ltb_lt in Hhard.
        destruct (kb * 1024 <=? hard) eqn:Hle; [apply Z.leb_le in Hle; lia|].
        split; [reflexivity|left; reflexivity].
      + apply Z.ltb_ge in Hhard.
        destruct (kb * 1024 <=? hard) eqn:Hle; [|apply Z.leb_gt in Hle; lia].
        split; [reflexivity|right; lia]. }
  assert (H1 : mMaxMetricsBytes m'
               = match max_metrics_memory_kb config with
                 | Some kb =>
                     if (kb <=? 0)
                        || (size_t_of_int (int32 (kb * 1024))
                            >? kHardMaxMetricsBytesPerConfig E)
                     then kDefaultMaxMetricsBytesPerConfig E
                     else size_t_of_int (int32 (kb * 1024))
                 | None => kDefaultMaxMetricsBytesPerConfig E
                 end).
  { subst m'. unfold setTriggerGetDataBytesFromConfig, setMaxMetricsBytesFromConfig.
    destruct (soft_metrics_memory_kb config) as [soft|];
      [destruct (_ || _)|];
      (destruct (max_metrics_memory_kb config) as [kb|];
       [destruct (_ || _)|]); reflexivity. }
  assert (H2 : mTriggerGetDataBytes m'
               = match soft_metrics_memory_kb config with
                 | Some kb =>
                     if (kb <=? 0)
                        || (size_t_of_int (int32 (kb * 1024))
                            >? kHardMaxTriggerGetDataBytes E)
                     then kDefaultBytesPerConfigTriggerGetData E
                     else size_t_of_int (int32 (kb * 1024))
                 | None => kDefaultBytesPerConfigTriggerGetData E
                 end).
  { subst m'. unfold setTriggerGetDataBytesFromConfig.
    destruct (soft_metrics_memory_kb config) as [soft|];
      [destruct (_ || _)|]; reflexivity. }
  destruct (Hlimit (max_metrics_memory_kb config) (kHardMaxMetricsBytesPerConfig E)
              (kDefaultMaxMetricsBytesPerConfig E) Hmax) as [Ha Hb].
  destruct (Hlimit (soft_metrics_memory_kb config) (kHardMaxTriggerGetDataBytes E)
              (kDefaultBytesPerConfigTriggerGetData E) Hsoft) as [Hc Hd].
  rewrite H1, H2. repeat split; assumption.
Qed.

(** *** Metadata: properties *)

(** The message a writer leaves behind, when it wrote one. *)
Definition writtenMessage {A B : Type} (out : bool * A * B) : option A :=
  if fst (fst out) then Some (snd (fst out)) else None.

Lemma foldl_writeAlert (wall elapsed : Z) (trackers : list AnomalyTracker)
    (written : bool) (alerts : list AlertMetadata) (done : list AnomalyTracker) :
  let outs :=
    (fun tracker =>
       writeAlertMetadataToProto E wall elapsed tracker (newAlertMetadata E))
      <$> trackers in
  foldl (writeAlert wall elapsed) (written, alerts, done) trackers
  = (written || existsb (fun out => fst (fst out)) outs,
     alerts ++ omap writtenMessage outs,
     done ++ (snd <$> outs)).
Proof.
  revert written alerts done.
  induction trackers as [|tracker trackers IH]; intros written alerts done; cbn [foldl].
  - simpl. rewrite orb_false_r, !app_nil_r. reflexivity.
  - unfold writeAlert at 2. rewrite removelast_last.
    rewrite fmap_cons. cbn [existsb].
    change (omap writtenMessage (?x :: ?l))
      with (match writtenMessage x with
            | Some y => y :: omap writtenMessage l
            | None => omap writtenMessage l
            end).
    unfold writtenMessage at 1.
    destruct (writeAlertMetadataToProto E wall elapsed tracker (newAlertMetadata E))
      as [[alertWritten alertMetadata] tracker'].
    cbv zeta in IH. rewrite IH. cbn [fst snd].
    rewrite removelast_last, orb_assoc.
    destruct alertWritten; rewrite <- ?app_assoc; reflexivity.
Qed.

Lemma foldl_writeMetric (producers : list MetricProducer)
    (written : bool) (metrics : list MetricMetadata) (done : list MetricProducer) :
  let outs :=
    (fun producer => writeMetricMetadataToProto E producer (newMetricMetadata E))
      <$> producers in
  foldl writeMetric (written, metrics, done) producers
  = (written || existsb (fun out => fst (fst out)) outs,
     metrics ++ omap writtenMessage outs,
     done ++ (snd <$> outs)).
Proof.
  revert written metrics done.
  induction producers as [|producer producers IH]; intros written metrics done;
    cbn [foldl].
  - simpl. rewrite orb_false_r, !app_nil_r. reflexivity.
  - unfold writeMetric at 2. rewrite removelast_last.
    rewrite fmap_cons. cbn [existsb].
    change (omap writtenMessage (?x :: ?l))
      with (match writtenMessage x with
            | Some y => y :: omap writtenMessage l
            | None => omap writtenMessage l
            end).
    unfold writtenMessage at 1.
    destruct (writeMetricMetadataToProto E producer (newMetricMetadata E))
      as [[metricWritten metricMetadata] producer'].
    cbv zeta in IH. rewrite IH. cbn [fst snd].
    rewrite removelast_last, orb_assoc.
    destruct metricWritten; rewrite <- ?app_assoc; reflexivity.
Qed.

Lemma written_iff_message {A B : Type} (outs : list (bool * A * B)) :
  existsb (fun out => fst (fst out)) outs = true
  <-> (0 < length (omap writtenMessage outs))%nat.
Proof.
  induction outs as [|[[w a] b] outs IH]; cbn [existsb].
  - simpl. split; [discriminate|lia].
  - destruct w.
    + change (omap writtenMessage ((true, a, b) :: outs))
        with (a :: omap writtenMessage outs).
      simpl. split; [lia|reflexivity].
    + change (omap writtenMessage ((false, a, b) :: outs))
        with (omap writtenMessage outs).
      exact IH.
Qed.

(** X20: [writeMetadataToProto] leaves in the metadata, after what it held,
    exactly the messages of the alerts and metrics that wrote one, in tracker
    and producer order: a message appended for a writer that wrote nothing
    is removed again. It answers true exactly when the metadata gained a
    message, and it always sets the config key. *)
Theorem writeMetadataToProto_keeps_written_messages
    (currentWallClockTimeNs systemElapsedTimeNs : Z)
    (statsMetadata : StatsMetadata) (m : MetricsManager) :
  let result :=
    writeMetadataToProto currentWallClockTimeNs systemElapsedTimeNs statsMetadata m in
  let statsMetadata' := snd (fst result) in
  let alertOuts :=
    (fun tracker =>
       writeAlertMetadataToProto E currentWallClockTimeNs systemElapsedTimeNs
         tracker (newAlertMetadata E)) <$> mAllAnomalyTrackers m in
  let metricOuts :=
    (fun producer => writeMetricMetadataToProto E producer (newMetricMetadata E))
      <$> mAllMetricProducers m in
  alert_metadata statsMetadata'
  = alert_metadata statsMetadata ++ omap writtenMessage alertOuts
  /\ metric_metadata statsMetadata'
     = metric_metadata statsMetadata ++ omap writtenMessage metricOuts
  /\ config_key statsMetadata' = (configKeyId E, configKeyUid E)
  /\ (fst (fst result) = true
      <-> (length (alert_metadata statsMetadata)
           + length (metric_metadata statsMetadata)
           < length (alert_metadata statsMetadata')
             + length (metric_metadata statsMetadata'))%nat)
  /\ (fst (fst result) = false -> 
      alert_metadata statsMetadata' = alert_metadata statsMetadata
      /\ metric_metadata statsMetadata' = metric_metadata statsMetadata).
Proof.
  intros result statsMetadata' alertOuts metricOuts.
  subst statsMetadata' result. unfold writeMetadataToProto.
  assert (Ha := foldl_writeAlert currentWallClockTimeNs systemElapsedTimeNs
                  (mAllAnomalyTrackers m) false (alert_metadata statsMetadata) []).
  cbv zeta in Ha. fold alertOuts in Ha. rewrite Ha.
  assert (Hm := foldl_writeMetric (mAllMetricProducers m)
                  (false || existsb (fun out => fst (fst out)) alertOuts)
                  (metric_metadata statsMetadata) []).
  cbv zeta in Hm. fold metricOuts in Hm. rewrite Hm. cbn [fst snd].
  cbn [alert_metadata metric_metadata config_key].
  assert (Hwa := written_iff_message alertOuts).
  assert (Hwm := written_iff_message metricOuts).
  split; [reflexivity|]. split; [reflexivity|]. split; [reflexivity|].
  rewrite !length_app. rewrite orb_false_l. split.
  - rewrite orb_true_iff, Hwa, Hwm. lia.
  - intros Hnone. apply orb_false_iff in Hnone as [H1 H2].
    assert (Hla : length (omap writtenMessage alertOuts) = 0%nat).
    { destruct (length (omap writtenMessage alertOuts)) eqn:Hl; [reflexivity|].
      assert (Habs : existsb (fun out => fst (fst out)) alertOuts = true)
        by (apply Hwa; lia).
      congruence. }
    assert (Hlm : length (omap writtenMessage metricOuts) = 0%nat).
    { destruct (length (omap writtenMessage metricOuts)) eqn:Hl; [reflexivity|].
      assert (Habs : existsb (fun out => fst (fst out)) metricOuts = true)
        by (apply Hwm; lia).
      congruence. }
    apply length_zero_iff_nil in Hla, Hlm. rewrite Hla, Hlm, !app_nil_r.
    split; reflexivity.
Qed.

(** *** Config update: properties *)

Lemma setMaxMetricsBytesFromConfig_shape (config : StatsdConfig) (m : MetricsManager) :
  exists limit, setMaxMetricsBytesFromConfig config m = with_mMaxMetricsBytes limit m.
Proof.
  unfold setMaxMetricsBytesFromConfig.
  destruct (max_metrics_memory_kb config) as [kb|]; [destruct (_ || _)|]; eauto.
Qed.

Lemma setTriggerGetDataBytesFromConfig_shape (config : StatsdConfig)
    (m : MetricsManager) :
  exists limit,
    setTriggerGetDataBytesFromConfig config m = with_mTriggerGetDataBytes limit m.
Proof.
  unfold setTriggerGetDataBytesFromConfig.
  destruct (soft_metrics_memory_kb config) as [kb|]; [destruct (_ || _)|]; eauto.
Qed.

Lemma verifyGuardrailsAndUpdateStatsdStats_anatomy (m : MetricsManager) :
  exists reason log,
    verifyGuardrailsAndUpdateStatsdStats m
    = with_stats log (with_mInvalidConfigReason reason m)
    /\ (reason = None
        <-> mInvalidConfigReason m = None
            /\ Z.of_nat (length (mAllMetricProducers m)) <= kMaxMetricCountPerConfig E
            /\ Z.of_nat (length (mAllConditionTrackers m))
               <= kMaxConditionCountPerConfig E
            /\ Z.of_nat (length (mAllAtomMatchingTrackers m))
               <= kMaxMatcherCountPerConfig E
            /\ Z.of_nat (length (mAllAnomalyTrackers m)) <= kMaxAlertCountPerConfig E).
Proof.
  unfold verifyGuardrailsAndUpdateStatsdStats. cbv zeta.
  destruct (Z.of_nat (length (mAllMetricProducers m)) >? kMaxMetricCountPerConfig E)
    eqn:H1;
    [apply Z.gtb_lt in H1|rewrite Z.gtb_ltb in H1; apply Z.ltb_ge in H1];
  (destruct (Z.of_nat (length (mAllConditionTrackers m))
             >? kMaxConditionCountPerConfig E) eqn:H2;
    [apply Z.gtb_lt in H2|rewrite Z.gtb_ltb in H2; apply Z.ltb_ge in H2]);
  (destruct (Z.of_nat (length (mAllAtomMatchingTrackers m))
             >? kMaxMatcherCountPerConfig E) eqn:H3;
    [apply Z.gtb_lt in H3|rewrite Z.gtb_ltb in H3; apply Z.ltb_ge in H3]);
  (destruct (Z.of_nat (length (mAllAnomalyTrackers m)) >? kMaxAlertCountPerConfig E)
     eqn:H4;
    [apply Z.gtb_lt in H4|rewrite Z.gtb_ltb in H4; apply Z.ltb_ge in H4]);
  simpl;
  (eexists; eexists; split; [reflexivity|]);
  (split; [intros Hv; try discriminate; repeat split; auto; lia
          |intros (Hv & ? & ? & ? & ?); try lia; exact Hv]).
Qed.

Lemma initializeConfigActiveStatus_shape (m : MetricsManager) :
  exists active always,
    initializeConfigActiveStatus m
    = with_mIsActive active (with_mIsAlwaysActive always m).
Proof.
  unfold initializeConfigActiveStatus. cbv zeta.
  match goal with
  | |- context [with_mIsActive ?b (with_mIsAlwaysActive ?b m)] =>
      change (mMetricIndexesWithActivation (with_mIsActive b (with_mIsAlwaysActive b m)))
        with (mMetricIndexesWithActivation m)
  end.
  rewrite foldl_active_status. eauto.
Qed.

(** What [updateStatsdConfig] hands back during [updateConfig]. *)
Definition updateParts (config : StatsdConfig) (timeBaseNs currentTimeNs : Z)
    (m : MetricsManager) : ConfigParts :=
  updateStatsdConfig E config timeBaseNs currentTimeNs
    (with_mMetricIndexesWithActivation []
       (with_mRestrictedMetricsDelegatePackageName
          (restricted_metrics_delegate_package_name config) m)).

(** The config asks for a restricted metrics delegate on a platform that
    has none. *)
Definition restrictedMetricsNotEnabled (config : StatsdConfig) : Prop :=
  isAtLeastU E = false
  /\ is_Some (restricted_metrics_delegate_package_name config).

Lemma restrictedMetricsNotEnabled_test (config : StatsdConfig) :
  negb (isAtLeastU E)
  && bool_decide (is_Some (restricted_metrics_delegate_package_name config)) = true
  <-> restrictedMetricsNotEnabled config.
Proof.
  unfold restrictedMetricsNotEnabled.
  rewrite andb_true_iff, negb_true_iff, bool_decide_eq_true. reflexivity.
Qed.

(** The manager that [updateConfig] hands to [createAllLogSourcesFromConfig]:
    the members of the old config replaced, the source lists cleared. *)
Definition readyForLogSources (config : StatsdConfig) (timeBaseNs currentTimeNs : Z)
    (m : MetricsManager) : MetricsManager :=
  let m1 :=
    with_mRestrictedMetricsDelegatePackageName
      (restricted_metrics_delegate_package_name config) m in
  let m2 := with_mMetricIndexesWithActivation [] m1 in
  let m3 :=
    with_parts (updateStatsdConfig E config timeBaseNs currentTimeNs m2) m2 in
  let m4 := refreshTtl currentTimeNs (with_mTtlNs (ttlNsOf config) m3) in
  let m5 :=
    with_mAnnotations (annotation config)
      (with_mWhitelistedAtomIds (list_to_set (whitelisted_atom_ids config)) m4) in
  with_mPullAtomPackages ∅
    (with_mPullAtomUids ∅
       (with_mDefaultPullUids ∅
          (with_mAllowedPkg [] (with_mAllowedUid [] m5)))).

Lemma readyForLogSources_fields (config : StatsdConfig)
    (timeBaseNs currentTimeNs : Z) (m : MetricsManager) :
  let parts := updateParts config timeBaseNs currentTimeNs m in
  let m6 := readyForLogSources config timeBaseNs currentTimeNs m in
  mInvalidConfigReason m6 = partsReason parts
  /\ mAllMetricProducers m6 = partsMetricProducers parts
  /\ mAllConditionTrackers m6 = partsConditionTrackers parts
  /\ mAllAtomMatchingTrackers m6 = partsAtomMatchingTrackers parts
  /\ mAllAnomalyTrackers m6 = partsAnomalyTrackers parts
  /\ mAllowedUid m6 = []
  /\ mAllowedPkg m6 = []
  /\ mWhitelistedAtomIds m6 = list_to_set (whitelisted_atom_ids config)
  /\ mTtlNs m6 = ttlNsOf config
  /\ mTtlEndNs m6
     = (if ttlNsOf config >? 0 then int64 (currentTimeNs + ttlNsOf config)
        else mTtlEndNs m).
Proof.
  intros parts m6. subst parts m6. unfold readyForLogSources, updateParts, refreshTtl.
  cbv zeta. simpl. destruct (ttlNsOf config >? 0); repeat split.
Qed.

Lemma updateConfig_anatomy (uidMap : UidMap) (config : StatsdConfig)
    (timeBaseNs currentTimeNs : Z) (m : MetricsManager) :
  ~ restrictedMetricsNotEnabled config ->
  let sourced :=
    createAllLogSourcesFromConfig uidMap config
      (readyForLogSources config timeBaseNs currentTimeNs m) in
  exists active always log reason trigger limit,
    updateConfig uidMap config timeBaseNs currentTimeNs m
    = (match reason with None => true | Some _ => false end,
       with_mIsActive active
         (with_mIsAlwaysActive always
            (with_stats log
               (with_mInvalidConfigReason reason
                  (with_mTriggerGetDataBytes trigger
                     (with_mMaxMetricsBytes limit sourced))))))
    /\ (reason = None
        <-> mInvalidConfigReason sourced = None
            /\ Z.of_nat (length (mAllMetricProducers sourced))
               <= kMaxMetricCountPerConfig E
            /\ Z.of_nat (length (mAllConditionTrackers sourced))
               <= kMaxConditionCountPerConfig E
            /\ Z.of_nat (length (mAllAtomMatchingTrackers sourced))
               <= kMaxMatcherCountPerConfig E
            /\ Z.of_nat (length (mAllAnomalyTrackers sourced))
               <= kMaxAlertCountPerConfig E).
Proof.
  intros Hrestricted sourced. unfold updateConfig.
  destruct (negb (isAtLeastU E)
            && bool_decide (is_Some (restricted_metrics_delegate_package_name config)))
    eqn:Htest.
  { apply restrictedMetricsNotEnabled_test in Htest. contradiction. }
  cbv zeta. fold (readyForLogSources config timeBaseNs currentTimeNs m).
  fold sourced.
  destruct (setMaxMetricsBytesFromConfig_shape config sourced) as [limit Hl].
  rewrite Hl.
  destruct (setTriggerGetDataBytesFromConfig_shape config
              (with_mMaxMetricsBytes limit sourced)) as [trigger Ht].
  rewrite Ht.
  destruct (verifyGuardrailsAndUpdateStatsdStats_anatomy
              (with_mTriggerGetDataBytes trigger
                 (with_mMaxMetricsBytes limit sourced)))
    as (reason & log & Hv & Hreason).
  rewrite Hv.
  destruct (initializeConfigActiveStatus_shape
              (with_stats log
                 (with_mInvalidConfigReason reason
                    (with_mTriggerGetDataBytes trigger
                       (with_mMaxMetricsBytes limit sourced)))))
    as (active & always & Hi).
  rewrite Hi.
  exists active, always, log, reason, trigger, limit.
  split; [reflexivity|exact Hreason].
Qed.

(** X11: [updateConfig] answers whether the updated config is valid, and it is
    valid exactly when the update was not refused for a restricted metrics
    delegate, [updateStatsdConfig] reported no error, the log sources and
    pull packages of the new config are within their limits with every
    default pull package named in [sAidToUidMapping], and the new metrics,
    conditions, matchers and alerts are within theirs. What the manager held
    before the update plays no part. A refused update changes nothing but
    the invalid-config reason. *)
Theorem updateConfig_valid_iff (uidMap : UidMap) (config : StatsdConfig)
    (timeBaseNs currentTimeNs : Z) (m : MetricsManager) :
  pullPackageCount config < 2 ^ 31 ->
  let parts := updateParts config timeBaseNs currentTimeNs m in
  let result := updateConfig uidMap config timeBaseNs currentTimeNs m in
  fst result = isConfigValid (snd result)
  /\ (fst result = true
      <-> ~ restrictedMetricsNotEnabled config
          /\ partsReason parts = None
          /\ Z.of_nat (length (allowed_log_source config)) <= kMaxLogSourceCount E
          /\ Forall inAidMap (default_pull_packages config)
          /\ pullPackageCount config <= kMaxPullAtomPackages E
          /\ Z.of_nat (length (partsMetricProducers parts))
             <= kMaxMetricCountPerConfig E
          /\ Z.of_nat (length (partsConditionTrackers parts))
             <= kMaxConditionCountPerConfig E
          /\ Z.of_nat (length (partsAtomMatchingTrackers parts))
             <= kMaxMatcherCountPerConfig E
          /\ Z.of_nat (length (partsAnomalyTrackers parts))
             <= kMaxAlertCountPerConfig E)
  /\ (restrictedMetricsNotEnabled config ->
      result
      = (false,
         with_mInvalidConfigReason
           (Some (INVALID_CONFIG_REASON_RESTRICTED_METRIC_NOT_ENABLED E)) m)).
Proof.
  intros Hmax parts result.
  assert (Hrefused : restrictedMetricsNotEnabled config ->
            result
            = (false,
               with_mInvalidConfigReason
                 (Some (INVALID_CONFIG_REASON_RESTRICTED_METRIC_NOT_ENABLED E)) m)).
  { intros Hr. apply restrictedMetricsNotEnabled_test in Hr.
    subst result. unfold updateConfig. rewrite Hr. reflexivity. }
  destruct (negb (isAtLeastU E)
            && bool_decide (is_Some (restricted_metrics_delegate_package_name config)))
    eqn:Htest.
  - apply restrictedMetricsNotEnabled_test in Htest.
    rewrite (Hrefused Htest). simpl.
    split; [reflexivity|]. split; [|intros _; reflexivity].
    split; [discriminate|]. intros (Habs & _). contradiction.
  - assert (Hnot : ~ restrictedMetricsNotEnabled config).
    { intros Hr. apply restrictedMetricsNotEnabled_test in Hr. congruence. }
    destruct (updateConfig_anatomy uidMap config timeBaseNs currentTimeNs m Hnot)
      as (active & always & log & reason & trigger & limit & Heq & Hreason).
    subst result. rewrite Heq. simpl.
    split; [reflexivity|]. split; [|intros Hr; contradiction].
    assert (Hnone : forall o : option InvalidConfigReason,
              match o with None => true | Some _ => false end = true <-> o = None).
    { intros [r|]; split; congruence. }
    rewrite Hnone, Hreason.
    destruct (createAllLogSourcesFromConfig_frame uidMap config
                (readyForLogSources config timeBaseNs currentTimeNs m))
      as (-> & -> & -> & -> & _).
    destruct (readyForLogSources_fields config timeBaseNs currentTimeNs m)
      as (Hr0 & -> & -> & -> & -> & Hu & Hp & _).
    fold parts.
    assert (Hvalid := createAllLogSourcesFromConfig_validity uidMap config
                        (readyForLogSources config timeBaseNs currentTimeNs m) Hmax).
    unfold isConfigValid in Hvalid. rewrite !Hnone in Hvalid.
    rewrite Hvalid, Hr0, Hu, Hp. fold parts. simpl. tauto.
Qed.

(** X12: After an update that is not refused, the manager accepts log events by
    the new config alone: an event passes [checkLogCredentials] exactly when
    its tag is one of the config's whitelisted atom ids, or its uid is a
    system uid, or (the config naming at most [kMaxLogSourceCount] log
    sources) its uid is the uid of an allowed log source that names an AID or
    a uid that the uid map gives for an allowed log source read as a package.
    No uid allowed by the old config stays allowed. *)
Theorem updateConfig_replaces_log_sources
    (AID_ROOT AID_SYSTEM AID_SHELL : Z)
    (uidMap : UidMap) (config : StatsdConfig) (timeBaseNs currentTimeNs : Z)
    (m : MetricsManager) (event : MetricsManager.LogEvent) :
  ~ restrictedMetricsNotEnabled config ->
  Z.of_nat (length (allowed_log_source config)) <= kMaxLogSourceCount E ->
  let m' := snd (updateConfig uidMap config timeBaseNs currentTimeNs m) in
  mAllowedUid m' = aidSources (allowed_log_source config)
  /\ mAllowedPkg m' = packageSources (allowed_log_source config)
  /\ allowedLogSourcesCurrent uidMap m'
  /\ (MetricsManager.checkLogCredentials AID_ROOT AID_SYSTEM AID_SHELL
        (credentials m') event = true
      <-> MetricsManager.GetTagId event ∈ whitelisted_atom_ids config
          \/ MetricsManager.isSystemUid AID_ROOT AID_SYSTEM AID_SHELL
               (MetricsManager.GetUid event)
          \/ allowedBySource uidMap config (MetricsManager.GetUid event)).
Proof.
  intros Hnot Hle m'.
  destruct (updateConfig_anatomy uidMap config timeBaseNs currentTimeNs m Hnot)
    as (active & always & log & reason & trigger & limit & Heq & _).
  subst m'. rewrite Heq. simpl.
  destruct (readyForLogSources_fields config timeBaseNs currentTimeNs m)
    as (_ & _ & _ & _ & _ & Hu & Hp & Hw & _).
  remember (readyForLogSources config timeBaseNs currentTimeNs m) as m6 eqn:Hm6.
  clear Hm6 Heq.
  assert (Hle6 : Z.of_nat (length (mAllowedUid m6) + length (mAllowedPkg m6)
                           + length (allowed_log_source config))
                 <= kMaxLogSourceCount E).
  { rewrite Hu, Hp. simpl. exact Hle. }
  assert (Hallows : forall uid,
            uid ∈ mAllowedLogSources (createAllLogSourcesFromConfig uidMap config m6)
            <-> allowedBySource uidMap config uid).
  { intros uid.
    rewrite (createAllLogSourcesFromConfig_allows uidMap config m6 uid Hle6).
    rewrite Hu, Hp. split; [|tauto].
    intros [H|[(pkg & H & _)|H]]; [| |exact H];
      apply elem_of_nil in H; contradiction. }
  destruct (createAllLogSourcesFromConfig_anatomy uidMap config m6)
    as (reason' & defaults & uids & pkgs & combined & Heq' & _).
  assert (Hlists : mAllowedUid (createAllLogSourcesFromConfig uidMap config m6)
                   = aidSources (allowed_log_source config)
                   /\ mAllowedPkg (createAllLogSourcesFromConfig uidMap config m6)
                      = packageSources (allowed_log_source config)).
  { rewrite Heq'. simpl. rewrite (withLogSources_within uidMap config m6 Hle6).
    simpl. rewrite Hu, Hp. split; reflexivity. }
  destruct Hlists as [Huids Hpkgs].
  split; [exact Huids|]. split; [exact Hpkgs|]. split.
  - intros uid. simpl. rewrite Hallows, Huids, Hpkgs, elem_of_aidSources.
    unfold allowedBySource. split.
    + intros (source & Hin & [H|[Hnone H]]).
      * left. exists source. auto.
      * right. exists source. rewrite elem_of_packageSources. auto.
    + intros [(source & Hin & H)|(pkg & Hpkg & H)].
      * exists source. auto.
      * apply elem_of_packageSources in Hpkg as [Hin Hnone]. exists pkg. auto.
  - rewrite checkLogCredentials_iff. simpl. rewrite Hallows.
    destruct (createAllLogSourcesFromConfig_frame uidMap config m6)
      as (_ & _ & _ & _ & _ & -> & _).
    rewrite Hw, elem_of_list_to_set. reflexivity.
Qed.

(** X13: An update that is not refused restarts the time to live from the update
    time: a config without [ttl_in_seconds] never expires; one with a
    positive TTL (no 64-bit overflow) is in its TTL at exactly the timestamps
    before [currentTimeNs + ttl_in_seconds * NS_PER_SEC]. *)
Theorem updateConfig_restarts_ttl
    (uidMap : UidMap) (config : StatsdConfig) (timeBaseNs currentTimeNs : Z)
    (m : MetricsManager) (timestampNs : Z) :
  ~ restrictedMetricsNotEnabled config ->
  let m' := snd (updateConfig uidMap config timeBaseNs currentTimeNs m) in
  mTtlNs m' = ttlNsOf config
  /\ (ttl_in_seconds config = None -> isInTtl timestampNs m' = true)
  /\ (forall seconds,
        ttl_in_seconds config = Some seconds ->
        0 < seconds * NS_PER_SEC E ->
        0 <= currentTimeNs ->
        currentTimeNs + seconds * NS_PER_SEC E < 2 ^ 63 ->
        (isInTtl timestampNs m' = true
         <-> timestampNs < currentTimeNs + seconds * NS_PER_SEC E)).
Proof.
  intros Hnot m'.
  destruct (updateConfig_anatomy uidMap config timeBaseNs currentTimeNs m Hnot)
    as (active & always & log & reason & trigger & limit & Heq & _).
  subst m'. rewrite Heq. unfold isInTtl. simpl.
  destruct (createAllLogSourcesFromConfig_frame uidMap config
              (readyForLogSources config timeBaseNs currentTimeNs m))
    as (_ & _ & _ & _ & _ & _ & -> & -> & _).
  destruct (readyForLogSources_fields config timeBaseNs currentTimeNs m)
    as (_ & _ & _ & _ & _ & _ & _ & _ & -> & ->).
  split; [reflexivity|]. split.
  - intros Hnone. unfold ttlNsOf. rewrite Hnone. reflexivity.
  - intros seconds Hsome Hpos Hmin Hmax. unfold ttlNsOf. rewrite Hsome.
    assert (Hid : int64 (seconds * NS_PER_SEC E) = seconds * NS_PER_SEC E).
    { apply int64_id. unfold in_int64. lia. }
    rewrite Hid.
    destruct (seconds * NS_PER_SEC E >? 0) eqn:Hgt;
      [|rewrite Z.gtb_ltb in Hgt; apply Z.ltb_ge in Hgt; lia].
    destruct (seconds * NS_PER_SEC E <=? 0) eqn:Hle;
      [apply Z.leb_le in Hle; lia|]. simpl.
    rewrite int64_id by (unfold in_int64; lia).
    apply Z.ltb_lt.
Qed.

End Manager.

(** *** A small instance to run the manager on

    Invalid-config reasons are numbered; a producer is its id, its active
    flag and the number of app upgrades and removals it was told of; an
    active metric is the id it names; an alert tracker is the number it
    would write as metadata (0 for nothing), metadata messages are numbers.
    At most three log sources and four pull packages are allowed, and two of
    each kind of tracker. *)

Record SimpleProducer := {
  producerId : Z;
  producerActive : bool;
  notifications : Z
}.

Definition notified (p : SimpleProducer) : SimpleProducer :=
  {| producerId := producerId p; producerActive := producerActive p;
     notifications := notifications p + 1 |}.

Definition simpleParts : @ConfigParts Z SimpleProducer unit unit Z :=
  {| partsReason := None;
     partsMetricProducers :=
       [ {| producerId := 7; producerActive := false; notifications := 0 |};
         {| producerId := 8; producerActive := false; notifications := 0 |} ];
     partsConditionTrackers := [tt];
     partsAtomMatchingTrackers := [tt; tt];
     partsAnomalyTrackers := [];
     partsMetricIndexesWithActivation := [0; 1] |}.

Definition simpleCollaborators
  : @Collaborators Z SimpleProducer unit unit Z Z Z Z :=
  {| INVALID_CONFIG_REASON_RESTRICTED_METRIC_NOT_ENABLED := 1;
     INVALID_CONFIG_REASON_TOO_MANY_LOG_SOURCES := 2;
     INVALID_CONFIG_REASON_DEFAULT_PULL_PACKAGES_NOT_IN_MAP := 3;
     INVALID_CONFIG_REASON_TOO_MANY_SOURCES_IN_PULL_PACKAGES := 4;
     INVALID_CONFIG_REASON_TOO_MANY_METRICS := 5;
     INVALID_CONFIG_REASON_TOO_MANY_CONDITIONS := 6;
     INVALID_CONFIG_REASON_TOO_MANY_MATCHERS := 7;
     INVALID_CONFIG_REASON_TOO_MANY_ALERTS := 8;
     kMaxLogSourceCount := 3;
     kMaxPullAtomPackages := 4;
     kMaxMetricCountPerConfig := 2;
     kMaxConditionCountPerConfig := 2;
     kMaxMatcherCountPerConfig := 2;
     kMaxAlertCountPerConfig := 2;
     kDefaultMaxMetricsBytesPerConfig := 2097152;
     kHardMaxMetricsBytesPerConfig := 20971520;
     kDefaultBytesPerConfigTriggerGetData := 196608;
     kHardMaxTriggerGetDataBytes := 10485760;
     NS_PER_SEC := 1000000000;
     sAidToUidMapping := <["AID_SYSTEM" := 1000]> (<["AID_GRAPHICS" := 1003]> ∅);
     isAtLeastU := true;
     updateStatsdConfig := fun _ _ _ _ => simpleParts;
     isActive := producerActive;
     getMetricId := producerId;
     loadActiveMetric := fun _ _ p =>
       {| producerId := producerId p; producerActive := true;
          notifications := notifications p |};
     producerNotifyAppUpgrade := fun _ p => notified p;
     producerNotifyAppRemoved := fun _ p => notified p;
     activeMetricId := fun id => id;
     configKeyId := 12345;
     configKeyUid := 1000;
     newAlertMetadata := 0;
     newMetricMetadata := 0;
     writeAlertMetadataToProto := fun _ _ tracker _ =>
       (negb (tracker =? 0), tracker, tracker);
     writeMetricMetadataToProto := fun producer _ =>
       (producerActive producer, producerId producer, producer)
  |}.

Definition emptyManager : @MetricsManager Z SimpleProducer unit unit Z :=
  {| mInvalidConfigReason := None;
     mRestrictedMetricsDelegatePackageName := None;
     mTtlNs := -1; mTtlEndNs := -1;
     mWhitelistedAtomIds := ∅;
     mAllowedUid := []; mAllowedPkg := [];
     mAllowedLogSources := ∅;
     mDefaultPullUids := ∅;
     mPullAtomUids := ∅; mPullAtomPackages := ∅; mCombinedPullAtomUids := ∅;
     mMaxMetricsBytes := 0; mTriggerGetDataBytes := 0;
     mAllMetricProducers := partsMetricProducers simpleParts;
     mAllConditionTrackers := [tt];
     mAllAtomMatchingTrackers := [tt; tt];
     mAllAnomalyTrackers := [];
     mMetricIndexesWithActivation := [0; 1];
     mAnnotations := [];
     mIsAlwaysActive := false; mIsActive := false;
     stats := [] |}.

(** One AID source, one package source; atom 10 is pulled from a package. *)
Definition simpleStatsdConfig : StatsdConfig :=
  {| ttl_in_seconds := Some 60;
     restricted_metrics_delegate_package_name := None;
     whitelisted_atom_ids := [47];
     allowed_log_source := ["AID_SYSTEM"; "com.example.app"];
     default_pull_packages := ["AID_GRAPHICS"];
     pull_atom_packages := [ {| atom_id := 10; packages := ["com.example.app"] |} ];
     max_metrics_memory_kb := Some 1024;
     soft_metrics_memory_kb := Some 0;
     annotation := [(1, 2)] |}.

(** The example app has uid 10123 before it is reinstalled, 10200 after. *)
Definition oldUidMap : UidMap :=
  fun pkg => if decide (pkg = "com.example.app") then {[ 10123 ]} else ∅.

Definition newUidMap : UidMap :=
  fun pkg => if decide (pkg = "com.example.app") then {[ 10200 ]} else ∅.

Definition configuredManager : @MetricsManager Z SimpleProducer unit unit Z :=
  createAllLogSourcesFromConfig simpleCollaborators oldUidMap simpleStatsdConfig
    emptyManager.

Lemma uidMaps_differ_at_example_app :
  forall pkg, pkg <> "com.example.app" -> newUidMap pkg = oldUidMap pkg.
Proof.
  intros pkg Hne. unfold newUidMap, oldUidMap.
  destruct (decide (pkg = "com.example.app")); [contradiction|reflexivity].
Qed.

Lemma pullPackageCount_simpleStatsdConfig :
  pullPackageCount simpleStatsdConfig < 2 ^ 31.
Proof. vm_compute. reflexivity. Qed.

Lemma configuredManager_allowed_current :
  allowedLogSourcesCurrent oldUidMap configuredManager.
Proof.
  intros uid. unfold configuredManager.
  rewrite (createAllLogSourcesFromConfig_allows simpleCollaborators oldUidMap
             simpleStatsdConfig emptyManager uid) by (vm_compute; discriminate).
  destruct (createAllLogSourcesFromConfig_anatomy simpleCollaborators oldUidMap
              simpleStatsdConfig emptyManager)
    as (reason & defaults & uids & pkgs & combined & Heq & _).
  rewrite Heq. simpl.
  rewrite (withLogSources_within simpleCollaborators oldUidMap simpleStatsdConfig
             emptyManager) by (vm_compute; discriminate).
  simpl.
  change (aidSources simpleCollaborators (allowed_log_source simpleStatsdConfig))
    with [1000].
  change (packageSources simpleCollaborators (allowed_log_source simpleStatsdConfig))
    with ["com.example.app"].
  unfold allowedBySource. simpl. split.
  - intros [H|[(pkg & H & _)|(source & Hin & H)]].
    + apply elem_of_nil in H. contradiction.
    + apply elem_of_nil in H. contradiction.
    + apply elem_of_cons in Hin as [->|Hin].
      * destruct H as [H|[H _]]; [|discriminate].
        left. vm_compute in H. injection H as <-. apply list_elem_of_here.
      * apply list_elem_of_singleton in Hin as ->.
        destruct H as [H|[_ H]]; [discriminate|].
        right. exists "com.example.app". split; [apply list_elem_of_here|exact H].
  - intros [H|(pkg & Hpkg & H)].
    + apply list_elem_of_singleton in H as ->. right. right.
      exists "AID_SYSTEM". split; [apply list_elem_of_here|left; reflexivity].
    + apply list_elem_of_singleton in Hpkg as ->. right. right.
      exists "com.example.app".
      split; [apply list_elem_of_further, list_elem_of_here|right].
      split; [reflexivity|exact H].
Qed.

Lemma configuredManager_pull_current :
  pullAtomSourcesCurrent oldUidMap configuredManager.
Proof.
  unfold configuredManager.
  destruct (createAllLogSourcesFromConfig_anatomy simpleCollaborators oldUidMap
              simpleStatsdConfig emptyManager)
    as (reason & defaults & uids & pkgs & combined & Heq & _).
  assert (Hinit : exists m,
            createAllLogSourcesFromConfig simpleCollaborators oldUidMap
              simpleStatsdConfig emptyManager
            = initPullAtomSources oldUidMap m).
  { unfold createAllLogSourcesFromConfig. cbv zeta.
    match goal with
    | |- context [if ?test then _ else initPullAtomSources oldUidMap ?m] =>
        assert (Htest : test = false) by (vm_compute; reflexivity);
        rewrite Htest; exists m; reflexivity
    end. }
  destruct Hinit as [m ->]. apply initPullAtomSources_current.
Qed.

(** The app is reinstalled with a new uid: after [notifyAppUpgrade] its new
    uid is an allowed log source. *)
Lemma notifyApp_keeps_sources_current_witness :
  10200 ∈ mAllowedLogSources
            (notifyAppUpgrade simpleCollaborators newUidMap 5 "com.example.app"
               10200 2 configuredManager).
Proof.
  apply (proj1 (notifyApp_keeps_sources_current simpleCollaborators
                  oldUidMap newUidMap 5 "com.example.app" 10200 2 configuredManager
                  uidMaps_differ_at_example_app
                  configuredManager_allowed_current
                  configuredManager_pull_current) 10200).
  right. exists "com.example.app". split.
  - vm_compute. apply list_elem_of_here.
  - unfold newUidMap. simpl. apply elem_of_singleton. reflexivity.
Defined.

(** A new snapshot of the uid map with the app's new uid. *)
Lemma onUidMapReceived_keeps_sources_current_witness :
  10200 ∈ mAllowedLogSources
            (onUidMapReceived newUidMap 5 configuredManager).
Proof.
  apply (proj1 (onUidMapReceived_keeps_sources_current oldUidMap newUidMap 5
                  configuredManager configuredManager_allowed_current) 10200).
  right. exists "com.example.app". split.
  - vm_compute. apply list_elem_of_here.
  - unfold newUidMap. simpl. apply elem_of_singleton. reflexivity.
Defined.

(** The example config keeps the empty manager valid: two log sources out
    of three, one default pull package that names an AID, two pull packages
    out of four. *)
Lemma createAllLogSourcesFromConfig_valid_iff_witness :
  isConfigValid
    (createAllLogSourcesFromConfig simpleCollaborators oldUidMap simpleStatsdConfig
       emptyManager) = true.
Proof.
  refine (proj2 (createAllLogSourcesFromConfig_valid_iff simpleCollaborators
                   oldUidMap simpleStatsdConfig emptyManager
                   pullPackageCount_simpleStatsdConfig)
            (conj eq_refl (conj _ (conj _ _)))).
  - vm_compute. discriminate.
  - apply Forall_cons_2; [exists 1003; reflexivity|apply Forall_nil_2].
  - vm_compute. discriminate.
Defined.

Lemma simpleStatsdConfig_not_restricted :
  ~ restrictedMetricsNotEnabled simpleCollaborators simpleStatsdConfig.
Proof. intros [Habs _]. discriminate. Qed.

(** Updating the empty manager with the example config succeeds. *)
Lemma updateConfig_valid_iff_witness :
  fst (updateConfig simpleCollaborators oldUidMap simpleStatsdConfig 1000 2000
         emptyManager) = true.
Proof.
  refine (proj2 (proj1 (proj2 (updateConfig_valid_iff simpleCollaborators oldUidMap
                                 simpleStatsdConfig 1000 2000 emptyManager
                                 pullPackageCount_simpleStatsdConfig)))
            (conj simpleStatsdConfig_not_restricted
               (conj eq_refl
                  (conj _ (conj _ (conj _ (conj _ (conj _ (conj _ _))))))))).
  - vm_compute. discriminate.
  - apply Forall_cons_2; [exists 1003; reflexivity|apply Forall_nil_2].
  - vm_compute. discriminate.
  - vm_compute. discriminate.
  - vm_compute. discriminate.
  - vm_compute. discriminate.
  - vm_compute. discriminate.
Defined.

(** After the update an event of uid 10123 (the example app) with tag 3 is
    accepted, with system uids 0 and 1000 to 1999. *)
Lemma updateConfig_replaces_log_sources_witness :
  MetricsManager.checkLogCredentials 0 1000 2000
    (credentials
       (snd (updateConfig simpleCollaborators oldUidMap simpleStatsdConfig 1000 2000
               emptyManager)))
    {| MetricsManager.GetTagId := 3; MetricsManager.GetUid := 10123;
       MetricsManager.GetElapsedTimestampNs := 5 |} = true.
Proof.
  apply (proj2 (proj2 (proj2 (updateConfig_replaces_log_sources simpleCollaborators
                                0 1000 2000 oldUidMap simpleStatsdConfig 1000 2000
                                emptyManager
                                {| MetricsManager.GetTagId := 3;
                                   MetricsManager.GetUid := 10123;
                                   MetricsManager.GetElapsedTimestampNs := 5 |}
                                simpleStatsdConfig_not_restricted
                                ltac:(vm_compute; discriminate))))).
  right. right. exists "com.example.app".
  split; [apply list_elem_of_further, list_elem_of_here|right].
  split; [reflexivity|].
  unfold oldUidMap. simpl. apply elem_of_singleton. reflexivity.
Defined.

(** The example config has a TTL of 60 seconds. *)
Lemma updateConfig_restarts_ttl_witness :
  mTtlNs (snd (updateConfig simpleCollaborators oldUidMap simpleStatsdConfig 1000
                 2000 emptyManager))
  = 60000000000.
Proof.
  exact (proj1 (updateConfig_restarts_ttl simpleCollaborators oldUidMap
                  simpleStatsdConfig 1000 2000 emptyManager 0
                  simpleStatsdConfig_not_restricted)).
Defined.

Example updateConfig_ttl_runs_from_update_time :
  let m' :=
    snd (updateConfig simpleCollaborators oldUidMap simpleStatsdConfig 1000 2000
           emptyManager) in
  isInTtl 60000001999 m' = true /\ isInTtl 60000002000 m' = false.
Proof. vm_compute. split; reflexivity. Qed.

(** One megabyte is within the hard maximum; a soft limit of 0 KB gives
    the default. *)
Lemma memory_limits_from_config_witness :
  let m' :=
    setTriggerGetDataBytesFromConfig simpleCollaborators simpleStatsdConfig
      (setMaxMetricsBytesFromConfig simpleCollaborators simpleStatsdConfig
         emptyManager) in
  mMaxMetricsBytes m' = 1048576 /\ mTriggerGetDataBytes m' = 196608.
Proof.
  destruct (memory_limits_from_config simpleCollaborators simpleStatsdConfig
              emptyManager) as (Hmax & Hsoft & _).
  - intros kb Hkb. injection Hkb as <-. vm_compute. reflexivity.
  - intros kb Hkb. injection Hkb as <-. vm_compute. reflexivity.
  - split; [exact Hmax|exact Hsoft].
Defined.

(** Loading an active config that names metric 8 activates the config and
    says so once, although metric 8 is then loaded a second time. *)
Example loadActiveConfig_notes_once :
  let m' := loadActiveConfig simpleCollaborators [8; 8] 2000 emptyManager in
  mIsActive m' = true
  /\ stats m' = [noteActiveStatusChanged true]
  /\ producerActive <$> mAllMetricProducers m' = [false; true].
Proof. vm_compute. repeat split. Qed.

(** Too many matchers and too many alerts: the alerts are named. *)
Definition crowdedParts : @ConfigParts Z SimpleProducer unit unit Z :=
  {| partsReason := None;
     partsMetricProducers := [];
     partsConditionTrackers := [];
     partsAtomMatchingTrackers := [tt; tt; tt];
     partsAnomalyTrackers := [0; 0; 0];
     partsMetricIndexesWithActivation := [] |}.

Example verifyGuardrails_last_check_wins :
  let m' :=
    verifyGuardrailsAndUpdateStatsdStats simpleCollaborators
      (with_parts crowdedParts emptyManager) in
  mInvalidConfigReason m' = Some 8
  /\ stats m' = [noteConfigReceived 0 0 3 3 [] (Some 8)].
Proof. vm_compute. split; reflexivity. Qed.

(** Of four alert trackers two have something to write: their two messages
    follow the one the metadata held, and the answer is true. *)
Example writeMetadataToProto_drops_unwritten :
  let result :=
    writeMetadataToProto simpleCollaborators 0 0
      {| config_key := (0, 0); alert_metadata := [5]; metric_metadata := [] |}
      (with_mAllAnomalyTrackers [0; 7; 0; 9] emptyManager) in
  fst (fst result) = true
  /\ alert_metadata (snd (fst result)) = [5; 7; 9]
  /\ metric_metadata (snd (fst result)) = []
  /\ config_key (snd (fst result)) = (12345, 1000).
Proof. vm_compute. repeat split; reflexivity. Qed.

End MetricsManagerState.

(** ** DurationMetricProducer *)

Module DurationMetricProducer.

Import Int.

(** [ConditionState]; the enum itself is declared outside the sources, its
    four values are the ones the producers and the manager name. *)
Inductive ConditionState := kNotEvaluated | kUnknown | kFalse | kTrue.

#[global] Instance ConditionState_eq_dec : EqDecision ConditionState.
Proof. solve_decision. Defined.

(** [DurationMetric_AggregationType]. *)
Inductive AggregationType := SUM | MAX_SPARSE.

(** What the producer reports to the [StatsdStats] singleton, in call order. *)
Inductive StatsEvent :=
| noteBucketCount (metricId : Z)
| noteMetricDimensionSize (metricId : Z) (size : Z)
| noteHardDimensionLimitReached (metricId : Z).

Section Producer.

(** [HashableDimensionKey] with its equality and hash, [FieldValue],
    [Matcher], the duration trackers (Oring / Max), the condition timer and
    the past-bucket table are declared in files that are not part of the
    sources: the producer is modelled over any such types. *)
Context {Key : Type} `{Countable Key}.
Context {FieldValue Matcher DurationTracker ConditionTimer PastBuckets : Type}.

(** [struct Metric2Condition] (HashableDimensionKey.h). *)
Record Metric2Condition := {
  conditionId : Z;
  metricFields : list Matcher;
  conditionFields : list Matcher
}.

(** [struct Metric2State] (HashableDimensionKey.h). *)
Record Metric2State := {
  stateAtomId : Z;
  stateMetricFields : list Matcher;
  stateFields : list Matcher
}.

(** [MetricDimensionKey]: the pair (dimension key in what, state values key). *)
Definition MetricDimensionKey : Type := Key * Key.
Definition getDimensionKeyInWhat (k : MetricDimensionKey) : Key := fst k.
Definition getStateValuesKey (k : MetricDimensionKey) : Key := snd k.

(** [ConditionKey] is [std::map<int64_t, HashableDimensionKey>]. *)
Abbreviation ConditionKey := (gmap Z Key).

(** The functions the producer calls that live outside the sources.
    Output parameters ([HashableDimensionKey* output]) are rendered as
    "old value in, new value out"; arguments that never change during the
    modelled calls (the wizard, [mUploadThreshold], the anomaly trackers
    handed to a new duration tracker) stay inside the functions. *)
Record Collaborators := {
  (* StatsdStats *)
  kDimensionKeySizeSoftLimit : Z;
  (* HashableDimensionKey.h *)
  DEFAULT_DIMENSION_KEY : Key;
  getValues : Key -> list FieldValue;
  addValue : FieldValue -> Key -> Key;
  filterValues : list Matcher -> list FieldValue -> Key -> Key;
  getDimensionForCondition : list FieldValue -> Metric2Condition -> Key -> Key;
  getDimensionForState : list FieldValue -> Metric2State -> Key -> Key;
  (* MetricProducer *)
  passesSampleCheckLocked : list FieldValue -> bool;
  queryStateValue : Z -> Key -> FieldValue;
  mapStateValue : Z -> FieldValue -> FieldValue;
  (* ConditionWizard *)
  query : Z -> ConditionKey -> bool -> ConditionState;
  IsSimpleCondition : Z -> bool;
  IsChangedDimensionTrackable : Z -> bool;
  getUnSlicedPartConditionState : Z -> ConditionState;
  getChangedToTrueDimensions : Z -> option (gset Key);
  getChangedToFalseDimensions : Z -> option (gset Key);
  getSlicedDimensionMap : Z -> gmap Key Z;
  (* ConditionTimer *)
  newBucketStart : Z -> Z -> ConditionTimer -> (Z * Z) * ConditionTimer;
  (* DurationTracker and its two implementations *)
  newDurationTracker : AggregationType -> MetricDimensionKey -> Z -> Z -> DurationTracker;
  noteStart : Key -> bool -> Z -> ConditionKey -> Z -> DurationTracker -> DurationTracker;
  noteStop : Key -> Z -> bool -> DurationTracker -> DurationTracker;
  noteStopAll : Z -> DurationTracker -> DurationTracker;
  hasAccumulatedDuration : DurationTracker -> bool;
  onConditionChanged : bool -> Z -> DurationTracker -> DurationTracker;
  onSlicedConditionMayChange : Z -> DurationTracker -> DurationTracker;
  flushCurrentBucket :
    Z -> Z -> DurationTracker -> PastBuckets -> bool * DurationTracker * PastBuckets
}.

(** The members that the modelled functions only read. *)
Record Config := {
  mMetricId : Z;
  mTimeBaseNs : Z;
  mBucketSizeNs : Z;
  mAggregationType : AggregationType;
  mStartIndex : Z;
  mStopIndex : Z;
  mStopAllIndex : Z;
  mConditionSliced : bool;
  mConditionTrackerIndex : Z;
  mHasLinksToAllConditionDimensionsInTracker : bool;
  mMetric2ConditionLinks : list Metric2Condition;
  mMetric2StateLinks : list Metric2State;
  mSlicedStateAtoms : list Z;
  mUseWhatDimensionAsInternalDimension : bool;
  mDimensionsInWhat : list Matcher;
  mInternalDimensions : list Matcher;
  mDimensionHardLimit : Z
}.

(** The members they write, together with the telemetry sent to
    [StatsdStats] so far (oldest first). *)
Record State := {
  mCurrentBucketNum : Z;
  mCurrentBucketStartTimeNs : Z;
  mCondition : ConditionState;
  mIsActive : bool;
  mHasHitGuardrail : bool;
  mUnSlicedPartCondition : ConditionState;
  mCurrentSlicedDurationTrackerMap : gmap Key DurationTracker;
  mPastBuckets : PastBuckets;
  mConditionTimer : ConditionTimer;
  stats : list StatsEvent
}.

Definition with_map (m : gmap Key DurationTracker) (s : State) : State :=
  {| mCurrentBucketNum := mCurrentBucketNum s;
     mCurrentBucketStartTimeNs := mCurrentBucketStartTimeNs s;
     mCondition := mCondition s;
     mIsActive := mIsActive s;
     mHasHitGuardrail := mHasHitGuardrail s;
     mUnSlicedPartCondition := mUnSlicedPartCondition s;
     mCurrentSlicedDurationTrackerMap := m;
     mPastBuckets := mPastBuckets s;
     mConditionTimer := mConditionTimer s;
     stats := stats s |}.

Definition with_stats (l : list StatsEvent) (s : State) : State :=
  {| mCurrentBucketNum := mCurrentBucketNum s;
     mCurrentBucketStartTimeNs := mCurrentBucketStartTimeNs s;
     mCondition := mCondition s;
     mIsActive := mIsActive s;
     mHasHitGuardrail := mHasHitGuardrail s;
     mUnSlicedPartCondition := mUnSlicedPartCondition s;
     mCurrentSlicedDurationTrackerMap := mCurrentSlicedDurationTrackerMap s;
     mPastBuckets := mPastBuckets s;
     mConditionTimer := mConditionTimer s;
     stats := l |}.

Definition with_guardrail (b : bool) (s : State) : State :=
  {| mCurrentBucketNum := mCurrentBucketNum s;
     mCurrentBucketStartTimeNs := mCurrentBucketStartTimeNs s;
     mCondition := mCondition s;
     mIsActive := mIsActive s;
     mHasHitGuardrail := b;
     mUnSlicedPartCondition := mUnSlicedPartCondition s;
     mCurrentSlicedDurationTrackerMap := mCurrentSlicedDurationTrackerMap s;
     mPastBuckets := mPastBuckets s;
     mConditionTimer := mConditionTimer s;
     stats := stats s |}.

Definition with_bucketNum (n : Z) (s : State) : State :=
  {| mCurrentBucketNum := n;
     mCurrentBucketStartTimeNs := mCurrentBucketStartTimeNs s;
     mCondition := mCondition s;
     mIsActive := mIsActive s;
     mHasHitGuardrail := mHasHitGuardrail s;
     mUnSlicedPartCondition := mUnSlicedPartCondition s;
     mCurrentSlicedDurationTrackerMap := mCurrentSlicedDurationTrackerMap s;
     mPastBuckets := mPastBuckets s;
     mConditionTimer := mConditionTimer s;
     stats := stats s |}.

Definition with_condition (c : ConditionState) (s : State) : State :=
  {| mCurrentBucketNum := mCurrentBucketNum s;
     mCurrentBucketStartTimeNs := mCurrentBucketStartTimeNs s;
     mCondition := c;
     mIsActive := mIsActive s;
     mHasHitGuardrail := mHasHitGuardrail s;
     mUnSlicedPartCondition := mUnSlicedPartCondition s;
     mCurrentSlicedDurationTrackerMap := mCurrentSlicedDurationTrackerMap s;
     mPastBuckets := mPastBuckets s;
     mConditionTimer := mConditionTimer s;
     stats := stats s |}.

Definition with_unsliced (u : ConditionState) (s : State) : State :=
  {| mCurrentBucketNum := mCurrentBucketNum s;
     mCurrentBucketStartTimeNs := mCurrentBucketStartTimeNs s;
     mCondition := mCondition s;
     mIsActive := mIsActive s;
     mHasHitGuardrail := mHasHitGuardrail s;
     mUnSlicedPartCondition := u;
     mCurrentSlicedDurationTrackerMap := mCurrentSlicedDurationTrackerMap s;
     mPastBuckets := mPastBuckets s;
     mConditionTimer := mConditionTimer s;
     stats := stats s |}.

Variable E : Collaborators.
Variable c : Config.

(** Appends one call to the [StatsdStats] log. *)
Definition note (e : StatsEvent) (s : State) : State :=
  with_stats (stats s ++ [e]) s.

(** Modelled from the spec: [MetricProducer::getCurrentBucketEndTimeNs] is
    declared in MetricProducer.h, which is missing. A bucket starts at
    "time base + bucketSize × bucketNum"; the current bucket ends where
    bucket [mCurrentBucketNum + 1] starts. *)
Definition getCurrentBucketEndTimeNs (s : State) : Z :=
  int64 (mTimeBaseNs c + (mCurrentBucketNum s + 1) * mBucketSizeNs c).

(** The loop of [flushCurrentBucketLocked]: every tracker flushes into
    [mPastBuckets]; a tracker that answers [true] is erased. *)
Definition flushTrackers (eventTimeNs globalConditionTrueNs : Z)
    (m : gmap Key DurationTracker) (past : PastBuckets)
  : gmap Key DurationTracker * PastBuckets :=
  map_fold
    (fun whatKey tracker (acc : gmap Key DurationTracker * PastBuckets) =>
       let '(erase, tracker', past') :=
         flushCurrentBucket E eventTimeNs globalConditionTrueNs tracker (snd acc) in
       (if erase : bool then fst acc else <[whatKey := tracker']> (fst acc), past'))
    (∅, past) m.

(** [DurationMetricProducer::flushCurrentBucketLocked]. *)
Definition flushCurrentBucketLocked (eventTimeNs nextBucketStartTimeNs : Z)
    (s : State) : State :=
  let '((globalConditionTrueNs, _), timer') :=
    newBucketStart E eventTimeNs nextBucketStartTimeNs (mConditionTimer s) in
  let '(m', past') :=
    flushTrackers eventTimeNs globalConditionTrueNs
      (mCurrentSlicedDurationTrackerMap s) (mPastBuckets s) in
  {| mCurrentBucketNum := mCurrentBucketNum s;
     mCurrentBucketStartTimeNs := nextBucketStartTimeNs;
     mCondition := mCondition s;
     mIsActive := mIsActive s;
     mHasHitGuardrail := false;
     mUnSlicedPartCondition := mUnSlicedPartCondition s;
     mCurrentSlicedDurationTrackerMap := m';
     mPastBuckets := past';
     mConditionTimer := timer';
     stats := stats s ++ [noteBucketCount (mMetricId c)] |}.

(** [int numBucketsForward = 1 + (eventTimeNs - currentBucketEndTimeNs) / mBucketSizeNs]:
    a 64-bit quotient (C++ division truncates) narrowed to [int]. *)
Definition numBucketsForward (eventTimeNs currentBucketEndTimeNs : Z) : Z :=
  int32 (int64 (1 + Z.quot (int64 (eventTimeNs - currentBucketEndTimeNs))
                           (mBucketSizeNs c))).

(** [int64_t nextBucketNs = currentBucketEndTimeNs + (numBucketsForward - 1) * mBucketSizeNs]. *)
Definition nextBucketNs (eventTimeNs currentBucketEndTimeNs : Z) : Z :=
  int64 (currentBucketEndTimeNs
         + int32 (numBucketsForward eventTimeNs currentBucketEndTimeNs - 1)
           * mBucketSizeNs c).

(** [DurationMetricProducer::flushIfNeededLocked]. *)
Definition flushIfNeededLocked (eventTimeNs : Z) (s : State) : State :=
  let currentBucketEndTimeNs := getCurrentBucketEndTimeNs s in
  if currentBucketEndTimeNs >? eventTimeNs then s
  else
    let s1 :=
      flushCurrentBucketLocked eventTimeNs
        (nextBucketNs eventTimeNs currentBucketEndTimeNs) s in
    with_bucketNum
      (int64 (mCurrentBucketNum s1
              + numBucketsForward eventTimeNs currentBucketEndTimeNs)) s1.

(** [DurationMetricProducer::hitGuardRailLocked]: the answer and the state
    after the telemetry calls ([mHasHitGuardrail] is a mutable member). *)
Definition hitGuardRailLocked (newKey : MetricDimensionKey) (s : State)
  : bool * State :=
  match mCurrentSlicedDurationTrackerMap s !! getDimensionKeyInWhat newKey with
  | None =>
      let size := Z.of_nat (size (mCurrentSlicedDurationTrackerMap s)) in
      if size >=? kDimensionKeySizeSoftLimit E then
        let newTupleCount := size + 1 in
        let s1 := note (noteMetricDimensionSize (mMetricId c) newTupleCount) s in
        if newTupleCount >? mDimensionHardLimit c then
          (true,
           note (noteHardDimensionLimitReached (mMetricId c))
             (with_guardrail true s1))
        else (false, s1)
      else (false, s)
  | Some _ => (false, s)
  end.

(** [DurationMetricProducer::createDurationTracker]: the tracker is built
    from the event key and the current bucket. *)
Definition createDurationTracker (eventKey : MetricDimensionKey) (s : State)
  : DurationTracker :=
  newDurationTracker E (mAggregationType c) eventKey
    (mCurrentBucketStartTimeNs s) (mCurrentBucketNum s).

(** The key under which [handleStartEvent] notes the start inside the
    tracker. *)
Definition internalDimensionKey (whatKey : Key) (eventValues : list FieldValue) : Key :=
  if mUseWhatDimensionAsInternalDimension c then whatKey
  else
    match mInternalDimensions c with
    | [] => DEFAULT_DIMENSION_KEY E
    | _ :: _ =>
        filterValues E (mInternalDimensions c) eventValues (DEFAULT_DIMENSION_KEY E)
    end.

(** [DurationMetricProducer::handleStartEvent]. *)
Definition handleStartEvent (eventKey : MetricDimensionKey)
    (conditionKeys : ConditionKey) (condition : bool) (eventTimeNs : Z)
    (eventValues : list FieldValue) (s : State) : State :=
  let whatKey := getDimensionKeyInWhat eventKey in
  let started (s2 : State) : State :=
    with_map
      (alter (noteStart E (internalDimensionKey whatKey eventValues) condition
                eventTimeNs conditionKeys (mDimensionHardLimit c))
         whatKey (mCurrentSlicedDurationTrackerMap s2)) s2 in
  match mCurrentSlicedDurationTrackerMap s !! whatKey with
  | None =>
      let '(hit, s1) := hitGuardRailLocked eventKey s in
      if hit then s1
      else
        started
          (with_map
             (<[whatKey := createDurationTracker eventKey s1]>
                (mCurrentSlicedDurationTrackerMap s1)) s1)
  | Some _ => started s
  end.

(** The stop-all branch: every tracker notes the stop and is erased when it
    has no accumulated duration left. *)
Definition handleStopAll (eventTimeNs : Z) (s : State) : State :=
  with_map
    (filter (fun kv => hasAccumulatedDuration E (snd kv) = true)
       (noteStopAll E eventTimeNs <$> mCurrentSlicedDurationTrackerMap s)) s.

(** The stop branch for the tracker filed under [dimensionInWhat]. *)
Definition handleStop (dimensionInWhat internalKey : Key) (eventTimeNs : Z)
    (s : State) : State :=
  match mCurrentSlicedDurationTrackerMap s !! dimensionInWhat with
  | Some tracker =>
      let tracker' := noteStop E internalKey eventTimeNs false tracker in
      if hasAccumulatedDuration E tracker' then
        with_map (<[dimensionInWhat := tracker']> (mCurrentSlicedDurationTrackerMap s)) s
      else
        with_map (delete dimensionInWhat (mCurrentSlicedDurationTrackerMap s)) s
  | None => s
  end.

(** [statePrimaryKeys]: one primary key per state atom that has a link. *)
Definition statePrimaryKeysOf (values : list FieldValue) : gmap Z Key :=
  foldl
    (fun (keys : gmap Z Key) stateLink =>
       <[stateAtomId stateLink :=
           getDimensionForState E values stateLink
             (default (DEFAULT_DIMENSION_KEY E) (keys !! stateAtomId stateLink))]>
         keys)
    ∅ (mMetric2StateLinks c).

(** [stateValuesKey]: the current value of every sliced state. *)
Definition stateValuesKeyOf (values : list FieldValue) : Key :=
  let statePrimaryKeys := statePrimaryKeysOf values in
  foldl
    (fun (stateValuesKey : Key) atomId =>
       let value :=
         match statePrimaryKeys !! atomId with
         | Some primaryKey => queryStateValue E atomId primaryKey
         | None => queryStateValue E atomId (DEFAULT_DIMENSION_KEY E)
         end in
       addValue E (mapStateValue E atomId value) stateValuesKey)
    (DEFAULT_DIMENSION_KEY E) (mSlicedStateAtoms c).

(** [dimensionInWhat] of an event. *)
Definition dimensionInWhatOf (values : list FieldValue) : Key :=
  match mDimensionsInWhat c with
  | [] => DEFAULT_DIMENSION_KEY E
  | _ :: _ => filterValues E (mDimensionsInWhat c) values (DEFAULT_DIMENSION_KEY E)
  end.

(** [conditionKey] of a start event: filled from the links when the
    condition is sliced, empty otherwise. *)
Definition conditionKeyOf (values : list FieldValue) : ConditionKey :=
  if mConditionSliced c then
    foldl
      (fun (conditionKey : ConditionKey) link =>
         <[conditionId link :=
             getDimensionForCondition E values link
               (default (DEFAULT_DIMENSION_KEY E) (conditionKey !! conditionId link))]>
           conditionKey)
      ∅ (mMetric2ConditionLinks c)
  else ∅.

(** The local [condition] that [handleMatchedLogEventValuesLocked] hands to
    [handleStartEvent]. *)
Definition startCondition (values : list FieldValue) (s : State) : bool :=
  let condition :=
    if mConditionSliced c then
      bool_decide
        (query E (mConditionTrackerIndex c) (conditionKeyOf values)
           (negb (mHasLinksToAllConditionDimensionsInTracker c)) = kTrue)
    else
      bool_decide (mCondition s = kTrue) in
  condition && mIsActive s.

(** [DurationMetricProducer::handleMatchedLogEventValuesLocked]. *)
Definition handleMatchedLogEventValuesLocked (matcherIndex : Z)
    (values : list FieldValue) (eventTimeNs : Z) (s : State) : State :=
  if eventTimeNs <? mTimeBaseNs c then s
  else
    let s := if mIsActive s then flushIfNeededLocked eventTimeNs s else s in
    if int32 matcherIndex =? mStopAllIndex c then handleStopAll eventTimeNs s
    else if negb (passesSampleCheckLocked E values) then s
    else
      let dimensionInWhat := dimensionInWhatOf values in
      let stateValuesKey := stateValuesKeyOf values in
      if int32 matcherIndex =? mStopIndex c then
        if mUseWhatDimensionAsInternalDimension c then
          handleStop dimensionInWhat dimensionInWhat eventTimeNs s
        else
          let internalDimensionKey :=
            match mInternalDimensions c with
            | [] => DEFAULT_DIMENSION_KEY E
            | _ :: _ =>
                filterValues E (mInternalDimensions c) values (DEFAULT_DIMENSION_KEY E)
            end in
          handleStop dimensionInWhat internalDimensionKey eventTimeNs s
      else
        handleStartEvent (dimensionInWhat, stateValuesKey) (conditionKeyOf values)
          (startCondition values s) eventTimeNs values s.

(** The enumerators of [ConditionState] as integers ([kTrue] is the only
    positive one), for the test [mUnSlicedPartCondition > 0]. *)
Definition conditionStateValue (cs : ConditionState) : Z :=
  match cs with
  | kNotEvaluated => -2
  | kUnknown => -1
  | kFalse => 0
  | kTrue => 1
  end.

(** [getDimensionForCondition(whatIt.first.getValues(), link, &key)] on a
    fresh key. *)
Definition linkedConditionDimensionKey (link : Metric2Condition) (whatKey : Key) : Key :=
  getDimensionForCondition E (getValues E whatKey) link (DEFAULT_DIMENSION_KEY E).

(** The two loops of [onSlicedConditionMayChangeLocked_opt1], from the point
    where [currentUnSlicedPartCondition] is known. *)
Definition notifyChangedDimensions (link : Metric2Condition)
    (currentUnSlicedPartCondition : bool) (eventTime : Z) (s : State) : State :=
  let trackerIndex := mConditionTrackerIndex c in
  let fromUnslicedPart :=
    with_map
      (map_imap
         (fun whatKey tracker =>
            match getSlicedDimensionMap E trackerIndex
                  !! linkedConditionDimensionKey link whatKey with
            | Some count =>
                if count >? 0
                then Some (onConditionChanged E currentUnSlicedPartCondition
                             eventTime tracker)
                else Some tracker
            | None => Some tracker
            end)
         (mCurrentSlicedDurationTrackerMap s)) s in
  match getChangedToTrueDimensions E trackerIndex,
        getChangedToFalseDimensions E trackerIndex with
  | Some dimensionsChangedToTrue, Some dimensionsChangedToFalse =>
      if bool_decide (dimensionsChangedToTrue = ∅)
         && bool_decide (dimensionsChangedToFalse = ∅)
      then fromUnslicedPart
      else if currentUnSlicedPartCondition then
        with_map
          (map_imap
             (fun whatKey tracker =>
                let key := linkedConditionDimensionKey link whatKey in
                let tracker1 :=
                  if bool_decide (key ∈ dimensionsChangedToTrue)
                  then onConditionChanged E true eventTime tracker else tracker in
                Some (if bool_decide (key ∈ dimensionsChangedToFalse)
                      then onConditionChanged E false eventTime tracker1
                      else tracker1))
             (mCurrentSlicedDurationTrackerMap s)) s
      else s
  | _, _ => fromUnslicedPart
  end.

(** [DurationMetricProducer::onSlicedConditionMayChangeLocked_opt1]. *)
Definition onSlicedConditionMayChangeLocked_opt1 (eventTime : Z) (s : State) : State :=
  match mMetric2ConditionLinks c with
  | [link] =>
      if negb (mHasLinksToAllConditionDimensionsInTracker c) then s
      else if negb (IsSimpleCondition E (mConditionTrackerIndex c)) then
        let unslicedPartState :=
          getUnSlicedPartConditionState E (mConditionTrackerIndex c) in
        if bool_decide (mUnSlicedPartCondition s = kFalse)
           && bool_decide (unslicedPartState = kFalse)
        then s
        else
          notifyChangedDimensions link (conditionStateValue unslicedPartState >? 0)
            eventTime (with_unsliced unslicedPartState s)
      else notifyChangedDimensions link true eventTime s
  | _ => s
  end.

(** [DurationMetricProducer::onSlicedConditionMayChangeInternalLocked]. *)
Definition onSlicedConditionMayChangeInternalLocked (eventTimeNs : Z) (s : State)
  : State :=
  if IsChangedDimensionTrackable E (mConditionTrackerIndex c)
     && mHasLinksToAllConditionDimensionsInTracker c
  then onSlicedConditionMayChangeLocked_opt1 eventTimeNs s
  else
    with_map
      (onSlicedConditionMayChange E eventTimeNs
         <$> mCurrentSlicedDurationTrackerMap s) s.

(** [DurationMetricProducer::onSlicedConditionMayChangeLocked]. *)
Definition onSlicedConditionMayChangeLocked (overallCondition : bool)
    (eventTime : Z) (s : State) : State :=
  if negb (mIsActive s) then s
  else
    let s1 := flushIfNeededLocked eventTime s in
    if negb (mConditionSliced c) then s1
    else onSlicedConditionMayChangeInternalLocked eventTime s1.

(** *** Frame lemmas: what each step leaves alone *)

Lemma handleStartEvent_bucket eventKey conditionKeys condition t values s :
  mCurrentBucketNum
    (handleStartEvent eventKey conditionKeys condition t values s)
  = mCurrentBucketNum s
  /\ mCurrentBucketStartTimeNs
       (handleStartEvent eventKey conditionKeys condition t values s)
     = mCurrentBucketStartTimeNs s.
Proof.
  unfold handleStartEvent, hitGuardRailLocked.
  destruct (mCurrentSlicedDurationTrackerMap s !! getDimensionKeyInWhat eventKey);
    [split; reflexivity|].
  destruct (_ >=? _); [destruct (_ >? _)|]; split; reflexivity.
Qed.

Lemma handleStop_bucket dimensionInWhat internalKey t s :
  mCurrentBucketNum (handleStop dimensionInWhat internalKey t s)
  = mCurrentBucketNum s
  /\ mCurrentBucketStartTimeNs (handleStop dimensionInWhat internalKey t s)
     = mCurrentBucketStartTimeNs s.
Proof.
  unfold handleStop.
  destruct (mCurrentSlicedDurationTrackerMap s !! dimensionInWhat);
    [destruct (hasAccumulatedDuration E _)|]; split; reflexivity.
Qed.

Lemma flushCurrentBucketLocked_fields t next s :
  mCurrentBucketNum (flushCurrentBucketLocked t next s) = mCurrentBucketNum s
  /\ mCurrentBucketStartTimeNs (flushCurrentBucketLocked t next s) = next
  /\ mHasHitGuardrail (flushCurrentBucketLocked t next s) = false
  /\ mCondition (flushCurrentBucketLocked t next s) = mCondition s
  /\ mIsActive (flushCurrentBucketLocked t next s) = mIsActive s
  /\ stats (flushCurrentBucketLocked t next s)
     = stats s ++ [noteBucketCount (mMetricId c)].
Proof.
  unfold flushCurrentBucketLocked.
  destruct (newBucketStart E t next (mConditionTimer s)) as [[trueNs corr] timer'].
  destruct (flushTrackers t trueNs _ _) as [m' past'].
  repeat split.
Qed.

Lemma flushIfNeededLocked_keeps_condition t s :
  mCondition (flushIfNeededLocked t s) = mCondition s
  /\ mIsActive (flushIfNeededLocked t s) = mIsActive s.
Proof.
  unfold flushIfNeededLocked.
  destruct (_ >? _); [split; reflexivity|]. simpl.
  destruct (flushCurrentBucketLocked_fields t
              (nextBucketNs t (getCurrentBucketEndTimeNs s)) s)
    as (_ & _ & _ & Hc & Ha & _).
  split; assumption.
Qed.

Lemma app_singleton_neq {A} (l : list A) (x : A) : l ++ [x] <> l.
Proof.
  intros Heq. apply (f_equal length) in Heq.
  rewrite length_app in Heq. simpl in Heq. lia.
Qed.

(** On the boundary exactly one bucket is stepped over and the next bucket
    starts at the event time. *)
Lemma numBucketsForward_boundary e : numBucketsForward e e = 1.
Proof.
  unfold numBucketsForward. rewrite Z.sub_diag.
  replace (int64 0) with 0 by reflexivity.
  change (Z.quot 0 (mBucketSizeNs c)) with 0. reflexivity.
Qed.

Lemma nextBucketNs_boundary e : in_int64 e -> nextBucketNs e e = e.
Proof.
  intros He. unfold nextBucketNs. rewrite numBucketsForward_boundary.
  replace (int32 (1 - 1)) with 0 by reflexivity.
  rewrite Z.mul_0_l, Z.add_0_r. apply int64_id, He.
Qed.

Lemma getCurrentBucketEndTimeNs_range s : in_int64 (getCurrentBucketEndTimeNs s).
Proof. apply int64_range. Qed.

(** *** The two paths of a sliced condition change *)

(** The dispatcher takes the fast path exactly when the changed dimensions
    are trackable and the single link covers the tracker's dimensions. *)
Lemma onSlicedConditionMayChangeInternalLocked_fast (eventTimeNs : Z) (s : State) :
  IsChangedDimensionTrackable E (mConditionTrackerIndex c) = true ->
  mHasLinksToAllConditionDimensionsInTracker c = true ->
  onSlicedConditionMayChangeInternalLocked eventTimeNs s
  = onSlicedConditionMayChangeLocked_opt1 eventTimeNs s.
Proof.
  intros Htrack Hlinks. unfold onSlicedConditionMayChangeInternalLocked.
  rewrite Htrack, Hlinks. reflexivity.
Qed.

(** On the generic path every live tracker is handed
    [onSlicedConditionMayChange]; what that does to the tracker is decided by
    the tracker (OringDurationTracker, MaxDurationTracker). *)
Lemma onSlicedConditionMayChangeInternalLocked_generic (eventTimeNs : Z) (s : State)
    (whatKey : Key) :
  IsChangedDimensionTrackable E (mConditionTrackerIndex c)
  && mHasLinksToAllConditionDimensionsInTracker c = false ->
  mCurrentSlicedDurationTrackerMap
    (onSlicedConditionMayChangeInternalLocked eventTimeNs s) !! whatKey
  = onSlicedConditionMayChange E eventTimeNs
      <$> mCurrentSlicedDurationTrackerMap s !! whatKey.
Proof.
  intros Hslow. unfold onSlicedConditionMayChangeInternalLocked.
  rewrite Hslow. simpl. apply lookup_fmap.
Qed.

(** The fast path returns at once while the unsliced part stays false. *)
Lemma onSlicedConditionMayChangeLocked_opt1_unsliced_false (eventTime : Z) (s : State) :
  IsSimpleCondition E (mConditionTrackerIndex c) = false ->
  mUnSlicedPartCondition s = kFalse ->
  getUnSlicedPartConditionState E (mConditionTrackerIndex c) = kFalse ->
  onSlicedConditionMayChangeLocked_opt1 eventTime s = s.
Proof.
  intros Hsimple Hold Hnew. unfold onSlicedConditionMayChangeLocked_opt1.
  destruct (mMetric2ConditionLinks c) as [|link [|? ?]]; try reflexivity.
  destruct (negb (mHasLinksToAllConditionDimensionsInTracker c)); [reflexivity|].
  rewrite Hsimple, Hold, Hnew. reflexivity.
Qed.

(** When the condition tracker reports changed dimensions and the unsliced
    part holds, the fast path leaves alone every tracker whose linked
    condition dimension is reported in neither set. *)
Lemma notifyChangedDimensions_unreported (link : Metric2Condition)
    (currentUnSlicedPartCondition : bool) (eventTime : Z) (s : State)
    (dimensionsChangedToTrue dimensionsChangedToFalse : gset Key) (whatKey : Key) :
  getChangedToTrueDimensions E (mConditionTrackerIndex c)
  = Some dimensionsChangedToTrue ->
  getChangedToFalseDimensions E (mConditionTrackerIndex c)
  = Some dimensionsChangedToFalse ->
  ~ (dimensionsChangedToTrue = ∅ /\ dimensionsChangedToFalse = ∅) ->
  linkedConditionDimensionKey link whatKey ∉ dimensionsChangedToTrue ->
  linkedConditionDimensionKey link whatKey ∉ dimensionsChangedToFalse ->
  mCurrentSlicedDurationTrackerMap
    (notifyChangedDimensions link currentUnSlicedPartCondition eventTime s)
    !! whatKey
  = mCurrentSlicedDurationTrackerMap s !! whatKey.
Proof.
  intros HtoTrue HtoFalse Hsome HnotTrue HnotFalse.
  unfold notifyChangedDimensions. rewrite HtoTrue, HtoFalse.
  destruct (bool_decide (dimensionsChangedToTrue = ∅)
            && bool_decide (dimensionsChangedToFalse = ∅)) eqn:Hempty.
  { apply andb_true_iff in Hempty as [H1 H2].
    apply bool_decide_eq_true in H1, H2. tauto. }
  destruct currentUnSlicedPartCondition; [|reflexivity].
  simpl. rewrite map_lookup_imap.
  destruct (mCurrentSlicedDurationTrackerMap s !! whatKey) as [tracker|];
    [|reflexivity].
  cbv zeta. simpl.
  rewrite (bool_decide_eq_false_2 _ HnotTrue), (bool_decide_eq_false_2 _ HnotFalse).
  reflexivity.
Qed.

(** A tracker whose linked condition dimension is reported as changed to
    true (and not to false) is told [onConditionChanged(true)]. *)
Lemma notifyChangedDimensions_changed_to_true (link : Metric2Condition)
    (eventTime : Z) (s : State)
    (dimensionsChangedToTrue dimensionsChangedToFalse : gset Key) (whatKey : Key) :
  getChangedToTrueDimensions E (mConditionTrackerIndex c)
  = Some dimensionsChangedToTrue ->
  getChangedToFalseDimensions E (mConditionTrackerIndex c)
  = Some dimensionsChangedToFalse ->
  linkedConditionDimensionKey link whatKey ∈ dimensionsChangedToTrue ->
  linkedConditionDimensionKey link whatKey ∉ dimensionsChangedToFalse ->
  mCurrentSlicedDurationTrackerMap
    (notifyChangedDimensions link true eventTime s) !! whatKey
  = onConditionChanged E true eventTime
      <$> mCurrentSlicedDurationTrackerMap s !! whatKey.
Proof.
  intros HtoTrue HtoFalse Hin HnotFalse.
  unfold notifyChangedDimensions. rewrite HtoTrue, HtoFalse.
  destruct (bool_decide (dimensionsChangedToTrue = ∅)
            && bool_decide (dimensionsChangedToFalse = ∅)) eqn:Hempty.
  { apply andb_true_iff in Hempty as [H1 _].
    apply bool_decide_eq_true in H1. rewrite H1 in Hin.
    apply not_elem_of_empty in Hin. contradiction. }
  simpl. rewrite map_lookup_imap.
  destruct (mCurrentSlicedDurationTrackerMap s !! whatKey) as [tracker|];
    [|reflexivity].
  cbv zeta. simpl.
  rewrite (bool_decide_eq_true_2 _ Hin), (bool_decide_eq_false_2 _ HnotFalse).
  reflexivity.
Qed.

(** *** C7 *)

(** C7: an event stamped strictly before the time base makes
    [handleMatchedLogEventValuesLocked] return at once: the whole producer
    state, hence the sliced duration tracker map, the past buckets, the
    current bucket number and the current bucket start time, is unchanged. *)
Theorem handleMatchedLogEventValuesLocked_before_time_base
    (matcherIndex : Z) (values : list FieldValue) (eventTimeNs : Z) (s : State) :
  eventTimeNs < mTimeBaseNs c ->
  let s' := handleMatchedLogEventValuesLocked matcherIndex values eventTimeNs s in
  s' = s
  /\ mCurrentSlicedDurationTrackerMap s' = mCurrentSlicedDurationTrackerMap s
  /\ mPastBuckets s' = mPastBuckets s
  /\ mCurrentBucketNum s' = mCurrentBucketNum s
  /\ mCurrentBucketStartTimeNs s' = mCurrentBucketStartTimeNs s.
Proof.
  intros Hlt s'.
  assert (Hs : s' = s).
  { subst s'. unfold handleMatchedLogEventValuesLocked.
    apply Z.ltb_lt in Hlt. rewrite Hlt. reflexivity. }
  rewrite Hs. repeat split.
Qed.

(** *** C6 *)

(** **** What a flush does to the trackers

    A flush adds no tracker: an untracked key stays untracked and the map
    does not grow. *)

Lemma flushTrackers_shrinks t trueNs (m : gmap Key DurationTracker) past :
  (forall k, m !! k = None -> fst (flushTrackers t trueNs m past) !! k = None)
  /\ (size (fst (flushTrackers t trueNs m past)) <= size m)%nat.
Proof.
  unfold flushTrackers.
  apply (map_fold_weak_ind
           (fun (r : gmap Key DurationTracker * PastBuckets) m =>
              (forall k, m !! k = None -> fst r !! k = None)
              /\ (size (fst r) <= size m)%nat)).
  - split; [intros k _; apply lookup_empty|].
    simpl. rewrite map_size_empty. lia.
  - intros i x m0 r Hi [Hnone Hsize].
    destruct (flushCurrentBucket E t trueNs x (snd r)) as [[erase tr'] past'].
    rewrite (map_size_insert_None i x m0 Hi).
    destruct erase; simpl.
    + split; [|lia]. intros k Hk. apply Hnone.
      destruct (decide (k = i)) as [->|Hne];
        [rewrite lookup_insert_eq in Hk; discriminate|].
      rewrite lookup_insert_ne in Hk by congruence. exact Hk.
    + split.
      * intros k Hk.
        destruct (decide (k = i)) as [->|Hne];
          [rewrite lookup_insert_eq in Hk; discriminate|].
        rewrite lookup_insert_ne in Hk by congruence.
        rewrite lookup_insert_ne by congruence. apply Hnone, Hk.
      * rewrite (map_size_insert_None i tr' (fst r) (Hnone i Hi)). lia.
Qed.

Lemma flushCurrentBucketLocked_shrinks t next s :
  (forall k, mCurrentSlicedDurationTrackerMap s !! k = None ->
     mCurrentSlicedDurationTrackerMap (flushCurrentBucketLocked t next s) !! k = None)
  /\ (size (mCurrentSlicedDurationTrackerMap (flushCurrentBucketLocked t next s))
      <= size (mCurrentSlicedDurationTrackerMap s))%nat.
Proof.
  unfold flushCurrentBucketLocked.
  destruct (newBucketStart E t next (mConditionTimer s)) as [[trueNs corr] timer'].
  destruct (flushTrackers_shrinks t trueNs (mCurrentSlicedDurationTrackerMap s)
              (mPastBuckets s)) as [Hnone Hsize].
  destruct (flushTrackers t trueNs _ _) as [m' past']. simpl in *.
  split; assumption.
Qed.

Lemma flushIfNeededLocked_shrinks t s :
  (forall k, mCurrentSlicedDurationTrackerMap s !! k = None ->
     mCurrentSlicedDurationTrackerMap (flushIfNeededLocked t s) !! k = None)
  /\ (size (mCurrentSlicedDurationTrackerMap (flushIfNeededLocked t s))
      <= size (mCurrentSlicedDurationTrackerMap s))%nat.
Proof.
  unfold flushIfNeededLocked.
  destruct (_ >? _); [split; [auto|lia]|].
  apply flushCurrentBucketLocked_shrinks.
Qed.

(** The loop flushes every tracker once: a tracker that answers [true] is
    erased, the others stay as [flushCurrentBucket] left them. [past0] is
    [mPastBuckets] as the trackers flushed before this one left it. *)
Lemma flushTrackers_lookup t trueNs (m : gmap Key DurationTracker) past k :
  match m !! k with
  | Some tracker =>
      exists past0,
        fst (flushTrackers t trueNs m past) !! k
        = if fst (fst (flushCurrentBucket E t trueNs tracker past0)) then None
          else Some (snd (fst (flushCurrentBucket E t trueNs tracker past0)))
  | None => fst (flushTrackers t trueNs m past) !! k = None
  end.
Proof.
  unfold flushTrackers. revert k.
  apply (map_fold_weak_ind
           (fun (r : gmap Key DurationTracker * PastBuckets) m =>
              forall k,
                match m !! k with
                | Some tracker =>
                    exists past0,
                      fst r !! k
                      = if fst (fst (flushCurrentBucket E t trueNs tracker past0))
                        then None
                        else Some (snd (fst (flushCurrentBucket E t trueNs tracker past0)))
                | None => fst r !! k = None
                end)).
  - intros k. rewrite lookup_empty. apply lookup_empty.
  - intros i x m0 r Hi IH k.
    destruct (decide (k = i)) as [->|Hne].
    + rewrite lookup_insert_eq. exists (snd r).
      specialize (IH i). rewrite Hi in IH.
      destruct (flushCurrentBucket E t trueNs x (snd r)) as [[erase tr'] past'].
      destruct erase; simpl; [exact IH | apply lookup_insert_eq].
    + rewrite lookup_insert_ne by congruence. specialize (IH k).
      assert (Hsame :
        fst (let '(erase, tracker', past') :=
               flushCurrentBucket E t trueNs x (snd r) in
             (if erase : bool then fst r else <[i := tracker']> (fst r), past')) !! k
        = fst r !! k).
      { destruct (flushCurrentBucket E t trueNs x (snd r)) as [[erase tr'] past'].
        destruct erase; simpl; [reflexivity|].
        rewrite lookup_insert_ne by congruence. reflexivity. }
      rewrite Hsame. exact IH.
Qed.

(** The trackers flush into [mPastBuckets] one after the other, each once. *)
Lemma flushTrackers_past t trueNs (m : gmap Key DurationTracker) past :
  snd (flushTrackers t trueNs m past)
  = foldl (fun past0 entry => snd (flushCurrentBucket E t trueNs (snd entry) past0))
      past (reverse (map_to_list m)).
Proof.
  unfold flushTrackers. rewrite map_fold_foldr.
  induction (map_to_list m) as [|[k tracker] l IH]; [reflexivity|].
  rewrite reverse_cons, foldl_app. cbn [foldl foldr]. rewrite <- IH.
  unfold uncurry at 1. cbn [fst snd].
  destruct (flushCurrentBucket E t trueNs tracker _) as [[erase tr'] past'].
  reflexivity.
Qed.

(** [flushCurrentBucketLocked], member by member. *)
Lemma flushCurrentBucketLocked_closes t next s :
  let started := newBucketStart E t next (mConditionTimer s) in
  let s1 := flushCurrentBucketLocked t next s in
  mConditionTimer s1 = snd started
  /\ mUnSlicedPartCondition s1 = mUnSlicedPartCondition s
  /\ mPastBuckets s1
     = foldl (fun past0 entry =>
                snd (flushCurrentBucket E t (fst (fst started)) (snd entry) past0))
         (mPastBuckets s) (reverse (map_to_list (mCurrentSlicedDurationTrackerMap s)))
  /\ (forall whatKey,
        match mCurrentSlicedDurationTrackerMap s !! whatKey with
        | Some tracker =>
            exists past0,
              mCurrentSlicedDurationTrackerMap s1 !! whatKey
              = if fst (fst (flushCurrentBucket E t (fst (fst started)) tracker past0))
                then None
                else Some (snd (fst (flushCurrentBucket E t (fst (fst started))
                                       tracker past0)))
        | None => mCurrentSlicedDurationTrackerMap s1 !! whatKey = None
        end).
Proof.
  intros started s1. subst started s1. unfold flushCurrentBucketLocked.
  destruct (newBucketStart E t next (mConditionTimer s)) as [[trueNs corr] timer'].
  cbn [fst snd].
  assert (Hpast := flushTrackers_past t trueNs (mCurrentSlicedDurationTrackerMap s)
                     (mPastBuckets s)).
  assert (Hlookup := flushTrackers_lookup t trueNs (mCurrentSlicedDurationTrackerMap s)
                       (mPastBuckets s)).
  destruct (flushTrackers t trueNs _ _) as [m' past']. cbn [fst snd] in *.
  split; [reflexivity|]. split; [reflexivity|]. split; [exact Hpast|exact Hlookup].
Qed.

(** Start and stop events leave the past buckets and the condition timer
    alone. *)
Lemma handleStartEvent_past eventKey conditionKeys condition t values s :
  mPastBuckets (handleStartEvent eventKey conditionKeys condition t values s)
  = mPastBuckets s
  /\ mConditionTimer (handleStartEvent eventKey conditionKeys condition t values s)
     = mConditionTimer s.
Proof.
  unfold handleStartEvent, hitGuardRailLocked.
  destruct (mCurrentSlicedDurationTrackerMap s !! getDimensionKeyInWhat eventKey);
    [split; reflexivity|].
  destruct (_ >=? _); [destruct (_ >? _)|]; split; reflexivity.
Qed.

Lemma handleStop_past dimensionInWhat internalKey t s :
  mPastBuckets (handleStop dimensionInWhat internalKey t s) = mPastBuckets s
  /\ mConditionTimer (handleStop dimensionInWhat internalKey t s)
     = mConditionTimer s.
Proof.
  unfold handleStop.
  destruct (mCurrentSlicedDurationTrackerMap s !! dimensionInWhat);
    [destruct (hasAccumulatedDuration E _)|]; split; reflexivity.
Qed.

(** An event at or after the time base is processed in the bucket that is
    current once an active producer has flushed; an inactive producer does
    not flush. Processing the event itself closes no bucket. *)
Lemma handleMatchedLogEventValuesLocked_bucket matcherIndex values t s :
  mTimeBaseNs c <= t ->
  let current := if mIsActive s then flushIfNeededLocked t s else s in
  let s'' := handleMatchedLogEventValuesLocked matcherIndex values t s in
  mCurrentBucketNum s'' = mCurrentBucketNum current
  /\ mCurrentBucketStartTimeNs s'' = mCurrentBucketStartTimeNs current
  /\ mPastBuckets s'' = mPastBuckets current
  /\ mConditionTimer s'' = mConditionTimer current.
Proof.
  intros Hbase current s''. subst s''.
  unfold handleMatchedLogEventValuesLocked.
  destruct (t <? mTimeBaseNs c) eqn:Hlt; [apply Z.ltb_lt in Hlt; lia|].
  fold current.
  destruct (int32 matcherIndex =? mStopAllIndex c); [repeat split|].
  destruct (negb (passesSampleCheckLocked E values)); [repeat split|].
  destruct (int32 matcherIndex =? mStopIndex c).
  - destruct (mUseWhatDimensionAsInternalDimension c);
      match goal with
      | |- context [handleStop ?a ?b ?u ?x] =>
          destruct (handleStop_bucket a b u x) as [-> ->];
          destruct (handleStop_past a b u x) as [-> ->]
      end; repeat split.
  - match goal with
    | |- context [handleStartEvent ?a ?b ?d ?u ?v ?x] =>
        destruct (handleStartEvent_bucket a b d u v x) as [-> ->];
        destruct (handleStartEvent_past a b d u v x) as [-> ->]
    end; repeat split.
Qed.

(** A start event (neither the stop nor the stop-all matcher) that passes
    the sample check is handed to [handleStartEvent] in that bucket. *)
Lemma handleMatchedLogEventValuesLocked_start matcherIndex values t s :
  mTimeBaseNs c <= t ->
  int32 matcherIndex <> mStopAllIndex c ->
  int32 matcherIndex <> mStopIndex c ->
  passesSampleCheckLocked E values = true ->
  let current := if mIsActive s then flushIfNeededLocked t s else s in
  handleMatchedLogEventValuesLocked matcherIndex values t s
  = handleStartEvent (dimensionInWhatOf values, stateValuesKeyOf values)
      (conditionKeyOf values) (startCondition values s) t values current.
Proof.
  intros Hbase Hall Hstop Hsample current.
  unfold handleMatchedLogEventValuesLocked.
  destruct (t <? mTimeBaseNs c) eqn:Hlt; [apply Z.ltb_lt in Hlt; lia|].
  fold current.
  destruct (int32 matcherIndex =? mStopAllIndex c) eqn:Ha;
    [apply Z.eqb_eq in Ha; contradiction|].
  rewrite Hsample. cbn [negb].
  destruct (int32 matcherIndex =? mStopIndex c) eqn:Hs;
    [apply Z.eqb_eq in Hs; contradiction|].
  f_equal. unfold startCondition. subst current.
  destruct (mIsActive s) eqn:Hact; [|rewrite Hact; reflexivity].
  destruct (flushIfNeededLocked_keeps_condition t s) as [-> ->].
  rewrite Hact. reflexivity.
Qed.

(** Below the soft limit a start event for an untracked key creates its
    tracker in the current bucket and notes the start in it. *)
Lemma handleStartEvent_creates eventKey conditionKeys condition t values s :
  mCurrentSlicedDurationTrackerMap s !! getDimensionKeyInWhat eventKey = None ->
  Z.of_nat (size (mCurrentSlicedDurationTrackerMap s)) < kDimensionKeySizeSoftLimit E ->
  mCurrentSlicedDurationTrackerMap
    (handleStartEvent eventKey conditionKeys condition t values s)
    !! getDimensionKeyInWhat eventKey
  = Some (noteStart E (internalDimensionKey (getDimensionKeyInWhat eventKey) values)
            condition t conditionKeys (mDimensionHardLimit c)
            (newDurationTracker E (mAggregationType c) eventKey
               (mCurrentBucketStartTimeNs s) (mCurrentBucketNum s))).
Proof.
  intros Hnone Hsoft. unfold handleStartEvent, hitGuardRailLocked.
  rewrite Hnone.
  destruct (Z.of_nat (size (mCurrentSlicedDurationTrackerMap s))
            >=? kDimensionKeySizeSoftLimit E) eqn:Hge.
  { rewrite Z.geb_leb in Hge. apply Z.leb_le in Hge. lia. }
  simpl. rewrite lookup_alter_eq, lookup_insert_eq. reflexivity.
Qed.

(** C6 (amended): [flushIfNeededLocked] closes the current bucket exactly
    when the event time has reached the end of the current bucket. Closing
    means: every duration tracker flushes its current bucket into
    [mPastBuckets], each once, and is erased when it answers true; the
    condition timer starts a new bucket; one [noteBucketCount] is reported;
    [mHasHitGuardrail] is reset; the bucket number and the bucket start
    advance. Otherwise nothing changes. An event stamped exactly at the
    boundary makes it flush: the new bucket starts at the event's timestamp
    and carries the next number. [handleMatchedLogEventValuesLocked] performs
    that flush before it processes an event only when the producer is
    active: an active producer then processes the event, and creates the
    tracker of a start event, in the new bucket, while an inactive producer
    does not flush and processes the event in the bucket that was current. *)
Theorem flushIfNeededLocked_closes_iff_at_or_after_end
    (matcherIndex : Z) (values : list FieldValue) (eventTimeNs : Z) (s : State) :
  let currentBucketEndTimeNs := getCurrentBucketEndTimeNs s in
  let s' := flushIfNeededLocked eventTimeNs s in
  let nextBucketStartTimeNs := nextBucketNs eventTimeNs currentBucketEndTimeNs in
  let started :=
    newBucketStart E eventTimeNs nextBucketStartTimeNs (mConditionTimer s) in
  let flushed tracker past :=
    flushCurrentBucket E eventTimeNs (fst (fst started)) tracker past in
  let closed :=
    stats s' = stats s ++ [noteBucketCount (mMetricId c)]
    /\ mCurrentBucketNum s'
       = int64 (mCurrentBucketNum s
                + numBucketsForward eventTimeNs currentBucketEndTimeNs)
    /\ mCurrentBucketStartTimeNs s' = nextBucketStartTimeNs
    /\ mHasHitGuardrail s' = false
    /\ mConditionTimer s' = snd started
    /\ (exists order,
          Permutation order (map_to_list (mCurrentSlicedDurationTrackerMap s))
          /\ mPastBuckets s'
             = foldl (fun past entry => snd (flushed (snd entry) past))
                 (mPastBuckets s) order)
    /\ (forall whatKey,
          match mCurrentSlicedDurationTrackerMap s !! whatKey with
          | Some tracker =>
              exists past,
                mCurrentSlicedDurationTrackerMap s' !! whatKey
                = if fst (fst (flushed tracker past)) then None
                  else Some (snd (fst (flushed tracker past)))
          | None => mCurrentSlicedDurationTrackerMap s' !! whatKey = None
          end)
    /\ mCondition s' = mCondition s
    /\ mIsActive s' = mIsActive s
    /\ mUnSlicedPartCondition s' = mUnSlicedPartCondition s in
  let s'' := handleMatchedLogEventValuesLocked matcherIndex values eventTimeNs s in
  let current := if mIsActive s then s' else s in
  (closed <-> currentBucketEndTimeNs <= eventTimeNs)
  /\ (stats s' = stats s ++ [noteBucketCount (mMetricId c)]
      <-> currentBucketEndTimeNs <= eventTimeNs)
  /\ (s' = s <-> eventTimeNs < currentBucketEndTimeNs)
  /\ (eventTimeNs = currentBucketEndTimeNs ->
      mCurrentBucketStartTimeNs s' = eventTimeNs
      /\ mCurrentBucketNum s' = int64 (mCurrentBucketNum s + 1))
  /\ (mTimeBaseNs c <= eventTimeNs ->
      (mIsActive s = true ->
       mCurrentBucketStartTimeNs s'' = mCurrentBucketStartTimeNs s'
       /\ mCurrentBucketNum s'' = mCurrentBucketNum s'
       /\ (eventTimeNs = currentBucketEndTimeNs ->
           mCurrentBucketStartTimeNs s'' = eventTimeNs
           /\ mCurrentBucketNum s'' = int64 (mCurrentBucketNum s + 1)))
      /\ (mIsActive s = false ->
          mCurrentBucketStartTimeNs s'' = mCurrentBucketStartTimeNs s
          /\ mCurrentBucketNum s'' = mCurrentBucketNum s
          /\ mPastBuckets s'' = mPastBuckets s
          /\ mConditionTimer s'' = mConditionTimer s)
      /\ (int32 matcherIndex <> mStopAllIndex c ->
          int32 matcherIndex <> mStopIndex c ->
          passesSampleCheckLocked E values = true ->
          mCurrentSlicedDurationTrackerMap s !! dimensionInWhatOf values = None ->
          Z.of_nat (size (mCurrentSlicedDurationTrackerMap s))
          < kDimensionKeySizeSoftLimit E ->
          mCurrentSlicedDurationTrackerMap s'' !! dimensionInWhatOf values
          = Some (noteStart E
                    (internalDimensionKey (dimensionInWhatOf values) values)
                    (startCondition values s) eventTimeNs (conditionKeyOf values)
                    (mDimensionHardLimit c)
                    (newDurationTracker E (mAggregationType c)
                       (dimensionInWhatOf values, stateValuesKeyOf values)
                       (mCurrentBucketStartTimeNs current)
                       (mCurrentBucketNum current))))).
Proof.
  intros e s' next started flushed closed s'' current.
  assert (Hflush : e <= eventTimeNs ->
            s' = with_bucketNum
                   (int64 (mCurrentBucketNum s + numBucketsForward eventTimeNs e))
                   (flushCurrentBucketLocked eventTimeNs next s)).
  { intros Hle. subst s' next. unfold flushIfNeededLocked. fold e.
    destruct (e >? eventTimeNs) eqn:Hgt; [apply Z.gtb_lt in Hgt; lia|].
    destruct (flushCurrentBucketLocked_fields eventTimeNs
                (nextBucketNs eventTimeNs e) s) as (Hn & _).
    rewrite Hn. reflexivity. }
  assert (Hkeep : eventTimeNs < e -> s' = s).
  { intros Hlt. subst s'. unfold flushIfNeededLocked. fold e.
    destruct (e >? eventTimeNs) eqn:Hgt; [reflexivity|].
    rewrite Z.gtb_ltb in Hgt. apply Z.ltb_ge in Hgt. lia. }
  assert (Hclosed : e <= eventTimeNs -> closed).
  { intros Hle. subst closed. rewrite (Hflush Hle). cbn [with_bucketNum
      stats mCurrentBucketNum mCurrentBucketStartTimeNs mHasHitGuardrail
      mConditionTimer mPastBuckets mCurrentSlicedDurationTrackerMap mCondition
      mIsActive mUnSlicedPartCondition].
    destruct (flushCurrentBucketLocked_fields eventTimeNs next s)
      as (_ & Hstart & Hguard & Hcond & Hact & Hstats).
    destruct (flushCurrentBucketLocked_closes eventTimeNs next s)
      as (Htimer & Hunsliced & Hpast & Hlookup).
    split; [exact Hstats|]. split; [reflexivity|]. split; [exact Hstart|].
    split; [exact Hguard|]. split; [exact Htimer|].
    split.
    { exists (reverse (map_to_list (mCurrentSlicedDurationTrackerMap s))).
      split; [apply reverse_Permutation | exact Hpast]. }
    split; [exact Hlookup|].
    split; [exact Hcond|]. split; [exact Hact | exact Hunsliced]. }
  assert (Hstats : e <= eventTimeNs ->
            stats s' = stats s ++ [noteBucketCount (mMetricId c)]).
  { intros Hle. exact (proj1 (Hclosed Hle)). }
  assert (Hearly : stats s' = stats s ++ [noteBucketCount (mMetricId c)] ->
            e <= eventTimeNs).
  { intros Hgrow. destruct (Z.le_gt_cases e eventTimeNs) as [|Hlt]; [assumption|].
    rewrite (Hkeep Hlt) in Hgrow. symmetry in Hgrow.
    exfalso. exact (app_singleton_neq _ _ Hgrow). }
  assert (Hbound : eventTimeNs = e ->
            mCurrentBucketStartTimeNs s' = eventTimeNs
            /\ mCurrentBucketNum s' = int64 (mCurrentBucketNum s + 1)).
  { intros Heq. destruct (Hclosed (Z.eq_le_incl _ _ (eq_sym Heq)))
      as (_ & Hnum & Hstart & _).
    rewrite Hnum, Hstart. subst next. rewrite Heq.
    rewrite numBucketsForward_boundary. split; [|reflexivity].
    apply nextBucketNs_boundary, getCurrentBucketEndTimeNs_range. }
  split; [split; [intros Hc; exact (Hearly (proj1 Hc)) | exact Hclosed]|].
  split; [split; [exact Hearly | exact Hstats]|].
  split.
  { split; [|exact Hkeep].
    intros Hsame. destruct (Z.le_gt_cases e eventTimeNs) as [Hle|]; [|assumption].
    specialize (Hstats Hle). rewrite Hsame in Hstats. symmetry in Hstats.
    exfalso. exact (app_singleton_neq _ _ Hstats). }
  split; [exact Hbound|].
  intros Hbase.
  destruct (handleMatchedLogEventValuesLocked_bucket matcherIndex values eventTimeNs s
              Hbase) as (Hnum & Hstart & Hpast & Htimer).
  fold s' in Hnum, Hstart, Hpast, Htimer. fold s'' in Hnum, Hstart, Hpast, Htimer.
  fold current in Hnum, Hstart, Hpast, Htimer.
  split; [|split].
  - intros Hact. subst current. rewrite Hact in Hnum, Hstart.
    split; [exact Hstart|]. split; [exact Hnum|].
    intros Heq. destruct (Hbound Heq) as [Hs Hn].
    rewrite Hstart, Hnum. split; assumption.
  - intros Hact. subst current. rewrite Hact in Hnum, Hstart, Hpast, Htimer.
    split; [exact Hstart|]. split; [exact Hnum|]. split; assumption.
  - intros Hall Hstop Hsample Hnone Hsoft. subst s''.
    rewrite (handleMatchedLogEventValuesLocked_start matcherIndex values eventTimeNs s
               Hbase Hall Hstop Hsample).
    fold s'. fold current.
    apply (handleStartEvent_creates
             (dimensionInWhatOf values, stateValuesKeyOf values)).
    + subst current. destruct (mIsActive s); [|exact Hnone].
      apply flushIfNeededLocked_shrinks, Hnone.
    + subst current. destruct (mIsActive s); [|exact Hsoft].
      destruct (flushIfNeededLocked_shrinks eventTimeNs s) as [_ Hsize].
      fold s' in Hsize. lia.
Qed.

(** *** C5 *)

(** C5: for a start event whose whatKey is not tracked yet, with [n] the
    number of tracked keys: if [n + 1] exceeds the hard limit the event is
    dropped (the tracker map is untouched, no tracker is created) and the
    telemetry records the tuple count and the hard-limit hit; if [n] has
    reached the soft limit and [n + 1] stays within the hard limit, the tuple
    count is reported and nothing else, and the key is admitted with a fresh
    tracker that notes the start. The soft limit is assumed not to exceed
    the hard limit, as their names say. *)
Theorem handleStartEvent_guardrail
    (eventKey : MetricDimensionKey) (conditionKeys : ConditionKey)
    (condition : bool) (eventTimeNs : Z) (eventValues : list FieldValue)
    (s : State) :
  mCurrentSlicedDurationTrackerMap s !! getDimensionKeyInWhat eventKey = None ->
  kDimensionKeySizeSoftLimit E <= mDimensionHardLimit c ->
  let whatKey := getDimensionKeyInWhat eventKey in
  let n := Z.of_nat (size (mCurrentSlicedDurationTrackerMap s)) in
  let s' :=
    handleStartEvent eventKey conditionKeys condition eventTimeNs eventValues s in
  (n + 1 > mDimensionHardLimit c ->
     mCurrentSlicedDurationTrackerMap s' = mCurrentSlicedDurationTrackerMap s
     /\ mCurrentSlicedDurationTrackerMap s' !! whatKey = None
     /\ mPastBuckets s' = mPastBuckets s
     /\ mHasHitGuardrail s' = true
     /\ stats s' = stats s ++ [noteMetricDimensionSize (mMetricId c) (n + 1);
                               noteHardDimensionLimitReached (mMetricId c)])
  /\ (kDimensionKeySizeSoftLimit E <= n -> n + 1 <= mDimensionHardLimit c ->
      stats s' = stats s ++ [noteMetricDimensionSize (mMetricId c) (n + 1)]
      /\ mHasHitGuardrail s' = mHasHitGuardrail s
      /\ mCurrentSlicedDurationTrackerMap s' =
           <[whatKey :=
               noteStart E (internalDimensionKey whatKey eventValues) condition
                 eventTimeNs conditionKeys (mDimensionHardLimit c)
                 (createDurationTracker eventKey s)]>
             (mCurrentSlicedDurationTrackerMap s)
      /\ Z.of_nat (size (mCurrentSlicedDurationTrackerMap s')) = n + 1).
Proof.
  intros Hnew Hlimits whatKey n s'. subst s' whatKey.
  unfold handleStartEvent, hitGuardRailLocked. rewrite Hnew. fold n.
  split.
  - intros Hhard.
    destruct (n >=? kDimensionKeySizeSoftLimit E) eqn:Hsoft;
      [|rewrite Z.geb_leb in Hsoft; apply Z.leb_gt in Hsoft; lia].
    destruct (n + 1 >? mDimensionHardLimit c) eqn:Hgt;
      [|rewrite Z.gtb_ltb in Hgt; apply Z.ltb_ge in Hgt; lia].
    simpl. rewrite <- app_assoc. repeat split. exact Hnew.
  - intros Hsoft Hhard.
    destruct (n >=? kDimensionKeySizeSoftLimit E) eqn:Hsoft';
      [|rewrite Z.geb_leb in Hsoft'; apply Z.leb_gt in Hsoft'; lia].
    destruct (n + 1 >? mDimensionHardLimit c) eqn:Hgt;
      [apply Z.gtb_lt in Hgt; lia|].
    simpl. rewrite alter_insert_eq.
    repeat split.
    rewrite map_size_insert_None by exact Hnew. subst n. lia.
Qed.

(** *** C9 *)

Lemma flushIfNeededLocked_with_condition cs t s :
  flushIfNeededLocked t (with_condition cs s)
  = with_condition cs (flushIfNeededLocked t (with_condition kFalse s)).
Proof.
  unfold flushIfNeededLocked.
  change (getCurrentBucketEndTimeNs (with_condition cs s))
    with (getCurrentBucketEndTimeNs s).
  change (getCurrentBucketEndTimeNs (with_condition kFalse s))
    with (getCurrentBucketEndTimeNs s).
  destruct (getCurrentBucketEndTimeNs s >? t); [reflexivity|].
  unfold flushCurrentBucketLocked. simpl.
  destruct (newBucketStart E t _ (mConditionTimer s)) as [[trueNs corr] timer'].
  destruct (flushTrackers t trueNs _ _) as [m' past'].
  reflexivity.
Qed.

Lemma handleStartEvent_with_condition cs eventKey conditionKeys condition t values s :
  handleStartEvent eventKey conditionKeys condition t values (with_condition cs s)
  = with_condition cs
      (handleStartEvent eventKey conditionKeys condition t values s).
Proof.
  unfold handleStartEvent, hitGuardRailLocked. simpl.
  destruct (mCurrentSlicedDurationTrackerMap s !! getDimensionKeyInWhat eventKey);
    [reflexivity|].
  destruct (_ >=? _); [destruct (_ >? _)|]; reflexivity.
Qed.

Lemma handleStop_with_condition cs dimensionInWhat internalKey t s :
  handleStop dimensionInWhat internalKey t (with_condition cs s)
  = with_condition cs (handleStop dimensionInWhat internalKey t s).
Proof.
  unfold handleStop. simpl.
  destruct (mCurrentSlicedDurationTrackerMap s !! dimensionInWhat);
    [destruct (hasAccumulatedDuration E _)|]; reflexivity.
Qed.

Lemma with_condition_twice cs cs' s :
  with_condition cs (with_condition cs' s) = with_condition cs s.
Proof. reflexivity. Qed.

(** C9: when the condition is not sliced, the condition handed to
    [handleStartEvent] is [(mCondition == kTrue) && mIsActive]; a producer
    whose condition is unknown therefore handles every matched event exactly
    as the same producer with a false condition does. *)
Theorem unsliced_start_condition_unknown_as_false
    (matcherIndex : Z) (values : list FieldValue) (eventTimeNs : Z) (s : State) :
  mConditionSliced c = false ->
  startCondition values s = bool_decide (mCondition s = kTrue) && mIsActive s
  /\ (mTimeBaseNs c <= eventTimeNs ->
      int32 matcherIndex <> mStopAllIndex c ->
      int32 matcherIndex <> mStopIndex c ->
      passesSampleCheckLocked E values = true ->
      let s1 := if mIsActive s then flushIfNeededLocked eventTimeNs s else s in
      handleMatchedLogEventValuesLocked matcherIndex values eventTimeNs s
      = handleStartEvent (dimensionInWhatOf values, stateValuesKeyOf values) ∅
          (bool_decide (mCondition s = kTrue) && mIsActive s)
          eventTimeNs values s1)
  /\ startCondition values (with_condition kUnknown s) = false
  /\ handleMatchedLogEventValuesLocked matcherIndex values eventTimeNs
       (with_condition kUnknown s)
     = with_condition kUnknown
         (handleMatchedLogEventValuesLocked matcherIndex values eventTimeNs
            (with_condition kFalse s)).
Proof.
  intros Hunsliced.
  assert (Hcond : forall s0,
            startCondition values s0
            = bool_decide (mCondition s0 = kTrue) && mIsActive s0).
  { intros s0. unfold startCondition. rewrite Hunsliced. reflexivity. }
  split; [apply Hcond|]. split; [|split].
  - intros Hbase HnotAll HnotStop Hsample s1.
    unfold handleMatchedLogEventValuesLocked.
    destruct (eventTimeNs <? mTimeBaseNs c) eqn:Hlt;
      [apply Z.ltb_lt in Hlt; lia|].
    apply Z.eqb_neq in HnotAll, HnotStop.
    rewrite HnotAll, HnotStop, Hsample. simpl. fold s1.
    rewrite Hcond. unfold conditionKeyOf. rewrite Hunsliced.
    assert (Hsame : mCondition s1 = mCondition s /\ mIsActive s1 = mIsActive s).
    { subst s1. destruct (flushIfNeededLocked_keeps_condition eventTimeNs s).
      destruct (mIsActive s) eqn:Hact; split; congruence. }
    destruct Hsame as [-> ->]. reflexivity.
  - rewrite Hcond. reflexivity.
  - unfold handleMatchedLogEventValuesLocked.
    destruct (eventTimeNs <? mTimeBaseNs c); [reflexivity|].
    change (mIsActive (with_condition kUnknown s)) with (mIsActive s).
    change (mIsActive (with_condition kFalse s)) with (mIsActive s).
    set (u := if mIsActive s then flushIfNeededLocked eventTimeNs (with_condition kUnknown s)
              else with_condition kUnknown s).
    set (f := if mIsActive s then flushIfNeededLocked eventTimeNs (with_condition kFalse s)
              else with_condition kFalse s).
    assert (Huf : u = with_condition kUnknown f).
    { subst u f. destruct (mIsActive s); [|reflexivity].
      apply flushIfNeededLocked_with_condition. }
    assert (Hfalse : mCondition f = kFalse).
    { subst f. destruct (mIsActive s); [|reflexivity].
      unfold flushIfNeededLocked.
      destruct (_ >? _); [reflexivity|]. simpl.
      match goal with
      | |- context [flushCurrentBucketLocked ?t ?n ?x] =>
          destruct (flushCurrentBucketLocked_fields t n x) as (_ & _ & _ & -> & _)
      end. reflexivity. }
    rewrite Huf.
    destruct (int32 matcherIndex =? mStopAllIndex c); [reflexivity|].
    destruct (negb (passesSampleCheckLocked E values)); [reflexivity|].
    destruct (int32 matcherIndex =? mStopIndex c).
    + destruct (mUseWhatDimensionAsInternalDimension c);
        apply handleStop_with_condition.
    + rewrite handleStartEvent_with_condition. f_equal. f_equal.
      rewrite !Hcond. simpl. rewrite Hfalse. reflexivity.
Qed.

(** *** Further behaviour of the producer

    The rest of this section covers what the producer does around the
    points above: how far a flush moves the current bucket, what stop
    events and condition changes do to the tracker map, and the bound the
    guardrail keeps on the number of tracked dimensions. *)

(** [ConditionTimer::onConditionChanged]; ConditionTimer.h is not among the
    sources. *)
Variable timerOnConditionChanged : bool -> Z -> ConditionTimer -> ConditionTimer.

Definition with_timer (timer : ConditionTimer) (s : State) : State :=
  {| mCurrentBucketNum := mCurrentBucketNum s;
     mCurrentBucketStartTimeNs := mCurrentBucketStartTimeNs s;
     mCondition := mCondition s;
     mIsActive := mIsActive s;
     mHasHitGuardrail := mHasHitGuardrail s;
     mUnSlicedPartCondition := mUnSlicedPartCondition s;
     mCurrentSlicedDurationTrackerMap := mCurrentSlicedDurationTrackerMap s;
     mPastBuckets := mPastBuckets s;
     mConditionTimer := timer;
     stats := stats s |}.

(** [DurationMetricProducer::onConditionChangedLocked]. The timer is handed
    [mCondition], a [ConditionState] converted to [bool] (non-zero is
    true). *)
Definition onConditionChangedLocked (conditionMet : bool) (eventTime : Z)
    (s : State) : State :=
  let s0 := with_condition (if conditionMet then kTrue else kFalse) s in
  if negb (mIsActive s0) then s0
  else
    let s1 := flushIfNeededLocked eventTime s0 in
    let s2 :=
      with_map
        (onConditionChanged E conditionMet eventTime
           <$> mCurrentSlicedDurationTrackerMap s1) s1 in
    with_timer
      (timerOnConditionChanged
         (negb (conditionStateValue (mCondition s2) =? 0)) eventTime
         (mConditionTimer s2)) s2.

(** The part of a [LogEvent] the producer reads. *)
Record LogEvent := {
  LogEvent_getValues : list FieldValue;
  GetElapsedTimestampNs : Z
}.

(** [DurationMetricProducer::onMatchedLogEventLocked]. *)
Definition onMatchedLogEventLocked (matcherIndex : Z) (event : LogEvent)
    (s : State) : State :=
  handleMatchedLogEventValuesLocked matcherIndex (LogEvent_getValues event)
    (GetElapsedTimestampNs event) s.

(** A run of the producer: the matched events it is handed, oldest first. *)
Definition onMatchedLogEvents (events : list (Z * LogEvent)) (s : State) : State :=
  foldl (fun s e => onMatchedLogEventLocked (fst e) (snd e) s) s events.

(** **** Flushing and stop events only ever remove trackers *)

Lemma flushIfNeededLocked_stats t s :
  stats (flushIfNeededLocked t s) = stats s
  \/ stats (flushIfNeededLocked t s) = stats s ++ [noteBucketCount (mMetricId c)].
Proof.
  unfold flushIfNeededLocked.
  destruct (_ >? _); [left; reflexivity|]. right. simpl.
  apply flushCurrentBucketLocked_fields.
Qed.

Lemma handleStopAll_shrinks t s :
  (forall k, mCurrentSlicedDurationTrackerMap s !! k = None ->
     mCurrentSlicedDurationTrackerMap (handleStopAll t s) !! k = None)
  /\ (size (mCurrentSlicedDurationTrackerMap (handleStopAll t s))
      <= size (mCurrentSlicedDurationTrackerMap s))%nat
  /\ (forall k tr, mCurrentSlicedDurationTrackerMap (handleStopAll t s) !! k = Some tr ->
        hasAccumulatedDuration E tr = true)
  /\ stats (handleStopAll t s) = stats s.
Proof.
  unfold handleStopAll. simpl. repeat split.
  - intros k Hk. apply map_lookup_filter_None. left.
    rewrite lookup_fmap, Hk. reflexivity.
  - rewrite <- (map_size_fmap (noteStopAll E t) (mCurrentSlicedDurationTrackerMap s)).
    apply map_subseteq_size, map_filter_subseteq.
  - intros k tr Hk. apply map_lookup_filter_Some in Hk as [_ Hacc]. exact Hacc.
Qed.

Lemma handleStop_shrinks dimensionInWhat internalKey t s :
  (forall k, mCurrentSlicedDurationTrackerMap s !! k = None ->
     mCurrentSlicedDurationTrackerMap (handleStop dimensionInWhat internalKey t s) !! k
     = None)
  /\ (size (mCurrentSlicedDurationTrackerMap (handleStop dimensionInWhat internalKey t s))
      <= size (mCurrentSlicedDurationTrackerMap s))%nat
  /\ stats (handleStop dimensionInWhat internalKey t s) = stats s.
Proof.
  unfold handleStop.
  destruct (mCurrentSlicedDurationTrackerMap s !! dimensionInWhat) as [tracker|] eqn:Hw;
    [|repeat split; [auto|lia]].
  destruct (hasAccumulatedDuration E _); simpl; repeat split.
  - intros k Hk. rewrite lookup_insert_ne by congruence. exact Hk.
  - rewrite map_size_insert_Some by (rewrite Hw; eauto). lia.
  - intros k Hk. apply lookup_delete_None. right. exact Hk.
  - rewrite map_size_delete_Some by (rewrite Hw; eauto). lia.
Qed.

Lemma map_size_alter (f : DurationTracker -> DurationTracker) k
    (m : gmap Key DurationTracker) :
  size (alter f k m) = size m.
Proof.
  destruct (m !! k) as [x|] eqn:Hk.
  - assert (Halter : alter f k m = <[k := f x]> m).
    { apply map_eq. intros j. destruct (decide (j = k)) as [->|Hne].
      - rewrite lookup_alter_eq, lookup_insert_eq, Hk. reflexivity.
      - rewrite lookup_alter_ne, lookup_insert_ne by congruence. reflexivity. }
    rewrite Halter. apply map_size_insert_Some. rewrite Hk. eauto.
  - assert (Halter : alter f k m = m).
    { apply map_eq. intros j. destruct (decide (j = k)) as [->|Hne].
      - rewrite lookup_alter_eq, Hk. reflexivity.
      - rewrite lookup_alter_ne by congruence. reflexivity. }
    rewrite Halter. reflexivity.
Qed.

(** A start event adds at most one tracker, and none beyond the hard
    limit when the soft limit does not exceed it. *)
Lemma handleStartEvent_within_hard_limit eventKey conditionKeys condition t values s :
  kDimensionKeySizeSoftLimit E <= mDimensionHardLimit c ->
  Z.of_nat (size (mCurrentSlicedDurationTrackerMap s)) <= mDimensionHardLimit c ->
  Z.of_nat (size (mCurrentSlicedDurationTrackerMap
                    (handleStartEvent eventKey conditionKeys condition t values s)))
  <= mDimensionHardLimit c.
Proof.
  intros Hlimits Hsize. unfold handleStartEvent, hitGuardRailLocked.
  destruct (mCurrentSlicedDurationTrackerMap s !! getDimensionKeyInWhat eventKey)
    eqn:Hwhat.
  { simpl. rewrite map_size_alter. exact Hsize. }
  set (n := Z.of_nat (size (mCurrentSlicedDurationTrackerMap s))) in *.
  destruct (n >=? kDimensionKeySizeSoftLimit E) eqn:Hsoft.
  - destruct (n + 1 >? mDimensionHardLimit c) eqn:Hhard; simpl.
    + exact Hsize.
    + rewrite map_size_alter, map_size_insert_None by exact Hwhat.
      rewrite Z.gtb_ltb in Hhard. apply Z.ltb_ge in Hhard. subst n. lia.
  - simpl. rewrite map_size_alter, map_size_insert_None by exact Hwhat.
    rewrite Z.geb_leb in Hsoft. apply Z.leb_gt in Hsoft. subst n. lia.
Qed.

(** **** Stop events *)

(** X14: A stop or stop-all event never starts tracking a dimension: every key
    that was untracked stays untracked, the tracker count does not grow, and
    the only telemetry is the bucket count of a flush. After a stop-all
    event (at or after the time base) every tracker that is left has
    accumulated duration. *)
Theorem stop_events_never_add_trackers
    (matcherIndex : Z) (values : list FieldValue) (eventTimeNs : Z) (s : State) :
  int32 matcherIndex = mStopAllIndex c \/ int32 matcherIndex = mStopIndex c ->
  let s' := handleMatchedLogEventValuesLocked matcherIndex values eventTimeNs s in
  (forall k, mCurrentSlicedDurationTrackerMap s !! k = None ->
     mCurrentSlicedDurationTrackerMap s' !! k = None)
  /\ (size (mCurrentSlicedDurationTrackerMap s')
      <= size (mCurrentSlicedDurationTrackerMap s))%nat
  /\ (stats s' = stats s
      \/ stats s' = stats s ++ [noteBucketCount (mMetricId c)])
  /\ (int32 matcherIndex = mStopAllIndex c -> mTimeBaseNs c <= eventTimeNs ->
      forall k tr, mCurrentSlicedDurationTrackerMap s' !! k = Some tr ->
        hasAccumulatedDuration E tr = true).
Proof.
  intros Hstop s'. subst s'. unfold handleMatchedLogEventValuesLocked.
  destruct (eventTimeNs <? mTimeBaseNs c) eqn:Hbase.
  { apply Z.ltb_lt in Hbase.
    split; [auto|]. split; [lia|]. split; [left; reflexivity|]. lia. }
  set (s1 := if mIsActive s then flushIfNeededLocked eventTimeNs s else s).
  assert (H1 : (forall k, mCurrentSlicedDurationTrackerMap s !! k = None ->
                  mCurrentSlicedDurationTrackerMap s1 !! k = None)
               /\ (size (mCurrentSlicedDurationTrackerMap s1)
                   <= size (mCurrentSlicedDurationTrackerMap s))%nat
               /\ (stats s1 = stats s
                   \/ stats s1 = stats s ++ [noteBucketCount (mMetricId c)])).
  { subst s1. destruct (mIsActive s).
    - destruct (flushIfNeededLocked_shrinks eventTimeNs s) as [Hn Hs].
      split; [exact Hn|]. split; [exact Hs|]. apply flushIfNeededLocked_stats.
    - split; [auto|]. split; [lia|]. left. reflexivity. }
  destruct H1 as (Hnone & Hsize & Hstats).
  destruct (int32 matcherIndex =? mStopAllIndex c) eqn:Hall.
  - destruct (handleStopAll_shrinks eventTimeNs s1) as (Hn & Hs & Hacc & Hst).
    split; [intros k Hk; apply Hn, Hnone, Hk|].
    split; [lia|]. split; [rewrite Hst; exact Hstats|].
    intros _ _. exact Hacc.
  - apply Z.eqb_neq in Hall.
    destruct Hstop as [Hstop|Hstop]; [contradiction|].
    assert (Hfinal : forall s2,
              (forall k, mCurrentSlicedDurationTrackerMap s1 !! k = None ->
                 mCurrentSlicedDurationTrackerMap s2 !! k = None) ->
              (size (mCurrentSlicedDurationTrackerMap s2)
               <= size (mCurrentSlicedDurationTrackerMap s1))%nat ->
              stats s2 = stats s1 ->
              (forall k, mCurrentSlicedDurationTrackerMap s !! k = None ->
                 mCurrentSlicedDurationTrackerMap s2 !! k = None)
              /\ (size (mCurrentSlicedDurationTrackerMap s2)
                  <= size (mCurrentSlicedDurationTrackerMap s))%nat
              /\ (stats s2 = stats s
                  \/ stats s2 = stats s ++ [noteBucketCount (mMetricId c)])
              /\ (int32 matcherIndex = mStopAllIndex c -> mTimeBaseNs c <= eventTimeNs ->
                  forall k tr, mCurrentSlicedDurationTrackerMap s2 !! k = Some tr ->
                    hasAccumulatedDuration E tr = true)).
    { intros s2 Hn Hs Hst.
      split; [intros k Hk; apply Hn, Hnone, Hk|].
      split; [lia|]. split; [rewrite Hst; exact Hstats|].
      intros Habs. contradiction. }
    destruct (negb (passesSampleCheckLocked E values)).
    { apply Hfinal; [auto|lia|reflexivity]. }
    apply Z.eqb_eq in Hstop. rewrite Hstop.
    destruct (mUseWhatDimensionAsInternalDimension c);
      match goal with
      | |- context [handleStop ?a ?b ?t ?x] =>
          destruct (handleStop_shrinks a b t x) as (Hn & Hs & Hst)
      end; apply Hfinal; assumption.
Qed.

(** **** The bound the guardrail keeps *)

Lemma handleMatchedLogEventValuesLocked_within_hard_limit matcherIndex values t s :
  kDimensionKeySizeSoftLimit E <= mDimensionHardLimit c ->
  Z.of_nat (size (mCurrentSlicedDurationTrackerMap s)) <= mDimensionHardLimit c ->
  Z.of_nat (size (mCurrentSlicedDurationTrackerMap
                    (handleMatchedLogEventValuesLocked matcherIndex values t s)))
  <= mDimensionHardLimit c.
Proof.
  intros Hlimits Hsize. unfold handleMatchedLogEventValuesLocked.
  destruct (t <? mTimeBaseNs c); [exact Hsize|].
  set (s1 := if mIsActive s then flushIfNeededLocked t s else s).
  assert (H1 : Z.of_nat (size (mCurrentSlicedDurationTrackerMap s1))
               <= mDimensionHardLimit c).
  { subst s1. destruct (mIsActive s); [|exact Hsize].
    destruct (flushIfNeededLocked_shrinks t s) as [_ Hs]. lia. }
  destruct (int32 matcherIndex =? mStopAllIndex c).
  { destruct (handleStopAll_shrinks t s1) as (_ & Hs & _). lia. }
  destruct (negb (passesSampleCheckLocked E values)); [exact H1|].
  destruct (int32 matcherIndex =? mStopIndex c).
  - destruct (mUseWhatDimensionAsInternalDimension c);
      match goal with
      | |- context [handleStop ?a ?b ?u ?x] =>
          destruct (handleStop_shrinks a b u x) as (_ & Hs & _)
      end; lia.
  - apply handleStartEvent_within_hard_limit; assumption.
Qed.

(** X15: When the soft limit does not exceed the hard limit, no run of matched
    events (starts, stops, stop-alls, with whatever flushes they cause)
    takes the number of tracked dimensions above [mDimensionHardLimit]. *)
Theorem tracked_dimensions_within_hard_limit
    (events : list (Z * LogEvent)) (s : State) :
  kDimensionKeySizeSoftLimit E <= mDimensionHardLimit c ->
  Z.of_nat (size (mCurrentSlicedDurationTrackerMap s)) <= mDimensionHardLimit c ->
  Z.of_nat (size (mCurrentSlicedDurationTrackerMap (onMatchedLogEvents events s)))
  <= mDimensionHardLimit c.
Proof.
  intros Hlimits. revert s. unfold onMatchedLogEvents.
  induction events as [|[matcherIndex event] events IH]; intros s Hsize;
    [exact Hsize|].
  simpl. apply IH. unfold onMatchedLogEventLocked.
  apply handleMatchedLogEventValuesLocked_within_hard_limit; assumption.
Qed.

(** **** How far a flush moves the current bucket *)

(** X16: When the event time has reached the end of the current bucket (and the
    64-bit and [int] computations do not overflow), [flushIfNeededLocked]
    makes the bucket that contains the event time the current one: its number
    is [(eventTimeNs - mTimeBaseNs) / mBucketSizeNs], it starts on the bucket
    grid, the event time lies inside it, and a second flush at the same time
    does nothing. *)
Theorem flushIfNeededLocked_lands_in_event_bucket (eventTimeNs : Z) (s : State) :
  0 < mBucketSizeNs c ->
  0 <= mTimeBaseNs c ->
  0 <= mCurrentBucketNum s ->
  mTimeBaseNs c + (mCurrentBucketNum s + 1) * mBucketSizeNs c <= eventTimeNs ->
  eventTimeNs + mBucketSizeNs c < 2 ^ 63 ->
  (eventTimeNs - mTimeBaseNs c) / mBucketSizeNs c < 2 ^ 31 ->
  let s' := flushIfNeededLocked eventTimeNs s in
  let n' := (eventTimeNs - mTimeBaseNs c) / mBucketSizeNs c in
  mCurrentBucketNum s' = n'
  /\ mCurrentBucketStartTimeNs s' = mTimeBaseNs c + n' * mBucketSizeNs c
  /\ mCurrentBucketStartTimeNs s' <= eventTimeNs < getCurrentBucketEndTimeNs s'
  /\ getCurrentBucketEndTimeNs s' = mCurrentBucketStartTimeNs s' + mBucketSizeNs c
  /\ flushIfNeededLocked eventTimeNs s' = s'.
Proof.
  intros Hsize Hbase Hnum Hend Hmax Hint s' n'.
  set (width := mBucketSizeNs c) in *.
  set (n := mCurrentBucketNum s) in *.
  set (e := mTimeBaseNs c + (n + 1) * width) in *.
  set (k := (eventTimeNs - e) / width).
  assert (He0 : 0 <= e) by (subst e; nia).
  assert (He : getCurrentBucketEndTimeNs s = e).
  { unfold getCurrentBucketEndTimeNs. fold n width e.
    apply int64_id. unfold in_int64. lia. }
  assert (Hn' : n' = k + (n + 1)).
  { subst n' k.
    replace (eventTimeNs - mTimeBaseNs c) with (eventTimeNs - e + (n + 1) * width)
      by (subst e; ring).
    apply Z.div_add. lia. }
  assert (Hk0 : 0 <= k) by (subst k; apply Z.div_pos; lia).
  assert (Hlow : width * k <= eventTimeNs - e)
    by (subst k; apply Z.mul_div_le; lia).
  assert (Hhigh : eventTimeNs - e < width * Z.succ k)
    by (subst k; apply Z.mul_succ_div_gt; lia).
  assert (Hforward : numBucketsForward eventTimeNs e = 1 + k).
  { unfold numBucketsForward. fold width.
    rewrite (int64_id (eventTimeNs - e)) by (unfold in_int64; lia).
    rewrite Z.quot_div_nonneg by lia. fold k.
    rewrite (int64_id (1 + k)) by (unfold in_int64; lia).
    apply int32_small. lia. }
  assert (Hnext : nextBucketNs eventTimeNs e = e + k * width).
  { unfold nextBucketNs. rewrite Hforward. fold width.
    replace (1 + k - 1) with k by ring.
    rewrite (int32_small k) by lia.
    apply int64_id. unfold in_int64. nia. }
  assert (Hs' : s' = with_bucketNum (int64 (n + (1 + k)))
                       (flushCurrentBucketLocked eventTimeNs (e + k * width) s)).
  { subst s'. unfold flushIfNeededLocked. rewrite He.
    destruct (e >? eventTimeNs) eqn:Hgt; [apply Z.gtb_lt in Hgt; lia|].
    rewrite Hnext, Hforward.
    destruct (flushCurrentBucketLocked_fields eventTimeNs (e + k * width) s)
      as (Hnum' & _).
    rewrite Hnum'. reflexivity. }
  assert (Hnumber : mCurrentBucketNum s' = n').
  { rewrite Hs'. simpl. rewrite Hn'.
    replace (k + (n + 1)) with (n + (1 + k)) by ring.
    apply int64_id. unfold in_int64. nia. }
  assert (Hstart : mCurrentBucketStartTimeNs s' = mTimeBaseNs c + n' * width).
  { rewrite Hs'. simpl.
    destruct (flushCurrentBucketLocked_fields eventTimeNs (e + k * width) s)
      as (_ & Hstart & _).
    rewrite Hstart, Hn'. subst e. ring. }
  assert (Hend' : getCurrentBucketEndTimeNs s' = mTimeBaseNs c + n' * width + width).
  { unfold getCurrentBucketEndTimeNs. rewrite Hnumber. fold width.
    replace (mTimeBaseNs c + (n' + 1) * width)
      with (mTimeBaseNs c + n' * width + width) by ring.
    apply int64_id. unfold in_int64. rewrite Hn'. subst e. nia. }
  assert (Hinside : mTimeBaseNs c + n' * width <= eventTimeNs
                    < mTimeBaseNs c + n' * width + width).
  { rewrite Hn'. subst e. nia. }
  split; [exact Hnumber|]. split; [exact Hstart|].
  split; [rewrite Hstart, Hend'; exact Hinside|].
  split; [rewrite Hstart, Hend'; reflexivity|].
  unfold flushIfNeededLocked. rewrite Hend'.
  destruct (mTimeBaseNs c + n' * width + width >? eventTimeNs) eqn:Hgt;
    [reflexivity|].
  rewrite Z.gtb_ltb in Hgt. apply Z.ltb_ge in Hgt. lia.
Qed.

(** **** Condition changes *)

Lemma flushIfNeededLocked_commutes_with_condition cs t s :
  flushIfNeededLocked t (with_condition cs s)
  = with_condition cs (flushIfNeededLocked t s).
Proof.
  unfold flushIfNeededLocked.
  change (getCurrentBucketEndTimeNs (with_condition cs s))
    with (getCurrentBucketEndTimeNs s).
  destruct (getCurrentBucketEndTimeNs s >? t); [reflexivity|].
  unfold flushCurrentBucketLocked. simpl.
  destruct (newBucketStart E t _ (mConditionTimer s)) as [[trueNs corr] timer'].
  destruct (flushTrackers t trueNs _ _) as [m' past'].
  reflexivity.
Qed.

(** X17: [onConditionChangedLocked] records the new condition whether or not the
    producer is active. An inactive producer changes nothing else: no bucket
    is flushed and no tracker hears of the change. An active producer
    flushes first and then tells every tracker and the condition timer. In
    both cases a later start event of an unsliced metric is noted with
    [conditionMet && mIsActive]. *)
Theorem onConditionChangedLocked_records_condition
    (conditionMet : bool) (eventTime : Z) (s : State) :
  let newCondition := if conditionMet then kTrue else kFalse in
  let s' := onConditionChangedLocked conditionMet eventTime s in
  mCondition s' = newCondition
  /\ mIsActive s' = mIsActive s
  /\ (mIsActive s = false -> s' = with_condition newCondition s)
  /\ (mIsActive s = true ->
      (forall whatKey,
         mCurrentSlicedDurationTrackerMap s' !! whatKey
         = onConditionChanged E conditionMet eventTime
             <$> mCurrentSlicedDurationTrackerMap (flushIfNeededLocked eventTime s)
                 !! whatKey)
      /\ mConditionTimer s'
         = timerOnConditionChanged conditionMet eventTime
             (mConditionTimer (flushIfNeededLocked eventTime s))
      /\ mPastBuckets s' = mPastBuckets (flushIfNeededLocked eventTime s)
      /\ mCurrentBucketNum s' = mCurrentBucketNum (flushIfNeededLocked eventTime s))
  /\ (mConditionSliced c = false -> forall values,
      startCondition values s' = conditionMet && mIsActive s).
Proof.
  intros newCondition s'.
  assert (Hinactive : mIsActive s = false -> s' = with_condition newCondition s).
  { intros Hact. subst s'. unfold onConditionChangedLocked. simpl.
    rewrite Hact. reflexivity. }
  assert (Hactive : mIsActive s = true ->
            s' = with_timer
                   (timerOnConditionChanged conditionMet eventTime
                      (mConditionTimer (flushIfNeededLocked eventTime s)))
                   (with_map
                      (onConditionChanged E conditionMet eventTime
                         <$> mCurrentSlicedDurationTrackerMap
                               (flushIfNeededLocked eventTime s))
                      (with_condition newCondition
                         (flushIfNeededLocked eventTime s)))).
  { intros Hact. subst s'. unfold onConditionChangedLocked. simpl.
    rewrite Hact. simpl.
    rewrite flushIfNeededLocked_commutes_with_condition. simpl.
    subst newCondition. destruct conditionMet; reflexivity. }
  assert (Hcond : mCondition s' = newCondition /\ mIsActive s' = mIsActive s).
  { destruct (mIsActive s) eqn:Hact.
    - rewrite (Hactive eq_refl). simpl.
      split; [reflexivity|].
      rewrite (proj2 (flushIfNeededLocked_keeps_condition eventTime s)).
      exact Hact.
    - rewrite (Hinactive eq_refl). simpl. split; [reflexivity|exact Hact]. }
  destruct Hcond as [Hc Ha].
  split; [exact Hc|]. split; [exact Ha|]. split; [exact Hinactive|]. split.
  - intros Hact. rewrite (Hactive Hact). simpl.
    split; [intros whatKey; apply lookup_fmap|]. repeat split.
  - intros Hunsliced values. unfold startCondition.
    rewrite Hunsliced, Hc, Ha. subst newCondition.
    destruct conditionMet; reflexivity.
Qed.

(** **** Which start events get a tracker *)

(** X18: After [handleStartEvent] the event's whatKey is tracked unless the key
    was new, the tracker count had reached the soft limit and one more key
    would exceed the hard limit; a dropped event leaves the tracker map as it
    was. An event for a key that is tracked already, or that arrives below
    the soft limit, sends no telemetry. *)
Theorem handleStartEvent_tracks_unless_guardrail
    (eventKey : MetricDimensionKey) (conditionKeys : ConditionKey)
    (condition : bool) (eventTimeNs : Z) (eventValues : list FieldValue)
    (s : State) :
  let whatKey := getDimensionKeyInWhat eventKey in
  let n := Z.of_nat (size (mCurrentSlicedDurationTrackerMap s)) in
  let dropped :=
    mCurrentSlicedDurationTrackerMap s !! whatKey = None
    /\ kDimensionKeySizeSoftLimit E <= n /\ mDimensionHardLimit c < n + 1 in
  let s' :=
    handleStartEvent eventKey conditionKeys condition eventTimeNs eventValues s in
  (is_Some (mCurrentSlicedDurationTrackerMap s' !! whatKey) <-> ~ dropped)
  /\ (dropped ->
      mCurrentSlicedDurationTrackerMap s' = mCurrentSlicedDurationTrackerMap s)
  /\ (is_Some (mCurrentSlicedDurationTrackerMap s !! whatKey)
      \/ n < kDimensionKeySizeSoftLimit E ->
      stats s' = stats s /\ mHasHitGuardrail s' = mHasHitGuardrail s)
  /\ (forall k, k <> whatKey ->
      mCurrentSlicedDurationTrackerMap s' !! k
      = mCurrentSlicedDurationTrackerMap s !! k).
Proof.
  intros whatKey n dropped s'. subst s' dropped.
  unfold handleStartEvent, hitGuardRailLocked. fold whatKey.
  destruct (mCurrentSlicedDurationTrackerMap s !! whatKey) as [tracker|] eqn:Hwhat.
  { simpl. split; [|split; [|split]].
    - split; [intros _ (Habs & _); discriminate|].
      intros _. rewrite lookup_alter_eq, Hwhat. simpl. eauto.
    - intros (Habs & _). discriminate.
    - intros _. split; reflexivity.
    - intros k Hk. apply lookup_alter_ne. congruence. }
  fold n.
  destruct (n >=? kDimensionKeySizeSoftLimit E) eqn:Hsoft.
  - rewrite Z.geb_leb in Hsoft. apply Z.leb_le in Hsoft.
    destruct (n + 1 >? mDimensionHardLimit c) eqn:Hhard.
    + apply Z.gtb_lt in Hhard. simpl. split; [|split; [|split]].
      * split.
        -- intros Hsome _. rewrite Hwhat in Hsome.
           destruct Hsome as [x Hx]. discriminate.
        -- intros Hnot. exfalso. apply Hnot. repeat split; [assumption|lia].
      * intros _. reflexivity.
      * intros [[x Hx]|Hlt]; [discriminate|lia].
      * intros k _. reflexivity.
    + rewrite Z.gtb_ltb in Hhard. apply Z.ltb_ge in Hhard. simpl.
      split; [|split; [|split]].
      * split; [intros _ (_ & _ & Habs); lia|].
        intros _. rewrite lookup_alter_eq, lookup_insert_eq. simpl. eauto.
      * intros (_ & _ & Habs). lia.
      * intros [[x Hx]|Hlt]; [discriminate|lia].
      * intros k Hk. rewrite lookup_alter_ne, lookup_insert_ne by congruence.
        reflexivity.
  - rewrite Z.geb_leb in Hsoft. apply Z.leb_gt in Hsoft. simpl.
    split; [|split; [|split]].
    + split; [intros _ (_ & Habs & _); lia|].
      intros _. rewrite lookup_alter_eq, lookup_insert_eq. simpl. eauto.
    + intros (_ & Habs & _). lia.
    + intros _. split; reflexivity.
    + intros k Hk. rewrite lookup_alter_ne, lookup_insert_ne by congruence.
      reflexivity.
Qed.

(** **** Sliced condition changes only notify *)

Lemma notifyChangedDimensions_keeps_keys link current t s k :
  is_Some (mCurrentSlicedDurationTrackerMap
             (notifyChangedDimensions link current t s) !! k)
  <-> is_Some (mCurrentSlicedDurationTrackerMap s !! k).
Proof.
  unfold notifyChangedDimensions.
  assert (Himap : forall f : Key -> DurationTracker -> option DurationTracker,
            (forall key tr, is_Some (f key tr)) ->
            is_Some (map_imap f (mCurrentSlicedDurationTrackerMap s) !! k)
            <-> is_Some (mCurrentSlicedDurationTrackerMap s !! k)).
  { intros f Hf. rewrite map_lookup_imap.
    destruct (mCurrentSlicedDurationTrackerMap s !! k) as [tr|]; simpl.
    - split; [eauto|intros _; apply Hf].
    - reflexivity. }
  assert (Hfirst : forall key tr,
            is_Some
              (match getSlicedDimensionMap E (mConditionTrackerIndex c)
                     !! linkedConditionDimensionKey link key with
               | Some count =>
                   if count >? 0
                   then Some (onConditionChanged E current t tr)
                   else Some tr
               | None => Some tr
               end)).
  { intros key tr.
    destruct (getSlicedDimensionMap E (mConditionTrackerIndex c)
                !! linkedConditionDimensionKey link key) as [count|];
      [destruct (count >? 0)|]; eauto. }
  destruct (getChangedToTrueDimensions E (mConditionTrackerIndex c)) as [toTrue|];
    [|simpl; apply Himap, Hfirst].
  destruct (getChangedToFalseDimensions E (mConditionTrackerIndex c)) as [toFalse|];
    [|simpl; apply Himap, Hfirst].
  destruct (bool_decide (toTrue = ∅) && bool_decide (toFalse = ∅));
    [simpl; apply Himap, Hfirst|].
  destruct current; [|reflexivity].
  simpl. apply Himap. intros key tr. eauto.
Qed.

(** X19: A sliced condition change, on the fast path or the generic one, only
    notifies trackers: the set of tracked keys, the past buckets, the bucket
    number and start, the producer's own condition and the telemetry are
    what they were. *)
Theorem onSlicedConditionMayChangeInternalLocked_only_notifies
    (eventTimeNs : Z) (s : State) :
  let s' := onSlicedConditionMayChangeInternalLocked eventTimeNs s in
  (forall k, is_Some (mCurrentSlicedDurationTrackerMap s' !! k)
             <-> is_Some (mCurrentSlicedDurationTrackerMap s !! k))
  /\ mPastBuckets s' = mPastBuckets s
  /\ mCurrentBucketNum s' = mCurrentBucketNum s
  /\ mCurrentBucketStartTimeNs s' = mCurrentBucketStartTimeNs s
  /\ mCondition s' = mCondition s
  /\ mIsActive s' = mIsActive s
  /\ stats s' = stats s.
Proof.
  intros s'. subst s'. unfold onSlicedConditionMayChangeInternalLocked.
  destruct (IsChangedDimensionTrackable E (mConditionTrackerIndex c)
            && mHasLinksToAllConditionDimensionsInTracker c).
  - unfold onSlicedConditionMayChangeLocked_opt1.
    destruct (mMetric2ConditionLinks c) as [|link [|? ?]];
      try (repeat split; tauto).
    destruct (negb (mHasLinksToAllConditionDimensionsInTracker c));
      [repeat split; tauto|].
    assert (Hframe : forall current s0,
              mPastBuckets (notifyChangedDimensions link current eventTimeNs s0)
              = mPastBuckets s0
              /\ mCurrentBucketNum (notifyChangedDimensions link current eventTimeNs s0)
                 = mCurrentBucketNum s0
              /\ mCurrentBucketStartTimeNs
                   (notifyChangedDimensions link current eventTimeNs s0)
                 = mCurrentBucketStartTimeNs s0
              /\ mCondition (notifyChangedDimensions link current eventTimeNs s0)
                 = mCondition s0
              /\ mIsActive (notifyChangedDimensions link current eventTimeNs s0)
                 = mIsActive s0
              /\ stats (notifyChangedDimensions link current eventTimeNs s0)
                 = stats s0).
    { intros current s0. unfold notifyChangedDimensions.
      destruct (getChangedToTrueDimensions E _) as [toTrue|]; [|repeat split].
      destruct (getChangedToFalseDimensions E _) as [toFalse|]; [|repeat split].
      destruct (_ && _); [repeat split|].
      destruct current; repeat split. }
    destruct (negb (IsSimpleCondition E (mConditionTrackerIndex c))).
    + destruct (_ && _); [repeat split; tauto|].
      set (u := getUnSlicedPartConditionState E (mConditionTrackerIndex c)).
      split.
      * intros k.
        exact (notifyChangedDimensions_keeps_keys link (conditionStateValue u >? 0)
                 eventTimeNs (with_unsliced u s) k).
      * exact (Hframe (conditionStateValue u >? 0) (with_unsliced u s)).
    + split; [intros k; apply notifyChangedDimensions_keeps_keys|].
      apply Hframe.
  - simpl. split; [|repeat split].
    intros k. rewrite lookup_fmap. apply fmap_is_Some.
Qed.

End Producer.

(** *** A small instance to run the producer on

    Keys, field values and matchers are integers; a tracker remembers the
    bucket it was created in, how many starts are open and the last condition
    it was started with. *)

Record SimpleTracker := {
  createdStartNs : Z;
  createdBucketNum : Z;
  openStarts : Z;
  lastCondition : bool
}.

Definition simpleCollaborators
  : @Collaborators Z _ _ Z Z SimpleTracker unit (list (Z * Z)) :=
  {| kDimensionKeySizeSoftLimit := 2;
     DEFAULT_DIMENSION_KEY := 0;
     getValues := fun key => [key];
     addValue := fun v key => key + v;
     filterValues := fun _ values _ => hd 0 values;
     getDimensionForCondition := fun values _ _ => hd 0 values;
     getDimensionForState := fun values _ _ => hd 0 values;
     passesSampleCheckLocked := fun _ => true;
     queryStateValue := fun _ _ => 0;
     mapStateValue := fun _ v => v;
     query := fun _ _ _ => kUnknown;
     IsSimpleCondition := fun _ => true;
     IsChangedDimensionTrackable := fun _ => false;
     getUnSlicedPartConditionState := fun _ => kUnknown;
     getChangedToTrueDimensions := fun _ => None;
     getChangedToFalseDimensions := fun _ => None;
     getSlicedDimensionMap := fun _ => ∅;
     newBucketStart := fun _ _ timer => ((0, 0), timer);
     newDurationTracker := fun _ _ startNs bucketNum =>
       {| createdStartNs := startNs; createdBucketNum := bucketNum;
          openStarts := 0; lastCondition := false |};
     noteStart := fun _ condition _ _ _ tr =>
       {| createdStartNs := createdStartNs tr;
          createdBucketNum := createdBucketNum tr;
          openStarts := openStarts tr + 1; lastCondition := condition |};
     noteStop := fun _ _ _ tr =>
       {| createdStartNs := createdStartNs tr;
          createdBucketNum := createdBucketNum tr;
          openStarts := Z.max 0 (openStarts tr - 1);
          lastCondition := lastCondition tr |};
     noteStopAll := fun _ tr =>
       {| createdStartNs := createdStartNs tr;
          createdBucketNum := createdBucketNum tr;
          openStarts := 0; lastCondition := lastCondition tr |};
     hasAccumulatedDuration := fun tr => 0 <? openStarts tr;
     onConditionChanged := fun condition _ tr =>
       {| createdStartNs := createdStartNs tr;
          createdBucketNum := createdBucketNum tr;
          openStarts := openStarts tr; lastCondition := condition |};
     onSlicedConditionMayChange := fun _ tr => tr;
     flushCurrentBucket := fun eventTimeNs _ tr past =>
       (negb (0 <? openStarts tr), tr, past ++ [(createdBucketNum tr, eventTimeNs)])
  |}.

(** One-minute buckets from time base 1000, dimensioned on matcher 1,
    condition not sliced, hard limit 3. *)
Definition simpleConfig : @Config Z :=
  {| mMetricId := 42;
     mTimeBaseNs := 1000;
     mBucketSizeNs := 60000000000;
     mAggregationType := SUM;
     mStartIndex := 0;
     mStopIndex := 1;
     mStopAllIndex := 2;
     mConditionSliced := false;
     mConditionTrackerIndex := -1;
     mHasLinksToAllConditionDimensionsInTracker := false;
     mMetric2ConditionLinks := [];
     mMetric2StateLinks := [];
     mSlicedStateAtoms := [];
     mUseWhatDimensionAsInternalDimension := true;
     mDimensionsInWhat := [1];
     mInternalDimensions := [1];
     mDimensionHardLimit := 3 |}.

Definition runningTracker : SimpleTracker :=
  {| createdStartNs := 1000; createdBucketNum := 0;
     openStarts := 1; lastCondition := true |}.

Definition simpleState (trackers : gmap Z SimpleTracker)
  : @State Z _ _ SimpleTracker unit (list (Z * Z)) :=
  {| mCurrentBucketNum := 0;
     mCurrentBucketStartTimeNs := 1000;
     mCondition := kUnknown;
     mIsActive := true;
     mHasHitGuardrail := false;
     mUnSlicedPartCondition := kUnknown;
     mCurrentSlicedDurationTrackerMap := trackers;
     mPastBuckets := [];
     mConditionTimer := tt;
     stats := [] |}.

Definition twoKeys : gmap Z SimpleTracker :=
  <[11 := runningTracker]> (<[12 := runningTracker]> ∅).

Definition threeKeys : gmap Z SimpleTracker := <[13 := runningTracker]> twoKeys.

(** A fourth key against hard limit 3 is dropped and accounted for. *)
Lemma handleStartEvent_guardrail_witness :
  let s' :=
    handleStartEvent simpleCollaborators simpleConfig (14, 0) ∅ true 2000 [14]
      (simpleState threeKeys) in
  mCurrentSlicedDurationTrackerMap s' = threeKeys
  /\ mCurrentSlicedDurationTrackerMap s' !! 14 = None
  /\ mPastBuckets s' = []
  /\ mHasHitGuardrail s' = true
  /\ stats s' = [noteMetricDimensionSize 42 4; noteHardDimensionLimitReached 42].
Proof.
  refine (proj1 (handleStartEvent_guardrail simpleCollaborators simpleConfig
                   (14, 0) ∅ true 2000 [14] (simpleState threeKeys) _ _) _).
  - reflexivity.
  - simpl. lia.
  - vm_compute. reflexivity.
Defined.

(** A third key reaches the soft limit 2 and stays within the hard limit:
    it is admitted and only the tuple count is reported. *)
Example handleStartEvent_soft_limit :
  let s' :=
    handleStartEvent simpleCollaborators simpleConfig (13, 0) ∅ true 2000 [13]
      (simpleState twoKeys) in
  stats s' = [noteMetricDimensionSize 42 3]
  /\ mCurrentSlicedDurationTrackerMap s' !! 13
     = Some {| createdStartNs := 1000; createdBucketNum := 0;
               openStarts := 1; lastCondition := true |}.
Proof. vm_compute. split; reflexivity. Qed.

(** An event at 999 precedes the time base 1000. *)
Lemma handleMatchedLogEventValuesLocked_before_time_base_witness :
  handleMatchedLogEventValuesLocked simpleCollaborators simpleConfig 0 [14] 999
    (simpleState twoKeys)
  = simpleState twoKeys.
Proof.
  refine (proj1 (handleMatchedLogEventValuesLocked_before_time_base
                   simpleCollaborators simpleConfig 0 [14] 999
                   (simpleState twoKeys) _)).
  simpl. lia.
Defined.

(** The same producer while it is not active. *)
Definition idleState (trackers : gmap Z SimpleTracker)
  : @State Z _ _ SimpleTracker unit (list (Z * Z)) :=
  {| mCurrentBucketNum := 0;
     mCurrentBucketStartTimeNs := 1000;
     mCondition := kUnknown;
     mIsActive := false;
     mHasHitGuardrail := false;
     mUnSlicedPartCondition := kUnknown;
     mCurrentSlicedDurationTrackerMap := trackers;
     mPastBuckets := [];
     mConditionTimer := tt;
     stats := [] |}.

Definition oneKey : gmap Z SimpleTracker := <[11 := runningTracker]> ∅.

(** The first bucket ends at 1000 + 60000000000. A flush at that very time
    closes bucket 0: the running tracker flushes into the past buckets and
    stays, one bucket is counted, and bucket 1 starts at the event time. The
    active producer files the tracker of a start event stamped there in
    bucket 1. *)
Lemma flushIfNeededLocked_boundary_witness :
  let s' :=
    flushIfNeededLocked simpleCollaborators simpleConfig 60000001000
      (simpleState oneKey) in
  let s'' :=
    handleMatchedLogEventValuesLocked simpleCollaborators simpleConfig 0 [14]
      60000001000 (simpleState oneKey) in
  mCurrentBucketStartTimeNs s' = 60000001000
  /\ mCurrentBucketNum s' = 1
  /\ stats s' = [noteBucketCount 42]
  /\ mPastBuckets s' = [(0, 60000001000)]
  /\ mCurrentSlicedDurationTrackerMap s' !! 11 = Some runningTracker
  /\ mCurrentSlicedDurationTrackerMap s'' !! 14
     = Some {| createdStartNs := 60000001000; createdBucketNum := 1;
               openStarts := 1; lastCondition := false |}.
Proof.
  pose proof (flushIfNeededLocked_closes_iff_at_or_after_end simpleCollaborators
                simpleConfig 0 [14] 60000001000 (simpleState oneKey)) as Hflush.
  cbv zeta in Hflush.
  destruct Hflush as (Hclosed & _ & _ & Hboundary & Hevent).
  destruct (Hboundary eq_refl) as (Hstart & Hnum).
  assert (Hend : getCurrentBucketEndTimeNs simpleConfig (simpleState oneKey)
                 <= 60000001000) by (vm_compute; discriminate).
  destruct (proj2 Hclosed Hend)
    as (Hstats & _ & _ & _ & _ & _ & Hlookup & _).
  assert (Hbase : mTimeBaseNs simpleConfig <= 60000001000) by (simpl; lia).
  destruct (Hevent Hbase) as (_ & _ & Hcreate).
  cbv zeta.
  split; [exact Hstart|]. split; [exact Hnum|]. split; [exact Hstats|].
  split; [vm_compute; reflexivity|].
  split.
  - specialize (Hlookup 11).
    change (mCurrentSlicedDurationTrackerMap (simpleState oneKey) !! 11)
      with (oneKey !! 11) in Hlookup.
    replace (oneKey !! 11) with (Some runningTracker) in Hlookup
      by (vm_compute; reflexivity).
    destruct Hlookup as [past Hlookup]. exact Hlookup.
  - refine (eq_trans (Hcreate _ _ _ _ _) _).
    + vm_compute. discriminate.
    + vm_compute. discriminate.
    + reflexivity.
    + vm_compute. reflexivity.
    + vm_compute. reflexivity.
    + vm_compute. reflexivity.
Defined.

(** An inactive producer does not flush: a start event stamped exactly at
    the end of bucket 0 is processed while bucket 0 is still current. No
    bucket is counted, the bucket number and start time stay, and the
    event's tracker is created in bucket 0. *)
Lemma inactive_producer_files_boundary_event_in_old_bucket :
  let s := idleState ∅ in
  let eventTimeNs := 60000001000 in
  let s'' :=
    handleMatchedLogEventValuesLocked simpleCollaborators simpleConfig 0 [14]
      eventTimeNs s in
  eventTimeNs = getCurrentBucketEndTimeNs simpleConfig s
  /\ mTimeBaseNs simpleConfig <= eventTimeNs
  /\ mCurrentBucketNum s'' = 0
  /\ mCurrentBucketStartTimeNs s'' = 1000
  /\ stats s'' = []
  /\ mPastBuckets s'' = []
  /\ mCurrentSlicedDurationTrackerMap s'' !! 14
     = Some {| createdStartNs := 1000; createdBucketNum := 0;
               openStarts := 1; lastCondition := false |}
  /\ ~ (mCurrentBucketStartTimeNs s'' = eventTimeNs
        /\ mCurrentBucketNum s'' = int64 (mCurrentBucketNum s + 1)).
Proof.
  cbv zeta.
  split; [reflexivity|]. split; [simpl; lia|].
  split; [reflexivity|]. split; [reflexivity|]. split; [reflexivity|].
  split; [reflexivity|]. split; [vm_compute; reflexivity|].
  intros [Hstart _]. vm_compute in Hstart. discriminate.
Qed.

Example flushIfNeededLocked_one_before_boundary :
  flushIfNeededLocked simpleCollaborators simpleConfig 60000000999
    (simpleState twoKeys)
  = simpleState twoKeys.
Proof. reflexivity. Qed.

Example start_event_on_boundary_is_filed_in_new_bucket :
  mCurrentSlicedDurationTrackerMap
    (handleMatchedLogEventValuesLocked simpleCollaborators simpleConfig 0 [14]
       60000001000 (simpleState ∅)) !! 14
  = Some {| createdStartNs := 60000001000; createdBucketNum := 1;
            openStarts := 1; lastCondition := false |}.
Proof. vm_compute. reflexivity. Qed.

(** With an unsliced condition a start event is noted with condition
    [false] when the producer's condition is unknown. *)
Lemma unsliced_start_condition_unknown_as_false_witness :
  startCondition simpleCollaborators simpleConfig [14]
    (with_condition kUnknown (simpleState twoKeys)) = false.
Proof.
  refine (proj1 (proj2 (proj2
            (unsliced_start_condition_unknown_as_false simpleCollaborators
               simpleConfig 0 [14] 2000 (simpleState twoKeys) _)))).
  reflexivity.
Defined.

(** A stop event (matcher 1) for key 11 while keys 11 and 12 are tracked:
    no tracker is added. *)
Lemma stop_events_never_add_trackers_witness :
  Nat.le
    (size (mCurrentSlicedDurationTrackerMap
             (handleMatchedLogEventValuesLocked simpleCollaborators simpleConfig
                1 [11] 2000 (simpleState twoKeys))))
    (size (mCurrentSlicedDurationTrackerMap (simpleState twoKeys))).
Proof.
  refine (proj1 (proj2 (stop_events_never_add_trackers simpleCollaborators
                          simpleConfig 1 [11] 2000 (simpleState twoKeys) _))).
  right. reflexivity.
Defined.

Example stop_event_erases_idle_tracker :
  mCurrentSlicedDurationTrackerMap
    (handleMatchedLogEventValuesLocked simpleCollaborators simpleConfig
       1 [11] 2000 (simpleState twoKeys)) !! 11 = None
  /\ mCurrentSlicedDurationTrackerMap
       (handleMatchedLogEventValuesLocked simpleCollaborators simpleConfig
          1 [11] 2000 (simpleState twoKeys)) !! 12 = Some runningTracker.
Proof. vm_compute. split; reflexivity. Qed.

(** Five start events for five different keys against hard limit 3. *)
Definition fiveStarts : list (Z * @LogEvent Z) :=
  (fun key => (0, {| LogEvent_getValues := [key]; GetElapsedTimestampNs := 2000 + key |}))
    <$> [11; 12; 13; 14; 15].

Lemma tracked_dimensions_within_hard_limit_witness :
  Z.of_nat (size (mCurrentSlicedDurationTrackerMap
                    (onMatchedLogEvents simpleCollaborators simpleConfig
                       fiveStarts (simpleState ∅))))
  <= 3.
Proof.
  refine (tracked_dimensions_within_hard_limit simpleCollaborators simpleConfig
            fiveStarts (simpleState ∅) _ _).
  - simpl. lia.
  - vm_compute. discriminate.
Defined.

Example five_starts_track_three_keys :
  let s' :=
    onMatchedLogEvents simpleCollaborators simpleConfig fiveStarts (simpleState ∅) in
  size (mCurrentSlicedDurationTrackerMap s') = 3%nat
  /\ mHasHitGuardrail s' = true
  /\ stats s' = [noteMetricDimensionSize 42 3;
                 noteMetricDimensionSize 42 4; noteHardDimensionLimitReached 42;
                 noteMetricDimensionSize 42 4; noteHardDimensionLimitReached 42].
Proof. vm_compute. repeat split. Qed.

(** With one-minute buckets from time base 1000, an event three minutes and
    five nanoseconds after the time base lands in bucket 3, which starts at
    1000 + 3 minutes. *)
Lemma flushIfNeededLocked_lands_in_event_bucket_witness :
  let s' :=
    flushIfNeededLocked simpleCollaborators simpleConfig 180000001005
      (simpleState twoKeys) in
  mCurrentBucketNum s' = 3
  /\ mCurrentBucketStartTimeNs s' = 180000001000.
Proof.
  destruct (flushIfNeededLocked_lands_in_event_bucket simpleCollaborators
              simpleConfig 180000001005 (simpleState twoKeys))
    as (Hnum & Hstart & _).
  - simpl. lia.
  - simpl. lia.
  - simpl. lia.
  - simpl. lia.
  - simpl. lia.
  - vm_compute. reflexivity.
  - split; [exact Hnum | exact Hstart].
Defined.

(** A condition change reaches the trackers of an active producer. *)
Example onConditionChangedLocked_tells_trackers :
  let s' :=
    onConditionChangedLocked simpleCollaborators simpleConfig
      (fun _ _ timer => timer) false 2000 (simpleState twoKeys) in
  mCondition s' = kFalse
  /\ mCurrentSlicedDurationTrackerMap s' !! 11
     = Some {| createdStartNs := 1000; createdBucketNum := 0;
               openStarts := 1; lastCondition := false |}.
Proof. vm_compute. split; reflexivity. Qed.

End DurationMetricProducer.

(** ** AnomalyTracker

    AnomalyTracker.h declares the class and documents every member;
    AnomalyTracker.cpp is not among the sources. Apart from
    [getRefractoryPeriodEndsSec], which the header defines inline, the
    operations below are modelled from the specification (section 4.9) and
    from the header's member documentation. *)

Module AnomalyTracker.

Import Int.

Definition NS_PER_SEC : Z := 1000000000.

(** The fields of the [Alert] message that the tracker reads. *)
Record Alert := {
  trigger_if_sum_gt : Z;
  num_buckets : Z;
  refractory_period_secs : Z
}.

Section Tracker.

(** [MetricDimensionKey] and [Subscription] are declared elsewhere. *)
Context {K : Type} `{Countable K}.
Context {Subscription : Type}.

(** [DimToValMap] is [std::unordered_map<MetricDimensionKey, int64_t>]. *)
Abbreviation DimToValMap := (gmap K Z).

(** Modelled from the spec: AnomalyTracker.cpp is missing. What a
    declaration does to the outside world: the anomaly is declared and "each
    registered subscription is fired". *)
Inductive Effect :=
| anomalyDeclared (key : K) (timestampNs metricId metricValue : Z)
| subscriberInformed (subscription : Subscription) (key : K) (metricId metricValue : Z).

Record Tracker := {
  mAlert : Alert;
  mSubscriptions : list Subscription;
  mNumOfPastBuckets : Z;
  (* [vector<shared_ptr<DimToValMap>>]: a null pointer is [None] *)
  mPastBuckets : list (option DimToValMap);
  mSumOverPastBuckets : DimToValMap;
  mMostRecentBucketNum : Z;
  mRefractoryPeriodEndsSec : gmap K Z;
  effects : list Effect
}.

Definition with_storage (ring : list (option DimToValMap)) (sum : DimToValMap)
    (s : Tracker) : Tracker :=
  {| mAlert := mAlert s;
     mSubscriptions := mSubscriptions s;
     mNumOfPastBuckets := mNumOfPastBuckets s;
     mPastBuckets := ring;
     mSumOverPastBuckets := sum;
     mMostRecentBucketNum := mMostRecentBucketNum s;
     mRefractoryPeriodEndsSec := mRefractoryPeriodEndsSec s;
     effects := effects s |}.

Definition with_mostRecent (bucketNum : Z) (s : Tracker) : Tracker :=
  {| mAlert := mAlert s;
     mSubscriptions := mSubscriptions s;
     mNumOfPastBuckets := mNumOfPastBuckets s;
     mPastBuckets := mPastBuckets s;
     mSumOverPastBuckets := mSumOverPastBuckets s;
     mMostRecentBucketNum := bucketNum;
     mRefractoryPeriodEndsSec := mRefractoryPeriodEndsSec s;
     effects := effects s |}.

(** Modelled from the spec: the constructor. "Number of past buckets. One
    less than the total number of buckets needed for the anomaly detection";
    [mPastBuckets] is "always of size mNumOfPastBuckets", every slot empty;
    [mMostRecentBucketNum] starts at -1. *)
Definition create (alert : Alert) (subscriptions : list Subscription) : Tracker :=
  {| mAlert := alert;
     mSubscriptions := subscriptions;
     mNumOfPastBuckets := num_buckets alert - 1;
     mPastBuckets := replicate (Z.to_nat (num_buckets alert - 1)) None;
     mSumOverPastBuckets := ∅;
     mMostRecentBucketNum := -1;
     mRefractoryPeriodEndsSec := ∅;
     effects := [] |}.

(** [getAnomalyThreshold] (defined in the header). *)
Definition getAnomalyThreshold (s : Tracker) : Z := trigger_if_sum_gt (mAlert s).

(** [getRefractoryPeriodEndsSec] (defined in the header): the stored end,
    or 0 when there is none. *)
Definition getRefractoryPeriodEndsSec (key : K) (s : Tracker) : Z :=
  match mRefractoryPeriodEndsSec s !! key with
  | Some ends => ends
  | None => 0
  end.

(** Modelled from the spec: [index], "the ring is indexed by bucketNum mod N". *)
Definition index (bucketNum : Z) (s : Tracker) : nat :=
  Z.to_nat (bucketNum mod mNumOfPastBuckets s).

(** Modelled from the spec: [getSumOverPastBuckets], "returns the sum of all
    past bucket values for the given dimension key", read from the cache. *)
Definition getSumOverPastBuckets (key : K) (s : Tracker) : Z :=
  default 0 (mSumOverPastBuckets s !! key).

(** Modelled from the spec: [subtractValueFromSum], "from
    mSumOverPastBuckets[key], subtracts bucketValue, removing it if it is now
    0". A key without a cached sum has nothing to subtract from. *)
Definition subtractValueFromSum (key : K) (bucketValue : Z) (sum : DimToValMap)
  : DimToValMap :=
  match sum !! key with
  | None => sum
  | Some v =>
      if v - bucketValue =? 0 then delete key sum
      else <[key := v - bucketValue]> sum
  end.

(** Modelled from the spec: [subtractBucketFromSum], "subtract the
    information in the given bucket from mSumOverPastBuckets and remove any
    items with value 0". *)
Definition subtractBucketFromSum (bucket : option DimToValMap) (sum : DimToValMap)
  : DimToValMap :=
  match bucket with
  | None => sum
  | Some b => map_fold subtractValueFromSum sum b
  end.

(** Modelled from the spec: AnomalyTracker.cpp is missing. One step of
    [addBucketToSum], [mSumOverPastBuckets[key] += value]. *)
Definition addValueToSum (key : K) (bucketValue : Z) (sum : DimToValMap)
  : DimToValMap :=
  <[key := default 0 (sum !! key) + bucketValue]> sum.

(** Modelled from the spec: [addBucketToSum], "add the information in the
    given bucket to mSumOverPastBuckets". *)
Definition addBucketToSum (bucket : option DimToValMap) (sum : DimToValMap)
  : DimToValMap :=
  match bucket with
  | None => sum
  | Some b => map_fold addValueToSum sum b
  end.

(** Modelled from the spec: [resetStorage], "resets all bucket data. For use
    when all the data gets stale". *)
Definition resetStorage (s : Tracker) : Tracker :=
  with_storage (replicate (Z.to_nat (mNumOfPastBuckets s)) None) ∅ s.

(** The slot at [i], null when out of range. *)
Definition slot (i : nat) (ring : list (option DimToValMap)) : option DimToValMap :=
  default None (ring !! i).

(** Modelled from the spec: AnomalyTracker.cpp is missing. One step of
    advancing: a slot of the ring is emptied and its contribution is taken out
    of the sums. *)
Definition clearSlot (i : nat) (s : Tracker) : Tracker :=
  with_storage (<[i := None]> (mPastBuckets s))
    (subtractBucketFromSum (slot i (mPastBuckets s)) (mSumOverPastBuckets s)) s.

(** Modelled from the spec: AnomalyTracker.cpp is missing. Empties the slots
    that buckets [bucketNum], ..., [bucketNum + n - 1] are about to take. *)
Fixpoint clearSlots (n : nat) (bucketNum : Z) (s : Tracker) : Tracker :=
  match n with
  | O => s
  | S n' => clearSlots n' (bucketNum + 1) (clearSlot (index bucketNum s) s)
  end.

(** Modelled from the spec: [advanceMostRecentBucketTo], "advances
    mMostRecentBucketNum to bucketNum, deleting any data that is now too
    old"; "advancing to a new bucket zeroes intervening slots and subtracts
    their contributions from the per-key sums". The bucket number never
    decreases; a jump of a whole ring or more leaves only stale data. *)
Definition advanceMostRecentBucketTo (bucketNum : Z) (s : Tracker) : Tracker :=
  if bucketNum <=? mMostRecentBucketNum s then s
  else if bucketNum - mMostRecentBucketNum s >=? mNumOfPastBuckets s then
    with_mostRecent bucketNum (resetStorage s)
  else
    with_mostRecent bucketNum
      (clearSlots (Z.to_nat (bucketNum - mMostRecentBucketNum s))
         (mMostRecentBucketNum s + 1) s).

(** Modelled from the spec: AnomalyTracker.cpp is missing. A bucket number
    that the ring has no slot for: no ring at all, before bucket 0, or older
    than the [mNumOfPastBuckets] most recent ones. *)
Definition outsideRing (bucketNum : Z) (s : Tracker) : bool :=
  (mNumOfPastBuckets s <=? 0) || (bucketNum <? 0)
  || (bucketNum <=? mMostRecentBucketNum s - mNumOfPastBuckets s).

(** Modelled from the spec: [addPastBucket(bucket, bucketNum)], "adds a
    bucket for the given bucketNum (index starting at 0). If a bucket for
    bucketNum already exists, it will be replaced. Also, advances to
    bucketNum (if not in the past), effectively filling any intervening
    buckets with 0s". *)
Definition addPastBucket (bucket : DimToValMap) (bucketNum : Z) (s : Tracker)
  : Tracker :=
  if outsideRing bucketNum s then s
  else
    let s1 :=
      if bucketNum <=? mMostRecentBucketNum s then
        with_storage (mPastBuckets s)
          (subtractBucketFromSum (slot (index bucketNum s) (mPastBuckets s))
             (mSumOverPastBuckets s)) s
      else advanceMostRecentBucketTo bucketNum s in
    with_storage (<[index bucketNum s1 := Some bucket]> (mPastBuckets s1))
      (addBucketToSum (Some bucket) (mSumOverPastBuckets s1)) s1.

(** Modelled from the spec: [addPastBucket(key, bucketValue, bucketNum)],
    "inserts (or replaces) the bucket entry for the given bucketNum at the
    given key to be the given bucketValue. If the bucket does not exist, it
    will be created. Also, advances to bucketNum (if not in the past)". *)
Definition addPastBucketValue (key : K) (bucketValue bucketNum : Z) (s : Tracker)
  : Tracker :=
  if outsideRing bucketNum s then s
  else
    match (if bucketNum <=? mMostRecentBucketNum s
           then slot (index bucketNum s) (mPastBuckets s) else None) with
    | Some bucket =>
        let sum1 :=
          match bucket !! key with
          | Some old => subtractValueFromSum key old (mSumOverPastBuckets s)
          | None => mSumOverPastBuckets s
          end in
        with_storage
          (<[index bucketNum s := Some (<[key := bucketValue]> bucket)]> (mPastBuckets s))
          (addValueToSum key bucketValue sum1) s
    | None => addPastBucket {[ key := bucketValue ]} bucketNum s
    end.

(** Modelled from the spec: [detectAnomaly], "returns true if, based on past
    buckets plus the new currentBucketValue, an anomaly has happened. Also
    advances to currBucketNum-1"; an anomaly is
    "sum(past N buckets for K) + currentPartial(K) > threshold". *)
Definition detectAnomaly (currBucketNum : Z) (key : K) (currentBucketValue : Z)
    (s : Tracker) : bool * Tracker :=
  let s1 :=
    if currBucketNum >? mMostRecentBucketNum s + 1
    then advanceMostRecentBucketTo (currBucketNum - 1) s else s in
  (getSumOverPastBuckets key s1 + currentBucketValue >? getAnomalyThreshold s1, s1).

(** Modelled from the spec: [isInRefractoryPeriod]. The stored end is in
    seconds, "from this moment and onwards, anomalies can be declared again". *)
Definition isInRefractoryPeriod (timestampNs : Z) (key : K) (s : Tracker) : bool :=
  match mRefractoryPeriodEndsSec s !! key with
  | Some ends => timestampNs <? ends * NS_PER_SEC
  | None => false
  end.

(** Modelled from the spec: AnomalyTracker.cpp is missing. The refractory
    window end for a declaration at [timestampNs]: the timestamp in whole
    seconds (rounded up) plus the alert's refractory period, stored as
    [uint32_t]. *)
Definition refractoryPeriodEnd (timestampNs : Z) (s : Tracker) : Z :=
  uint32 ((timestampNs + NS_PER_SEC - 1) / NS_PER_SEC
          + refractory_period_secs (mAlert s)).

(** Modelled from the spec: [informSubscribers], "each registered
    subscription is fired". *)
Definition informSubscribers (key : K) (metricId metricValue : Z) (s : Tracker)
  : list Effect :=
  map (fun subscription => subscriberInformed subscription key metricId metricValue)
    (mSubscriptions s).

(** Modelled from the spec: [declareAnomaly]. Nothing happens inside the
    refractory period; otherwise "the refractory window end (wall-clock
    seconds) is recorded for K, and each registered subscription is fired". *)
Definition declareAnomaly (timestampNs metricId : Z) (key : K) (metricValue : Z)
    (s : Tracker) : Tracker :=
  if isInRefractoryPeriod timestampNs key s then s
  else
    {| mAlert := mAlert s;
       mSubscriptions := mSubscriptions s;
       mNumOfPastBuckets := mNumOfPastBuckets s;
       mPastBuckets := mPastBuckets s;
       mSumOverPastBuckets := mSumOverPastBuckets s;
       mMostRecentBucketNum := mMostRecentBucketNum s;
       mRefractoryPeriodEndsSec :=
         <[key := refractoryPeriodEnd timestampNs s]> (mRefractoryPeriodEndsSec s);
       effects :=
         effects s ++ anomalyDeclared key timestampNs metricId metricValue
                      :: informSubscribers key metricId metricValue s |}.

(** Modelled from the spec: [detectAndDeclareAnomaly], "detects if ... an
    anomaly has happened, and if so, declares an anomaly and informs relevant
    subscribers. Also advances to currBucketNum-1". *)
Definition detectAndDeclareAnomaly (timestampNs currBucketNum metricId : Z)
    (key : K) (currentBucketValue : Z) (s : Tracker) : Tracker :=
  let '(detected, s1) := detectAnomaly currBucketNum key currentBucketValue s in
  if detected then declareAnomaly timestampNs metricId key currentBucketValue s1
  else s1.

(** *** Calls and histories *)

Inductive Call :=
| AddPastBucket (bucket : DimToValMap) (bucketNum : Z)
| AddPastBucketValue (key : K) (bucketValue bucketNum : Z)
| DetectAndDeclareAnomaly (timestampNs currBucketNum metricId : Z) (key : K)
    (currentBucketValue : Z).

Definition call (s : Tracker) (c : Call) : Tracker :=
  match c with
  | AddPastBucket bucket bucketNum => addPastBucket bucket bucketNum s
  | AddPastBucketValue key bucketValue bucketNum =>
      addPastBucketValue key bucketValue bucketNum s
  | DetectAndDeclareAnomaly timestampNs currBucketNum metricId key value =>
      detectAndDeclareAnomaly timestampNs currBucketNum metricId key value s
  end.

Definition run (calls : list Call) (s : Tracker) : Tracker := foldl call s calls.

(** The class "does NOT allow negative values". *)
Definition nonNegative (c : Call) : Prop :=
  match c with
  | AddPastBucket bucket _ => forall k v, bucket !! k = Some v -> 0 <= v
  | AddPastBucketValue _ bucketValue _ => 0 <= bucketValue
  | DetectAndDeclareAnomaly _ _ _ _ _ => True
  end.

(** Calls that never hand the tracker a zero. *)
Definition positive (c : Call) : Prop :=
  match c with
  | AddPastBucket bucket _ => forall k v, bucket !! k = Some v -> 0 < v
  | AddPastBucketValue _ bucketValue _ => 0 < bucketValue
  | DetectAndDeclareAnomaly _ _ _ _ _ => True
  end.

(** The value a slot holds for a key: 0 for a null slot or a missing key. *)
Definition slotValue (key : K) (b : option DimToValMap) : Z :=
  match b with
  | Some bucket => default 0 (bucket !! key)
  | None => 0
  end.

(** The sum obtained by scanning the ring. *)
Definition sumByScan (key : K) (ring : list (option DimToValMap)) : Z :=
  foldr (fun b acc => slotValue key b + acc) 0 ring.

(** *** Notions used by the proofs *)

(** Every value stored in the ring is non-negative. *)
Definition nonNegRing (ring : list (option DimToValMap)) : Prop :=
  forall i b k v, ring !! i = Some (Some b) -> b !! k = Some v -> 0 <= v.

(** The ring has [mNumOfPastBuckets] slots, holds no negative value, and
    the cached sum of every key equals the sum found by scanning the ring. *)
Record Inv (s : Tracker) : Prop := {
  inv_length : length (mPastBuckets s) = Z.to_nat (mNumOfPastBuckets s);
  inv_nonneg : nonNegRing (mPastBuckets s);
  inv_sum : forall key, getSumOverPastBuckets key s = sumByScan key (mPastBuckets s)
}.

(** The cached sums hold no entry equal to 0. *)
Definition zeroFree (sum : DimToValMap) : Prop := forall key, sum !! key <> Some 0.

(** The state after [bucket] is stored in slot [i] and added to the sums. *)
Definition put (i : nat) (bucket : DimToValMap) (s : Tracker) : Tracker :=
  with_storage (<[i := Some bucket]> (mPastBuckets s))
    (addBucketToSum (Some bucket) (mSumOverPastBuckets s)) s.

(** The replace-entry branch: bucket [bucketNum] is stored, its entry for
    [key] is overwritten. *)
Definition replaceEntry (key : K) (bucketValue : Z) (i : nat) (bucket : DimToValMap)
    (s : Tracker) : Tracker :=
  with_storage (<[i := Some (<[key := bucketValue]> bucket)]> (mPastBuckets s))
    (addValueToSum key bucketValue
       match bucket !! key with
       | Some old => subtractValueFromSum key old (mSumOverPastBuckets s)
       | None => mSumOverPastBuckets s
       end) s.

(** The tracker after [detectAnomaly] has advanced it. *)
Definition advanced (currBucketNum : Z) (s : Tracker) : Tracker :=
  if currBucketNum >? mMostRecentBucketNum s + 1
  then advanceMostRecentBucketTo (currBucketNum - 1) s else s.


#[global] Instance nonNegative_dec (c : Call) : Decision (nonNegative c).
Proof.
  destruct c; simpl; [|apply _|apply _].
  assert (Hdec : forall (i : K) (v : Z), Decision (0 <= v)) by (intros; apply _).
  exact (map_Forall_dec (fun _ v => 0 <= v) bucket).
Defined.

#[global] Instance positive_dec (c : Call) : Decision (positive c).
Proof.
  destruct c; simpl; [|apply _|apply _].
  assert (Hdec : forall (i : K) (v : Z), Decision (0 < v)) by (intros; apply _).
  exact (map_Forall_dec (fun _ v => 0 < v) bucket).
Defined.

(** *** The cache after a bucket is added or subtracted, key by key *)

Lemma lookup_addBucketToSum (b sum : DimToValMap) (k : K) :
  map_fold addValueToSum sum b !! k
  = match b !! k with
    | Some v => Some (default 0 (sum !! k) + v)
    | None => sum !! k
    end.
Proof.
  revert k.
  apply (map_fold_weak_ind
           (fun r m => forall k,
              r !! k = match m !! k with
                       | Some v => Some (default 0 (sum !! k) + v)
                       | None => sum !! k
                       end)).
  - intros k. rewrite lookup_empty. reflexivity.
  - intros i x m r Hi IH k. unfold addValueToSum.
    destruct (decide (i = k)) as [->|Hne].
    + rewrite !lookup_insert_eq. rewrite IH, Hi. reflexivity.
    + rewrite !lookup_insert_ne by assumption. apply IH.
Qed.

Lemma lookup_subtractValueFromSum (key : K) (v : Z) (sum : DimToValMap) (k : K) :
  subtractValueFromSum key v sum !! k
  = if decide (key = k) then
      match sum !! k with
      | Some x => if x - v =? 0 then None else Some (x - v)
      | None => None
      end
    else sum !! k.
Proof.
  unfold subtractValueFromSum.
  destruct (decide (key = k)) as [->|Hne].
  - destruct (sum !! k) as [x|] eqn:Hk; [|exact Hk].
    destruct (x - v =? 0).
    + apply lookup_delete_eq.
    + apply lookup_insert_eq.
  - destruct (sum !! key) as [x|]; [|reflexivity].
    destruct (x - v =? 0).
    + apply lookup_delete_ne; assumption.
    + apply lookup_insert_ne; assumption.
Qed.

Lemma lookup_subtractBucketFromSum (b sum : DimToValMap) (k : K) :
  map_fold subtractValueFromSum sum b !! k
  = match b !! k with
    | Some v =>
        match sum !! k with
        | Some x => if x - v =? 0 then None else Some (x - v)
        | None => None
        end
    | None => sum !! k
    end.
Proof.
  revert k.
  apply (map_fold_weak_ind
           (fun r m => forall k,
              r !! k = match m !! k with
                       | Some v =>
                           match sum !! k with
                           | Some x => if x - v =? 0 then None else Some (x - v)
                           | None => None
                           end
                       | None => sum !! k
                       end)).
  - intros k. rewrite lookup_empty. reflexivity.
  - intros i x m r Hi IH k. rewrite lookup_subtractValueFromSum.
    destruct (decide (i = k)) as [->|Hne].
    + rewrite lookup_insert_eq, IH, Hi. reflexivity.
    + rewrite lookup_insert_ne by assumption. apply IH.
Qed.

(** *** Scanning the ring *)

Lemma sumByScan_replicate (key : K) (n : nat) :
  sumByScan key (replicate n None) = 0.
Proof. induction n as [|n IH]; simpl; [reflexivity | exact IH]. Qed.

Lemma sumByScan_insert (key : K) (ring : list (option DimToValMap)) (i : nat)
    (b : option DimToValMap) :
  (i < length ring)%nat ->
  sumByScan key (<[i := b]> ring)
  = sumByScan key ring - slotValue key (slot i ring) + slotValue key b.
Proof.
  revert i. induction ring as [|x ring IH]; intros i Hi; simpl in Hi; [lia|].
  destruct i as [|i]; simpl.
  - unfold slot. simpl. lia.
  - rewrite IH by lia. unfold slot. simpl. lia.
Qed.

Lemma slotValue_nonneg (key : K) (ring : list (option DimToValMap)) (i : nat) :
  nonNegRing ring -> 0 <= slotValue key (slot i ring).
Proof.
  intros Hnn. unfold slot.
  destruct (ring !! i) as [[b|]|] eqn:Hi; simpl; try lia.
  destruct (b !! key) as [v|] eqn:Hk; simpl; [|lia].
  exact (Hnn i b key v Hi Hk).
Qed.

Lemma nonNegRing_cons x ring :
  nonNegRing (x :: ring) -> nonNegRing ring.
Proof. intros Hnn i b k v Hi. exact (Hnn (S i) b k v Hi). Qed.

Lemma sumByScan_nonneg (key : K) (ring : list (option DimToValMap)) :
  nonNegRing ring -> 0 <= sumByScan key ring.
Proof.
  induction ring as [|x ring IH]; intros Hnn; simpl; [lia|].
  assert (0 <= slotValue key (slot 0 (x :: ring)))
    by (apply slotValue_nonneg; assumption).
  unfold slot in *. simpl in *.
  specialize (IH (nonNegRing_cons _ _ Hnn)). lia.
Qed.

Lemma slotValue_le_sumByScan (key : K) (ring : list (option DimToValMap)) (i : nat) :
  nonNegRing ring -> slotValue key (slot i ring) <= sumByScan key ring.
Proof.
  revert i. induction ring as [|x ring IH]; intros i Hnn.
  - unfold slot. rewrite lookup_nil. simpl. lia.
  - pose proof (sumByScan_nonneg key ring (nonNegRing_cons _ _ Hnn)) as Hrest.
    destruct i as [|i].
    + unfold slot. simpl. lia.
    + specialize (IH i (nonNegRing_cons _ _ Hnn)).
      pose proof (slotValue_nonneg key (x :: ring) 0 Hnn) as Hx.
      unfold slot in *. simpl in *. lia.
Qed.

Lemma nonNegRing_insert (ring : list (option DimToValMap)) (i : nat)
    (b : option DimToValMap) :
  nonNegRing ring ->
  (forall m k v, b = Some m -> m !! k = Some v -> 0 <= v) ->
  nonNegRing (<[i := b]> ring).
Proof.
  intros Hnn Hb j m k v Hj Hk.
  destruct (decide (i = j)) as [->|Hne].
  - destruct (decide (j < length ring)%nat) as [Hlt|Hge].
    + rewrite list_lookup_insert_eq in Hj by assumption.
      injection Hj as Hj. exact (Hb m k v Hj Hk).
    + rewrite list_insert_ge in Hj by lia. exact (Hnn j m k v Hj Hk).
  - rewrite list_lookup_insert_ne in Hj by assumption.
    exact (Hnn j m k v Hj Hk).
Qed.

Lemma nonNegRing_replicate (n : nat) : nonNegRing (replicate n None).
Proof.
  intros i b k v Hi. apply lookup_replicate in Hi as [Hi _]. discriminate.
Qed.

Lemma index_lt (bucketNum : Z) (s : Tracker) :
  0 < mNumOfPastBuckets s ->
  (index bucketNum s < Z.to_nat (mNumOfPastBuckets s))%nat.
Proof.
  intros HN. unfold index.
  pose proof (Z.mod_pos_bound bucketNum (mNumOfPastBuckets s) HN). lia.
Qed.

Lemma create_Inv alert subscriptions : Inv (create alert subscriptions).
Proof.
  constructor; simpl.
  - apply length_replicate.
  - apply nonNegRing_replicate.
  - intros key. unfold getSumOverPastBuckets. simpl.
    rewrite lookup_empty, sumByScan_replicate. reflexivity.
Qed.

Lemma resetStorage_Inv s : Inv (resetStorage s).
Proof.
  constructor; simpl.
  - apply length_replicate.
  - apply nonNegRing_replicate.
  - intros key. unfold getSumOverPastBuckets. simpl.
    rewrite lookup_empty, sumByScan_replicate. reflexivity.
Qed.

Lemma zeroFree_subtractBucketFromSum (b : option DimToValMap) (sum : DimToValMap) :
  zeroFree sum -> zeroFree (subtractBucketFromSum b sum).
Proof.
  intros Hz key. destruct b as [b|]; simpl; [|apply Hz].
  rewrite lookup_subtractBucketFromSum.
  destruct (b !! key) as [v|]; [|apply Hz].
  destruct (sum !! key) as [x|]; [|discriminate].
  destruct (x - v =? 0) eqn:Hx; [discriminate|].
  apply Z.eqb_neq in Hx. congruence.
Qed.

Lemma zeroFree_subtractValueFromSum (key : K) (v : Z) (sum : DimToValMap) :
  zeroFree sum -> zeroFree (subtractValueFromSum key v sum).
Proof.
  intros Hz k. rewrite lookup_subtractValueFromSum.
  destruct (decide (key = k)); [|apply Hz].
  destruct (sum !! k) as [x|]; [|discriminate].
  destruct (x - v =? 0) eqn:Hx; [discriminate|].
  apply Z.eqb_neq in Hx. congruence.
Qed.

(** Emptying a slot keeps the invariant. *)
Lemma clearSlot_Inv (i : nat) (s : Tracker) : Inv s -> Inv (clearSlot i s).
Proof.
  intros [Hlen Hnn Hsum].
  constructor; simpl.
  - rewrite length_insert. exact Hlen.
  - apply nonNegRing_insert; [assumption | discriminate].
  - intros key. unfold getSumOverPastBuckets. simpl.
    destruct (decide (i < length (mPastBuckets s))%nat) as [Hlt|Hge].
    + rewrite sumByScan_insert by assumption. simpl.
      specialize (Hsum key). unfold getSumOverPastBuckets in Hsum.
      pose proof (slotValue_le_sumByScan key _ i Hnn) as Hle.
      pose proof (slotValue_nonneg key _ i Hnn) as Hge0.
      rewrite <- Hsum in *.
      destruct (slot i (mPastBuckets s)) as [b|]; simpl in *; [|lia].
      rewrite lookup_subtractBucketFromSum.
      destruct (b !! key) as [v|]; simpl in *; [|lia].
      destruct (mSumOverPastBuckets s !! key) as [x|]; simpl in *; [|lia].
      destruct (x - v =? 0) eqn:Hx; simpl; [apply Z.eqb_eq in Hx|]; lia.
    + rewrite list_insert_ge by lia.
      unfold slot. rewrite lookup_ge_None_2 by lia. simpl. apply Hsum.
Qed.

Lemma clearSlot_zeroFree (i : nat) (s : Tracker) :
  zeroFree (mSumOverPastBuckets s) ->
  zeroFree (mSumOverPastBuckets (clearSlot i s)).
Proof. intros Hz. simpl. apply zeroFree_subtractBucketFromSum, Hz. Qed.

Lemma clearSlot_slot (i : nat) (s : Tracker) :
  slot i (mPastBuckets (clearSlot i s)) = None.
Proof.
  simpl. unfold slot.
  destruct (decide (i < length (mPastBuckets s))%nat) as [Hlt|Hge].
  - rewrite list_lookup_insert_eq by assumption. reflexivity.
  - rewrite lookup_ge_None_2; [reflexivity|]. rewrite length_insert. lia.
Qed.

Lemma clearSlots_Inv (n : nat) (bucketNum : Z) (s : Tracker) :
  Inv s -> Inv (clearSlots n bucketNum s).
Proof.
  revert bucketNum s. induction n as [|n IH]; intros bucketNum s Hinv; simpl.
  - exact Hinv.
  - apply IH, clearSlot_Inv, Hinv.
Qed.

Lemma clearSlots_zeroFree (n : nat) (bucketNum : Z) (s : Tracker) :
  zeroFree (mSumOverPastBuckets s) ->
  zeroFree (mSumOverPastBuckets (clearSlots n bucketNum s)).
Proof.
  revert bucketNum s. induction n as [|n IH]; intros bucketNum s Hz; simpl.
  - exact Hz.
  - apply IH, clearSlot_zeroFree, Hz.
Qed.

Lemma clearSlots_frame (n : nat) (bucketNum : Z) (s : Tracker) :
  mAlert (clearSlots n bucketNum s) = mAlert s
  /\ mSubscriptions (clearSlots n bucketNum s) = mSubscriptions s
  /\ mNumOfPastBuckets (clearSlots n bucketNum s) = mNumOfPastBuckets s
  /\ mMostRecentBucketNum (clearSlots n bucketNum s) = mMostRecentBucketNum s
  /\ mRefractoryPeriodEndsSec (clearSlots n bucketNum s) = mRefractoryPeriodEndsSec s
  /\ effects (clearSlots n bucketNum s) = effects s.
Proof.
  revert bucketNum s. induction n as [|n IH]; intros bucketNum s; simpl.
  - repeat split.
  - destruct (IH (bucketNum + 1) (clearSlot (index bucketNum s) s))
      as (H1 & H2 & H3 & H4 & H5 & H6).
    rewrite H1, H2, H3, H4, H5, H6. repeat split.
Qed.

(** The slot of the last bucket stepped over is empty afterwards. *)
Lemma clearSlots_last_slot (n : nat) (bucketNum : Z) (s : Tracker) :
  slot (index (bucketNum + Z.of_nat n) s)
    (mPastBuckets (clearSlots (S n) bucketNum s)) = None.
Proof.
  revert bucketNum s. induction n as [|n IH]; intros bucketNum s.
  - simpl. rewrite Z.add_0_r. apply clearSlot_slot.
  - change (clearSlots (S (S n)) bucketNum s)
      with (clearSlots (S n) (bucketNum + 1) (clearSlot (index bucketNum s) s)).
    replace (bucketNum + Z.of_nat (S n)) with (bucketNum + 1 + Z.of_nat n) by lia.
    apply (IH (bucketNum + 1) (clearSlot (index bucketNum s) s)).
Qed.

(** *** Advancing *)

Lemma advanceMostRecentBucketTo_Inv (bucketNum : Z) (s : Tracker) :
  Inv s -> Inv (advanceMostRecentBucketTo bucketNum s).
Proof.
  intros Hinv. unfold advanceMostRecentBucketTo.
  destruct (bucketNum <=? mMostRecentBucketNum s); [exact Hinv|].
  destruct (_ >=? _).
  - destruct (resetStorage_Inv s) as [H1 H2 H3]. constructor; assumption.
  - destruct (clearSlots_Inv (Z.to_nat (bucketNum - mMostRecentBucketNum s))
                (mMostRecentBucketNum s + 1) s Hinv) as [H1 H2 H3].
    constructor; assumption.
Qed.

Lemma advanceMostRecentBucketTo_zeroFree (bucketNum : Z) (s : Tracker) :
  zeroFree (mSumOverPastBuckets s) ->
  zeroFree (mSumOverPastBuckets (advanceMostRecentBucketTo bucketNum s)).
Proof.
  intros Hz. unfold advanceMostRecentBucketTo.
  destruct (bucketNum <=? mMostRecentBucketNum s); [exact Hz|].
  destruct (_ >=? _); simpl.
  - intros key. rewrite lookup_empty. discriminate.
  - apply clearSlots_zeroFree, Hz.
Qed.

Lemma advanceMostRecentBucketTo_frame (bucketNum : Z) (s : Tracker) :
  mAlert (advanceMostRecentBucketTo bucketNum s) = mAlert s
  /\ mSubscriptions (advanceMostRecentBucketTo bucketNum s) = mSubscriptions s
  /\ mNumOfPastBuckets (advanceMostRecentBucketTo bucketNum s) = mNumOfPastBuckets s
  /\ mRefractoryPeriodEndsSec (advanceMostRecentBucketTo bucketNum s)
     = mRefractoryPeriodEndsSec s
  /\ effects (advanceMostRecentBucketTo bucketNum s) = effects s.
Proof.
  unfold advanceMostRecentBucketTo.
  destruct (bucketNum <=? mMostRecentBucketNum s); [repeat split|].
  destruct (_ >=? _); simpl; [repeat split|].
  destruct (clearSlots_frame (Z.to_nat (bucketNum - mMostRecentBucketNum s))
              (mMostRecentBucketNum s + 1) s) as (H1 & H2 & H3 & _ & H5 & H6).
  repeat split; assumption.
Qed.

(** [mMostRecentBucketNum] never decreases. *)
Lemma advanceMostRecentBucketTo_mostRecent (bucketNum : Z) (s : Tracker) :
  mMostRecentBucketNum (advanceMostRecentBucketTo bucketNum s)
  = Z.max bucketNum (mMostRecentBucketNum s).
Proof.
  unfold advanceMostRecentBucketTo.
  destruct (bucketNum <=? mMostRecentBucketNum s) eqn:Hle.
  - apply Z.leb_le in Hle. lia.
  - apply Z.leb_gt in Hle. destruct (_ >=? _); simpl; lia.
Qed.

(** After a real advance the slot of the new most recent bucket is empty. *)
Lemma advanceMostRecentBucketTo_slot (bucketNum : Z) (s : Tracker) :
  mMostRecentBucketNum s < bucketNum ->
  slot (index bucketNum s) (mPastBuckets (advanceMostRecentBucketTo bucketNum s))
  = None.
Proof.
  intros Hlt. unfold advanceMostRecentBucketTo.
  destruct (bucketNum <=? mMostRecentBucketNum s) eqn:Hle;
    [apply Z.leb_le in Hle; lia|].
  destruct (_ >=? _); simpl.
  - unfold slot.
    destruct (replicate _ _ !! _) as [x|] eqn:Hx; [|reflexivity].
    apply lookup_replicate in Hx as [-> _]. reflexivity.
  - remember (Z.to_nat (bucketNum - mMostRecentBucketNum s)) as n eqn:Hn.
    destruct n as [|n]; [lia|].
    replace bucketNum with (mMostRecentBucketNum s + 1 + Z.of_nat n) at 1 by lia.
    apply clearSlots_last_slot.
Qed.

(** *** Filling an empty slot *)

Lemma put_Inv (i : nat) (bucket : DimToValMap) (s : Tracker) :
  Inv s ->
  (i < length (mPastBuckets s))%nat ->
  slot i (mPastBuckets s) = None ->
  (forall k v, bucket !! k = Some v -> 0 <= v) ->
  Inv (put i bucket s).
Proof.
  intros [Hlen Hnn Hsum] Hi Hempty Hbucket.
  constructor; simpl.
  - rewrite length_insert. exact Hlen.
  - apply nonNegRing_insert; [assumption|].
    intros m k v [= <-] Hk. exact (Hbucket k v Hk).
  - intros key. unfold getSumOverPastBuckets. simpl.
    rewrite sumByScan_insert by assumption. rewrite Hempty. simpl.
    rewrite lookup_addBucketToSum. rewrite <- Hsum.
    unfold getSumOverPastBuckets.
    destruct (bucket !! key) as [v|]; simpl; lia.
Qed.

Lemma put_zeroFree (i : nat) (bucket : DimToValMap) (s : Tracker) :
  Inv s ->
  zeroFree (mSumOverPastBuckets s) ->
  (forall k v, bucket !! k = Some v -> 0 < v) ->
  zeroFree (mSumOverPastBuckets (put i bucket s)).
Proof.
  intros [_ Hnn Hsum] Hz Hbucket key. simpl.
  rewrite lookup_addBucketToSum.
  destruct (bucket !! key) as [v|] eqn:Hk; [|apply Hz].
  specialize (Hsum key). unfold getSumOverPastBuckets in Hsum.
  pose proof (sumByScan_nonneg key _ Hnn).
  specialize (Hbucket key v Hk).
  intros [= Heq]. lia.
Qed.

Lemma put_after_clearSlot (i : nat) (bucket : DimToValMap) (s : Tracker) :
  put i bucket (clearSlot i s)
  = with_storage (<[i := Some bucket]> (mPastBuckets s))
      (addBucketToSum (Some bucket)
         (subtractBucketFromSum (slot i (mPastBuckets s)) (mSumOverPastBuckets s)))
      s.
Proof.
  unfold put, clearSlot, with_storage. simpl.
  rewrite list_insert_insert_eq. reflexivity.
Qed.

(** *** addPastBucket *)

Lemma outsideRing_false (bucketNum : Z) (s : Tracker) :
  outsideRing bucketNum s = false ->
  0 < mNumOfPastBuckets s /\ 0 <= bucketNum
  /\ mMostRecentBucketNum s - mNumOfPastBuckets s < bucketNum.
Proof.
  unfold outsideRing. rewrite !orb_false_iff.
  rewrite Z.leb_gt, Z.ltb_ge, Z.leb_gt. tauto.
Qed.

(** [addPastBucket] is: empty the slot (by replacing or by advancing), then
    fill it. *)
Lemma addPastBucket_as_put (bucket : DimToValMap) (bucketNum : Z) (s : Tracker) :
  outsideRing bucketNum s = false ->
  addPastBucket bucket bucketNum s
  = put (index bucketNum s) bucket
      (if bucketNum <=? mMostRecentBucketNum s
       then clearSlot (index bucketNum s) s
       else advanceMostRecentBucketTo bucketNum s).
Proof.
  intros Hout. unfold addPastBucket. rewrite Hout.
  destruct (bucketNum <=? mMostRecentBucketNum s).
  - rewrite put_after_clearSlot. reflexivity.
  - unfold put, index.
    destruct (advanceMostRecentBucketTo_frame bucketNum s) as (_ & _ & -> & _).
    reflexivity.
Qed.

Lemma addPastBucket_Inv (bucket : DimToValMap) (bucketNum : Z) (s : Tracker) :
  Inv s ->
  (forall k v, bucket !! k = Some v -> 0 <= v) ->
  Inv (addPastBucket bucket bucketNum s).
Proof.
  intros Hinv Hbucket.
  destruct (outsideRing bucketNum s) eqn:Hout.
  { unfold addPastBucket. rewrite Hout. exact Hinv. }
  rewrite addPastBucket_as_put by assumption.
  apply outsideRing_false in Hout as (HN & _ & _).
  pose proof (index_lt bucketNum s HN) as Hidx.
  destruct (bucketNum <=? mMostRecentBucketNum s) eqn:Hle.
  - apply put_Inv; [apply clearSlot_Inv, Hinv| | apply clearSlot_slot | assumption].
    simpl. rewrite length_insert, (inv_length _ Hinv). exact Hidx.
  - apply Z.leb_gt in Hle.
    pose proof (advanceMostRecentBucketTo_Inv bucketNum s Hinv) as Hadv.
    apply put_Inv; [assumption| |apply advanceMostRecentBucketTo_slot; assumption
                   |assumption].
    rewrite (inv_length _ Hadv).
    destruct (advanceMostRecentBucketTo_frame bucketNum s) as (_ & _ & -> & _).
    exact Hidx.
Qed.

Lemma addPastBucket_zeroFree (bucket : DimToValMap) (bucketNum : Z) (s : Tracker) :
  Inv s ->
  zeroFree (mSumOverPastBuckets s) ->
  (forall k v, bucket !! k = Some v -> 0 < v) ->
  zeroFree (mSumOverPastBuckets (addPastBucket bucket bucketNum s)).
Proof.
  intros Hinv Hz Hbucket.
  destruct (outsideRing bucketNum s) eqn:Hout.
  { unfold addPastBucket. rewrite Hout. exact Hz. }
  rewrite addPastBucket_as_put by assumption.
  destruct (bucketNum <=? mMostRecentBucketNum s).
  - apply put_zeroFree;
      [apply clearSlot_Inv, Hinv | apply clearSlot_zeroFree, Hz | assumption].
  - apply put_zeroFree;
      [apply advanceMostRecentBucketTo_Inv, Hinv
      |apply advanceMostRecentBucketTo_zeroFree, Hz | assumption].
Qed.

(** *** addPastBucket(key, bucketValue, bucketNum) *)

Lemma slot_Some_lookup (i : nat) (ring : list (option DimToValMap)) (b : DimToValMap) :
  slot i ring = Some b -> ring !! i = Some (Some b).
Proof.
  unfold slot. destruct (ring !! i) as [x|]; simpl; [|discriminate].
  intros ->. reflexivity.
Qed.

Lemma replaceEntry_cache (key : K) (bucketValue : Z) (i : nat) (bucket : DimToValMap)
    (s : Tracker) (k : K) :
  Inv s ->
  slot i (mPastBuckets s) = Some bucket ->
  default 0 (mSumOverPastBuckets (replaceEntry key bucketValue i bucket s) !! k)
  = getSumOverPastBuckets k s - default 0 (bucket !! k)
    + default 0 (<[key := bucketValue]> bucket !! k)
  /\ (0 <= getSumOverPastBuckets k s - default 0 (bucket !! k)).
Proof.
  intros [Hlen Hnn Hsum] Hslot.
  pose proof (slotValue_le_sumByScan k _ i Hnn) as Hle.
  pose proof (slotValue_nonneg k _ i Hnn) as Hge.
  rewrite Hslot in Hle, Hge. simpl in Hle, Hge. rewrite <- Hsum in Hle.
  split; [|lia].
  unfold getSumOverPastBuckets in *. simpl. unfold addValueToSum.
  destruct (decide (key = k)) as [->|Hne].
  - rewrite !lookup_insert_eq. simpl.
    destruct (bucket !! k) as [old|]; simpl in *; [|lia].
    rewrite lookup_subtractValueFromSum.
    destruct (decide (k = k)); [|congruence].
    destruct (mSumOverPastBuckets s !! k) as [x|]; simpl in *; [|lia].
    destruct (x - old =? 0) eqn:Hx; simpl; [apply Z.eqb_eq in Hx|]; lia.
  - rewrite !lookup_insert_ne by assumption.
    destruct (bucket !! key) as [old|].
    + rewrite lookup_subtractValueFromSum.
      destruct (decide (key = k)); [congruence|]. lia.
    + lia.
Qed.

Lemma replaceEntry_Inv (key : K) (bucketValue : Z) (i : nat) (bucket : DimToValMap)
    (s : Tracker) :
  Inv s ->
  slot i (mPastBuckets s) = Some bucket ->
  0 <= bucketValue ->
  Inv (replaceEntry key bucketValue i bucket s).
Proof.
  intros Hinv Hslot Hv.
  pose proof (slot_Some_lookup _ _ _ Hslot) as Hlook.
  pose proof (lookup_lt_Some _ _ _ Hlook) as Hi.
  constructor.
  - simpl. rewrite length_insert. apply (inv_length _ Hinv).
  - simpl. apply nonNegRing_insert; [apply (inv_nonneg _ Hinv)|].
    intros m k v [= <-] Hk.
    destruct (decide (key = k)) as [->|Hne].
    + rewrite lookup_insert_eq in Hk. injection Hk as <-. exact Hv.
    + rewrite lookup_insert_ne in Hk by assumption.
      exact (inv_nonneg _ Hinv i bucket k v Hlook Hk).
  - intros k. unfold getSumOverPastBuckets at 1.
    destruct (replaceEntry_cache key bucketValue i bucket s k Hinv Hslot) as [-> _].
    change (mPastBuckets (replaceEntry key bucketValue i bucket s))
      with (<[i := Some (<[key := bucketValue]> bucket)]> (mPastBuckets s)).
    rewrite sumByScan_insert by assumption. rewrite Hslot. simpl.
    rewrite (inv_sum _ Hinv). reflexivity.
Qed.

Lemma replaceEntry_zeroFree (key : K) (bucketValue : Z) (i : nat)
    (bucket : DimToValMap) (s : Tracker) :
  Inv s ->
  slot i (mPastBuckets s) = Some bucket ->
  zeroFree (mSumOverPastBuckets s) ->
  0 < bucketValue ->
  zeroFree (mSumOverPastBuckets (replaceEntry key bucketValue i bucket s)).
Proof.
  intros Hinv Hslot Hz Hv k.
  destruct (decide (key = k)) as [->|Hne].
  - destruct (replaceEntry_cache k bucketValue i bucket s k Hinv Hslot)
      as [Hval Hge].
    intros Heq. rewrite Heq in Hval.
    rewrite lookup_insert_eq in Hval. simpl in Hval. lia.
  - simpl. unfold addValueToSum. rewrite lookup_insert_ne by assumption.
    destruct (bucket !! key) as [old|]; [|apply Hz].
    apply zeroFree_subtractValueFromSum, Hz.
Qed.

Lemma addPastBucketValue_cases (key : K) (bucketValue bucketNum : Z) (s : Tracker) :
  outsideRing bucketNum s = false ->
  (exists bucket,
      slot (index bucketNum s) (mPastBuckets s) = Some bucket
      /\ addPastBucketValue key bucketValue bucketNum s
         = replaceEntry key bucketValue (index bucketNum s) bucket s)
  \/ addPastBucketValue key bucketValue bucketNum s
     = addPastBucket {[ key := bucketValue ]} bucketNum s.
Proof.
  intros Hout. unfold addPastBucketValue. rewrite Hout.
  destruct (bucketNum <=? mMostRecentBucketNum s); [|right; reflexivity].
  destruct (slot (index bucketNum s) (mPastBuckets s)) as [bucket|] eqn:Hslot;
    [|right; reflexivity].
  left. exists bucket. split; reflexivity.
Qed.

Lemma addPastBucketValue_Inv (key : K) (bucketValue bucketNum : Z) (s : Tracker) :
  Inv s -> 0 <= bucketValue ->
  Inv (addPastBucketValue key bucketValue bucketNum s).
Proof.
  intros Hinv Hv.
  destruct (outsideRing bucketNum s) eqn:Hout.
  { unfold addPastBucketValue. rewrite Hout. exact Hinv. }
  destruct (addPastBucketValue_cases key bucketValue bucketNum s Hout)
    as [(bucket & Hslot & ->)| ->].
  - apply replaceEntry_Inv; assumption.
  - apply addPastBucket_Inv; [assumption|].
    intros k v Hk. apply lookup_singleton_Some in Hk as [_ <-]. exact Hv.
Qed.

Lemma addPastBucketValue_zeroFree (key : K) (bucketValue bucketNum : Z) (s : Tracker) :
  Inv s -> zeroFree (mSumOverPastBuckets s) -> 0 < bucketValue ->
  zeroFree (mSumOverPastBuckets (addPastBucketValue key bucketValue bucketNum s)).
Proof.
  intros Hinv Hz Hv.
  destruct (outsideRing bucketNum s) eqn:Hout.
  { unfold addPastBucketValue. rewrite Hout. exact Hz. }
  destruct (addPastBucketValue_cases key bucketValue bucketNum s Hout)
    as [(bucket & Hslot & ->)| ->].
  - apply replaceEntry_zeroFree; assumption.
  - apply addPastBucket_zeroFree; [assumption|assumption|].
    intros k v Hk. apply lookup_singleton_Some in Hk as [_ <-]. exact Hv.
Qed.

(** *** Detection and declaration *)

Lemma advanced_Inv (currBucketNum : Z) (s : Tracker) :
  Inv s -> Inv (advanced currBucketNum s).
Proof.
  intros Hinv. unfold advanced.
  destruct (_ >? _); [apply advanceMostRecentBucketTo_Inv|]; exact Hinv.
Qed.

Lemma advanced_zeroFree (currBucketNum : Z) (s : Tracker) :
  zeroFree (mSumOverPastBuckets s) ->
  zeroFree (mSumOverPastBuckets (advanced currBucketNum s)).
Proof.
  intros Hz. unfold advanced.
  destruct (_ >? _); [apply advanceMostRecentBucketTo_zeroFree|]; exact Hz.
Qed.

Lemma advanced_frame (currBucketNum : Z) (s : Tracker) :
  mAlert (advanced currBucketNum s) = mAlert s
  /\ mSubscriptions (advanced currBucketNum s) = mSubscriptions s
  /\ mNumOfPastBuckets (advanced currBucketNum s) = mNumOfPastBuckets s
  /\ mRefractoryPeriodEndsSec (advanced currBucketNum s) = mRefractoryPeriodEndsSec s
  /\ effects (advanced currBucketNum s) = effects s.
Proof.
  unfold advanced.
  destruct (_ >? _); [apply advanceMostRecentBucketTo_frame|repeat split].
Qed.

Lemma detectAndDeclareAnomaly_unfold (timestampNs currBucketNum metricId : Z)
    (key : K) (value : Z) (s : Tracker) :
  detectAndDeclareAnomaly timestampNs currBucketNum metricId key value s
  = let s1 := advanced currBucketNum s in
    if getSumOverPastBuckets key s1 + value >? getAnomalyThreshold s1
    then declareAnomaly timestampNs metricId key value s1
    else s1.
Proof. reflexivity. Qed.

Lemma declareAnomaly_storage (timestampNs metricId : Z) (key : K) (value : Z)
    (s : Tracker) :
  mPastBuckets (declareAnomaly timestampNs metricId key value s) = mPastBuckets s
  /\ mSumOverPastBuckets (declareAnomaly timestampNs metricId key value s)
     = mSumOverPastBuckets s
  /\ mNumOfPastBuckets (declareAnomaly timestampNs metricId key value s)
     = mNumOfPastBuckets s
  /\ mAlert (declareAnomaly timestampNs metricId key value s) = mAlert s
  /\ mSubscriptions (declareAnomaly timestampNs metricId key value s)
     = mSubscriptions s.
Proof.
  unfold declareAnomaly.
  destruct (isInRefractoryPeriod timestampNs key s); repeat split.
Qed.

Lemma detectAndDeclareAnomaly_storage (timestampNs currBucketNum metricId : Z)
    (key : K) (value : Z) (s : Tracker) :
  let s' := detectAndDeclareAnomaly timestampNs currBucketNum metricId key value s in
  mPastBuckets s' = mPastBuckets (advanced currBucketNum s)
  /\ mSumOverPastBuckets s' = mSumOverPastBuckets (advanced currBucketNum s)
  /\ mNumOfPastBuckets s' = mNumOfPastBuckets s
  /\ mAlert s' = mAlert s
  /\ mSubscriptions s' = mSubscriptions s.
Proof.
  intros s'. subst s'. rewrite detectAndDeclareAnomaly_unfold. cbv zeta.
  destruct (advanced_frame currBucketNum s) as (Ha & Hs & Hn & _).
  destruct (_ >? _).
  - destruct (declareAnomaly_storage timestampNs metricId key value
                (advanced currBucketNum s)) as (-> & -> & -> & -> & ->).
    repeat split; assumption.
  - repeat split; assumption.
Qed.

Lemma detectAndDeclareAnomaly_Inv (timestampNs currBucketNum metricId : Z)
    (key : K) (value : Z) (s : Tracker) :
  Inv s ->
  Inv (detectAndDeclareAnomaly timestampNs currBucketNum metricId key value s).
Proof.
  intros Hinv.
  destruct (detectAndDeclareAnomaly_storage timestampNs currBucketNum metricId
              key value s) as (Hring & Hsum & Hn & _).
  destruct (advanced_Inv currBucketNum s Hinv) as [H1 H2 H3].
  destruct (advanced_frame currBucketNum s) as (_ & _ & Hn' & _).
  constructor.
  - rewrite Hring, Hn, <- Hn'. exact H1.
  - rewrite Hring. exact H2.
  - intros k. unfold getSumOverPastBuckets. rewrite Hring, Hsum. apply H3.
Qed.

(** *** Histories *)

Lemma call_Inv (c : Call) (s : Tracker) : nonNegative c -> Inv s -> Inv (call s c).
Proof.
  destruct c; simpl; intros Hc Hinv.
  - apply addPastBucket_Inv; assumption.
  - apply addPastBucketValue_Inv; assumption.
  - apply detectAndDeclareAnomaly_Inv; assumption.
Qed.

Lemma call_zeroFree (c : Call) (s : Tracker) :
  positive c -> Inv s -> zeroFree (mSumOverPastBuckets s) ->
  zeroFree (mSumOverPastBuckets (call s c)).
Proof.
  destruct c; simpl; intros Hc Hinv Hz.
  - apply addPastBucket_zeroFree; assumption.
  - apply addPastBucketValue_zeroFree; assumption.
  - destruct (detectAndDeclareAnomaly_storage timestampNs currBucketNum metricId
                key currentBucketValue s) as (_ & -> & _).
    apply advanced_zeroFree, Hz.
Qed.

Lemma positive_nonNegative (c : Call) : positive c -> nonNegative c.
Proof.
  destruct c; simpl; [|lia|trivial].
  intros Hp k v Hk. specialize (Hp k v Hk). lia.
Qed.

Lemma run_Inv (calls : list Call) (s : Tracker) :
  Forall nonNegative calls -> Inv s -> Inv (run calls s).
Proof.
  intros Hcalls. revert s.
  induction Hcalls as [|c calls Hc _ IH]; intros s Hinv; simpl.
  - exact Hinv.
  - apply IH, call_Inv; assumption.
Qed.

Lemma run_zeroFree (calls : list Call) (s : Tracker) :
  Forall positive calls -> Inv s -> zeroFree (mSumOverPastBuckets s) ->
  zeroFree (mSumOverPastBuckets (run calls s)).
Proof.
  intros Hcalls. revert s.
  induction Hcalls as [|c calls Hc _ IH]; intros s Hinv Hz; simpl.
  - exact Hz.
  - apply IH.
    + apply call_Inv; [apply positive_nonNegative|]; assumption.
    + apply call_zeroFree; assumption.
Qed.






(** *** C1 *)


(** *** The cached sums against the ring *)

(** After any history of calls that hand the tracker non-negative values,
    the cached sum of every key (0 when the key is absent) equals the sum of
    the values that the buckets stored in the ring hold for the key; and
    when every value handed over is strictly positive, [mSumOverPastBuckets]
    has no entry equal to 0. *)
Theorem cached_sum_equals_ring_scan
    (alert : Alert) (subscriptions : list Subscription) (calls : list Call) :
  Forall nonNegative calls ->
  let s := run calls (create alert subscriptions) in
  (forall key : K,
      default 0 (mSumOverPastBuckets s !! key) = sumByScan key (mPastBuckets s))
  /\ (Forall positive calls ->
      forall key : K, mSumOverPastBuckets s !! key <> Some 0).
Proof.
  intros Hcalls s. split.
  - intros key.
    apply (inv_sum _ (run_Inv calls _ Hcalls (create_Inv alert subscriptions))).
  - intros Hpos.
    apply run_zeroFree; [assumption | apply create_Inv|].
    intros key. simpl. rewrite lookup_empty. discriminate.
Qed.

End Tracker.

(** *** Concrete trackers

    Keys and subscriptions are integers. *)

(** Scenario 4 of the specification: threshold 5, one bucket (so no past
    bucket), refractory period 30 s. *)
Definition refractoryAlert : Alert :=
  {| trigger_if_sum_gt := 5; num_buckets := 1; refractory_period_secs := 30 |}.

Definition scenario4 : list (@Call Z _ _) :=
  [ DetectAndDeclareAnomaly (10 * NS_PER_SEC) 0 1 7 6;
    DetectAndDeclareAnomaly (70 * NS_PER_SEC) 1 1 7 7;
    DetectAndDeclareAnomaly (80 * NS_PER_SEC) 1 1 7 6 ].

Example scenario4_first_declaration :
  let s := run (take 1 scenario4) (create refractoryAlert [100]) in
  effects s = [anomalyDeclared 7 (10 * NS_PER_SEC) 1 6; subscriberInformed 100 7 1 6]
  /\ getRefractoryPeriodEndsSec 7 s = 40.
Proof. vm_compute. split; reflexivity. Qed.

Example scenario4_whole :
  let s := run scenario4 (create refractoryAlert [100]) in
  effects s = [anomalyDeclared 7 (10 * NS_PER_SEC) 1 6; subscriberInformed 100 7 1 6;
               anomalyDeclared 7 (70 * NS_PER_SEC) 1 7; subscriberInformed 100 7 1 7]
  /\ getRefractoryPeriodEndsSec 7 s = 100.
Proof. vm_compute. split; reflexivity. Qed.

(** A window of three buckets (two past buckets), threshold 10. *)
Definition windowAlert : Alert :=
  {| trigger_if_sum_gt := 10; num_buckets := 3; refractory_period_secs := 60 |}.

(** Buckets 0 and 1 are filled, the entry of bucket 1 is overwritten, and
    bucket 3 pushes bucket 0 and 1 out of the window. *)
Definition history : list (@Call Z _ _) :=
  [ AddPastBucket {[ 7 := 3 ]} 0;
    AddPastBucketValue 7 4 1;
    AddPastBucketValue 8 1 1;
    AddPastBucketValue 7 6 1;
    AddPastBucket {[ 7 := 5 ]} 2 ].

Example history_sums :
  let s := run history (create windowAlert [100; 200]) in
  getSumOverPastBuckets 7 s = 11 /\ getSumOverPastBuckets 8 s = 1
  /\ mMostRecentBucketNum s = 2.
Proof. vm_compute. repeat split; reflexivity. Qed.

Lemma history_nonNegative : Forall nonNegative history.
Proof. apply (bool_decide_unpack (Forall nonNegative history)). vm_compute. exact I. Defined.


Example declaration_after_history :
  let s := run history (create windowAlert [100; 200]) in
  let s' := detectAndDeclareAnomaly (5 * NS_PER_SEC) 3 1 7 2 s in
  effects s' = [anomalyDeclared 7 (5 * NS_PER_SEC) 1 2;
                subscriberInformed 100 7 1 2; subscriberInformed 200 7 1 2]
  /\ getRefractoryPeriodEndsSec 7 s' = 65.
Proof. vm_compute. split; reflexivity. Qed.

Lemma history_positive : Forall positive history.
Proof. apply (bool_decide_unpack (Forall positive history)). vm_compute. exact I. Defined.

(** The cached sums of the history agree with a scan of its ring, for a
    key of both stored buckets, a key of one of them and a key of none, and
    no cached sum of this all-positive history is 0. *)
Lemma cached_sum_equals_ring_scan_witness :
  let s := run history (create windowAlert [100; 200]) in
  (default 0 (mSumOverPastBuckets s !! 7) = sumByScan 7 (mPastBuckets s)
   /\ default 0 (mSumOverPastBuckets s !! 8) = sumByScan 8 (mPastBuckets s)
   /\ default 0 (mSumOverPastBuckets s !! 9) = sumByScan 9 (mPastBuckets s))
  /\ mSumOverPastBuckets s !! 7 <> Some 0.
Proof.
  destruct (cached_sum_equals_ring_scan windowAlert [100; 200] history
              history_nonNegative) as [Hsum Hzero].
  exact (conj (conj (Hsum 7) (conj (Hsum 8) (Hsum 9)))
              (Hzero history_positive 7)).
Defined.

(** In this model a bucket that carries the value 0 for a key leaves an
    entry 0 in the cached sums: [addBucketToSum] is documented as adding
    only. *)
Definition zeroValuedHistory : list (@Call Z _ _) := [ AddPastBucket {[ 7 := 0 ]} 0 ].

Lemma zero_valued_bucket_leaves_zero_entry :
  Forall nonNegative zeroValuedHistory
  /\ mSumOverPastBuckets (run zeroValuedHistory (create windowAlert [100])) !! 7
     = Some 0.
Proof.
  split.
  - apply (bool_decide_unpack (Forall nonNegative zeroValuedHistory)).
    vm_compute. exact I.
  - vm_compute. reflexivity.
Qed.

(** Why the values must not be negative: in a window of four buckets, once
    bucket 0 has left the ring the cached sum of key 7 has reached 0 and is
    dropped; when bucket 1 leaves, there is no cached sum left to subtract
    its 3 from, while the ring still holds -3. *)
Definition signedAlert : Alert :=
  {| trigger_if_sum_gt := 10; num_buckets := 4; refractory_period_secs := 60 |}.

Definition signedHistory : list (@Call Z _ _) :=
  [ AddPastBucket {[ 7 := 5 ]} 0;
    AddPastBucket {[ 7 := 3 ]} 1;
    AddPastBucket {[ 7 := -3 ]} 2;
    AddPastBucket {[ 8 := 1 ]} 3;
    AddPastBucket {[ 8 := 1 ]} 4 ].

Example negative_values_break_the_cache :
  let s := run signedHistory (create signedAlert [100]) in
  getSumOverPastBuckets 7 s = 0 /\ sumByScan 7 (mPastBuckets s) = -3.
Proof. vm_compute. split; reflexivity. Qed.

End AnomalyTracker.

(** ** Dimension keys and the field filter

    HashableDimensionKey.h declares [HashableDimensionKey], its [operator==],
    [hashDimension] and [filterValues]; their bodies are in
    HashableDimensionKey.cpp and FieldValue.h, which are not among the
    sources. The definitions of this module are therefore modelled from the
    specification (sections 3 and 4.1). *)

Module Dimension.

(** Modelled from the spec: FieldValue.h is missing. A field value is "a
    tagged scalar: {int32 | int64 | float | string | storage-blob}"; a float
    is kept as its 32-bit pattern. *)
Inductive Value :=
| INT (v : Z)
| LONG (v : Z)
| FLOAT (bits : Z)
| STRING (s : string)
| STORAGE (blob : list Z).

(** Modelled from the spec: FieldValue.h is missing. "Each value carries a
    field path: a packed address of ancestor tag ids plus a leaf position";
    the atom's root tag id comes with it. *)
Record Field := {
  tagId : Z;
  path : Z;
  position : Z
}.

Record FieldValue := {
  mField : Field;
  mValue : Value
}.

(** [class HashableDimensionKey]: "an ordered sequence of field values". *)
Record HashableDimensionKey := {
  getValues : list FieldValue
}.

(** The bit of the leaf position that carries the flag (the "0x80 bit mask"
    of the header). *)
Definition kPositionFlag : Z := 0x80.

(** Modelled from the spec: FieldValue.h is missing. "The leaf position has
    a low 7-bit index and a 1-bit flag that means positional identity is
    semantically irrelevant": under the flag only the flag survives the
    mask. *)
Definition maskPosition (pos : Z) : Z :=
  if Z.testbit pos 7 then Z.land pos kPositionFlag else pos.

(** Modelled from the spec: FieldValue.h is missing. A field, and a field
    value, with the position after masking. *)
Definition maskField (f : Field) : Field :=
  {| tagId := tagId f; path := path f; position := maskPosition (position f) |}.

Definition maskFieldValue (fv : FieldValue) : FieldValue :=
  {| mField := maskField (mField fv); mValue := mValue fv |}.

Fixpoint blobEqb (xs ys : list Z) : bool :=
  match xs, ys with
  | [], [] => true
  | x :: xs', y :: ys' => (x =? y) && blobEqb xs' ys'
  | _, _ => false
  end.

(** Modelled from the spec: FieldValue.h is missing. Equality of two tagged
    scalars: same tag, same payload. *)
Definition valueEqb (a b : Value) : bool :=
  match a, b with
  | INT x, INT y => x =? y
  | LONG x, LONG y => x =? y
  | FLOAT x, FLOAT y => x =? y
  | STRING x, STRING y => String.eqb x y
  | STORAGE x, STORAGE y => blobEqb x y
  | _, _ => false
  end.

(** Modelled from the spec: FieldValue.h is missing. "Equality ... of values
    use[s] the position after masking". *)
Definition fieldEqb (f g : Field) : bool :=
  (tagId f =? tagId g) && (path f =? path g)
  && (maskPosition (position f) =? maskPosition (position g)).

(** Modelled from the spec: FieldValue.h is missing. Two field values are
    equal when their fields and their payloads are. *)
Definition fieldValueEqb (x y : FieldValue) : bool :=
  fieldEqb (mField x) (mField y) && valueEqb (mValue x) (mValue y).

(** Modelled from the spec: HashableDimensionKey.cpp is missing.
    [HashableDimensionKey::operator==], "equality is by sequence equality of
    the masked values": same length and equal values, one by one. *)
Fixpoint valuesEqb (xs ys : list FieldValue) : bool :=
  match xs, ys with
  | [], [] => true
  | x :: xs', y :: ys' => fieldValueEqb x y && valuesEqb xs' ys'
  | _, _ => false
  end.

(** Modelled from the spec: HashableDimensionKey.cpp is missing.
    [HashableDimensionKey::operator==] on the two value vectors. *)
Definition operator_eq (k1 k2 : HashableDimensionKey) : bool :=
  valuesEqb (getValues k1) (getValues k2).

(** *** The filter *)

(** Modelled from the spec: "position selector ∈ {EXACT, FIRST, LAST, ANY,
    ALL}". *)
Inductive Position := EXACT | FIRST | LAST | ANY | ALL.

(** Modelled from the spec: "a tuple (root tag, field path, position
    selector)"; [mLeaf] is the leaf position an EXACT matcher asks for. *)
Record Matcher := {
  mTagId : Z;
  mPath : Z;
  mLeaf : Z;
  mSelector : Position
}.

(** Modelled from the spec: FieldValue.h is missing. The value belongs to
    the matcher's field, "at any position". *)
Definition sameField (m : Matcher) (fv : FieldValue) : bool :=
  (tagId (mField fv) =? mTagId m) && (path (mField fv) =? mPath m).

(** Modelled from the spec: FieldValue.h is missing. The value sits "at the
    exact field path" of the matcher. *)
Definition exactField (m : Matcher) (fv : FieldValue) : bool :=
  sameField m fv && (position (mField fv) =? mLeaf m).

Definition occurrences (m : Matcher) (values : list FieldValue) : list FieldValue :=
  List.filter (sameField m) values.

(** Modelled from the spec: HashableDimensionKey.cpp is missing. The copy of
    a value "with its position bit masked": the flag is set. *)
Definition withPositionMasked (fv : FieldValue) : FieldValue :=
  {| mField := {| tagId := tagId (mField fv);
                  path := path (mField fv);
                  position := Z.lor (position (mField fv)) kPositionFlag |};
     mValue := mValue fv |}.

(** Modelled from the spec: HashableDimensionKey.cpp is missing. What one
    matcher contributes to the key.
    "EXACT: copy the value at the exact field path if present; otherwise the
    matcher fails. FIRST / LAST / ANY: locate the first/last/any occurrence
    of the field at any position; copy the value with its position bit
    masked. ALL: copy every matching occurrence, each with its position bit
    masked." ANY takes the first occurrence. *)
Definition matchOne (m : Matcher) (values : list FieldValue)
  : option (list FieldValue) :=
  match mSelector m with
  | EXACT =>
      match List.find (exactField m) values with
      | Some fv => Some [fv]
      | None => None
      end
  | FIRST | ANY =>
      match head (occurrences m values) with
      | Some fv => Some [withPositionMasked fv]
      | None => None
      end
  | LAST =>
      match last (occurrences m values) with
      | Some fv => Some [withPositionMasked fv]
      | None => None
      end
  | ALL =>
      match occurrences m values with
      | [] => None
      | _ :: _ => Some (map withPositionMasked (occurrences m values))
      end
  end.

(** Modelled from the spec: HashableDimensionKey.cpp is missing. The values
    the matchers select, in matcher order; nothing when one of them fails. *)
Fixpoint selectValues (matcherFields : list Matcher) (values : list FieldValue)
  : option (list FieldValue) :=
  match matcherFields with
  | [] => Some []
  | m :: rest =>
      match matchOne m values, selectValues rest values with
      | Some selected, Some others => Some (selected ++ others)
      | _, _ => None
      end
  end.

(** Modelled from the spec: HashableDimensionKey.cpp is missing.
    [filterValues(matcherFields, values, output)] "constructs a dimension key
    from an atom by walking the matcher list in order"; "the filter fails as
    a unit: a partial match produces no key". *)
Definition filterValues (matcherFields : list Matcher) (values : list FieldValue)
  : option HashableDimensionKey :=
  match selectValues matcherFields values with
  | Some selected => Some {| getValues := selected |}
  | None => None
  end.

(** The field a matcher addresses. *)
Definition matcherField (m : Matcher) : Z * Z := (mTagId m, mPath m).

Section Hash.

(** [android::JenkinsHashMix], [android::JenkinsHashWhiten] and the hash of
    a scalar payload come from libutils, outside the repository. *)
Variable JenkinsHashMix : Z -> Z -> Z.
Variable JenkinsHashWhiten : Z -> Z.
Variable hash_type : Value -> Z.

(** Modelled from the spec: HashableDimensionKey.cpp is missing.
    [hashDimension] mixes, value after value, the field (with the position
    after masking) and the payload, then whitens. *)
Definition hashFieldValue (hash : Z) (fv : FieldValue) : Z :=
  JenkinsHashMix
    (JenkinsHashMix
       (JenkinsHashMix
          (JenkinsHashMix hash (tagId (mField fv)))
          (path (mField fv)))
       (maskPosition (position (mField fv))))
    (hash_type (mValue fv)).

(** Modelled from the spec: HashableDimensionKey.cpp is missing.
    [hashDimension]: the values are mixed in order from 0, then whitened. *)
Definition hashDimension (key : HashableDimensionKey) : Z :=
  JenkinsHashWhiten (foldl hashFieldValue 0 (getValues key)).

End Hash.

(** The masked copy of a value selected by a matcher other than EXACT only
    keeps the matcher's field and the payload. *)
Definition flaggedCopy (m : Matcher) (v : Value) : FieldValue :=
  {| mField := {| tagId := mTagId m; path := mPath m; position := kPositionFlag |};
     mValue := v |}.

(** *** Equality is equality of the masked values *)

Lemma blobEqb_eq (xs ys : list Z) : blobEqb xs ys = true <-> xs = ys.
Proof.
  revert ys. induction xs as [|x xs IH]; intros [|y ys]; simpl;
    try (split; [discriminate | discriminate]); [tauto|].
  rewrite andb_true_iff, Z.eqb_eq, IH.
  split; [intros [-> ->]; reflexivity | intros [= -> ->]; split; reflexivity].
Qed.

Lemma valueEqb_eq (a b : Value) : valueEqb a b = true <-> a = b.
Proof.
  destruct a, b; simpl; try (split; discriminate).
  - rewrite Z.eqb_eq. split; [intros ->; reflexivity | intros [= ->]; reflexivity].
  - rewrite Z.eqb_eq. split; [intros ->; reflexivity | intros [= ->]; reflexivity].
  - rewrite Z.eqb_eq. split; [intros ->; reflexivity | intros [= ->]; reflexivity].
  - rewrite String.eqb_eq.
    split; [intros ->; reflexivity | intros [= ->]; reflexivity].
  - rewrite blobEqb_eq.
    split; [intros ->; reflexivity | intros [= ->]; reflexivity].
Qed.

Lemma fieldEqb_eq (f g : Field) : fieldEqb f g = true <-> maskField f = maskField g.
Proof.
  unfold fieldEqb, maskField. rewrite !andb_true_iff, !Z.eqb_eq.
  destruct f as [t1 p1 q1], g as [t2 p2 q2]; simpl.
  split; [intros [[-> ->] ->]; reflexivity | intros [= -> -> ->]; auto].
Qed.

Lemma fieldValueEqb_eq (x y : FieldValue) :
  fieldValueEqb x y = true <-> maskFieldValue x = maskFieldValue y.
Proof.
  unfold fieldValueEqb, maskFieldValue.
  rewrite andb_true_iff, fieldEqb_eq, valueEqb_eq.
  destruct x as [f1 v1], y as [f2 v2]; cbn [mField mValue].
  split.
  - intros [Hf Hv]. f_equal; assumption.
  - intros Heq. split; [exact (f_equal mField Heq) | exact (f_equal mValue Heq)].
Qed.

Lemma valuesEqb_eq (xs ys : list FieldValue) :
  valuesEqb xs ys = true <-> map maskFieldValue xs = map maskFieldValue ys.
Proof.
  revert ys. induction xs as [|x xs IH]; intros [|y ys]; simpl;
    try (split; discriminate); [tauto|].
  rewrite andb_true_iff, fieldValueEqb_eq, IH.
  split.
  - intros [Hx Hxs]. f_equal; assumption.
  - intros Heq. split.
    + exact (f_equal (hd (maskFieldValue x)) Heq).
    + exact (f_equal (@tl FieldValue) Heq).
Qed.

(** *** Masking *)

Lemma maskPosition_flagged (pos : Z) :
  maskPosition (Z.lor pos kPositionFlag) = kPositionFlag.
Proof.
  unfold maskPosition, kPositionFlag.
  rewrite Z.lor_spec. replace (Z.testbit 128 7) with true by reflexivity.
  rewrite orb_true_r.
  rewrite Z.land_lor_distr_l. change (Z.land 128 128) with 128.
  apply Z.bits_inj'. intros n Hn.
  rewrite Z.lor_spec, Z.land_spec.
  destruct (Z.testbit pos n), (Z.testbit 128 n); reflexivity.
Qed.

Lemma withPositionMasked_idem (fv : FieldValue) :
  withPositionMasked (withPositionMasked fv) = withPositionMasked fv.
Proof.
  unfold withPositionMasked. simpl.
  rewrite <- Z.lor_assoc, Z.lor_diag. reflexivity.
Qed.

Lemma sameField_withPositionMasked (m : Matcher) (fv : FieldValue) :
  sameField m (withPositionMasked fv) = sameField m fv.
Proof. reflexivity. Qed.

(** Two values of a matcher's field with the same payload have the same
    masked copy once the filter has flagged them, whatever their positions. *)
Lemma maskFieldValue_withPositionMasked (m : Matcher) (x y : FieldValue) :
  sameField m x = true -> sameField m y = true -> mValue x = mValue y ->
  maskFieldValue (withPositionMasked x) = maskFieldValue (withPositionMasked y).
Proof.
  unfold sameField. rewrite !andb_true_iff, !Z.eqb_eq.
  intros [Ht1 Hp1] [Ht2 Hp2] Hv.
  unfold maskFieldValue, maskField, withPositionMasked. simpl.
  rewrite !maskPosition_flagged, Ht1, Ht2, Hp1, Hp2, Hv. reflexivity.
Qed.

(** *** What the filter selects *)

Lemma filter_none (f : FieldValue -> bool) (l : list FieldValue) :
  (forall x, x ∈ l -> f x = false) -> List.filter f l = [].
Proof.
  induction l as [|x l IH]; intros Hall; simpl; [reflexivity|].
  rewrite (Hall x) by (apply elem_of_cons; left; reflexivity).
  apply IH. intros y Hy. apply Hall, elem_of_cons. right. exact Hy.
Qed.

Lemma filter_all (f : FieldValue -> bool) (l : list FieldValue) :
  (forall x, x ∈ l -> f x = true) -> List.filter f l = l.
Proof.
  induction l as [|x l IH]; intros Hall; simpl; [reflexivity|].
  rewrite (Hall x) by (apply elem_of_cons; left; reflexivity).
  f_equal. apply IH. intros y Hy. apply Hall, elem_of_cons. right. exact Hy.
Qed.

Lemma elem_of_filter_bool (f : FieldValue -> bool) (l : list FieldValue) (x : FieldValue) :
  x ∈ List.filter f l -> x ∈ l /\ f x = true.
Proof.
  intros Hx. apply list_elem_of_In, filter_In in Hx as [Hin Hf].
  split; [apply list_elem_of_In|]; assumption.
Qed.

Lemma find_skip (f : FieldValue -> bool) (pre l : list FieldValue) :
  (forall x, x ∈ pre -> f x = false) -> List.find f (pre ++ l) = List.find f l.
Proof.
  induction pre as [|x pre IH]; intros Hall; simpl; [reflexivity|].
  rewrite (Hall x) by (apply elem_of_cons; left; reflexivity).
  apply IH. intros y Hy. apply Hall, elem_of_cons. right. exact Hy.
Qed.

(** Whatever a matcher selects belongs to its field. *)
Lemma matchOne_sameField (m : Matcher) (values selected : list FieldValue) :
  matchOne m values = Some selected ->
  forall x, x ∈ selected -> sameField m x = true.
Proof.
  unfold matchOne. intros Hsel x Hx.
  destruct (mSelector m).
  - destruct (List.find (exactField m) values) as [fv|] eqn:Hfind; [|discriminate].
    injection Hsel as <-. apply list_elem_of_singleton in Hx as ->.
    apply find_some in Hfind as [_ Hexact].
    unfold exactField in Hexact. apply andb_true_iff in Hexact. tauto.
  - destruct (head (occurrences m values)) as [fv|] eqn:Hhead; [|discriminate].
    injection Hsel as <-. apply list_elem_of_singleton in Hx as ->.
    apply head_Some_elem_of, elem_of_filter_bool in Hhead. tauto.
  - destruct (last (occurrences m values)) as [fv|] eqn:Hlast; [|discriminate].
    injection Hsel as <-. apply list_elem_of_singleton in Hx as ->.
    apply last_Some_elem_of, elem_of_filter_bool in Hlast. tauto.
  - destruct (head (occurrences m values)) as [fv|] eqn:Hhead; [|discriminate].
    injection Hsel as <-. apply list_elem_of_singleton in Hx as ->.
    apply head_Some_elem_of, elem_of_filter_bool in Hhead. tauto.
  - destruct (occurrences m values) as [|o occ] eqn:Hocc; [discriminate|].
    injection Hsel as <-.
    apply list_elem_of_In in Hx.
    change (In x (map withPositionMasked (o :: occ))) in Hx.
    apply in_map_iff in Hx as (y & <- & Hy).
    rewrite <- Hocc in Hy. apply list_elem_of_In, elem_of_filter_bool in Hy. tauto.
Qed.

Lemma selectValues_sameField (ms : list Matcher) (values selected : list FieldValue) :
  selectValues ms values = Some selected ->
  forall x, x ∈ selected -> exists m, m ∈ ms /\ sameField m x = true.
Proof.
  revert selected. induction ms as [|m ms IH]; intros selected Hsel x Hx; simpl in Hsel.
  - injection Hsel as <-. apply elem_of_nil in Hx. contradiction.
  - destruct (matchOne m values) as [a|] eqn:Ha; [|discriminate].
    destruct (selectValues ms values) as [b|] eqn:Hb; [|discriminate].
    injection Hsel as <-. apply elem_of_app in Hx as [Hx|Hx].
    + exists m. split; [apply elem_of_cons; left; reflexivity|].
      exact (matchOne_sameField m values a Ha x Hx).
    + destruct (IH b eq_refl x Hx) as (m' & Hm' & Hsame).
      exists m'. split; [apply elem_of_cons; right|]; assumption.
Qed.

Lemma sameField_other (m m' : Matcher) (x : FieldValue) :
  matcherField m <> matcherField m' ->
  sameField m x = true -> sameField m' x = false.
Proof.
  unfold sameField, matcherField. rewrite andb_true_iff, !Z.eqb_eq.
  intros Hne [Ht Hp].
  destruct ((tagId (mField x) =? mTagId m') && (path (mField x) =? mPath m'))
    eqn:Hsame; [|reflexivity].
  apply andb_true_iff in Hsame. rewrite !Z.eqb_eq in Hsame.
  destruct Hsame as [Ht' Hp']. exfalso. apply Hne. congruence.
Qed.

(** A matcher selects from its own selection, surrounded by values of other
    fields, exactly what it selected before. *)
Lemma matchOne_stable (m : Matcher) (values selected pre post : list FieldValue) :
  matchOne m values = Some selected ->
  (forall x, x ∈ pre -> sameField m x = false) ->
  (forall x, x ∈ post -> sameField m x = false) ->
  matchOne m (pre ++ selected ++ post) = Some selected.
Proof.
  intros Hsel Hpre Hpost.
  pose proof (matchOne_sameField m values selected Hsel) as Hown.
  assert (Hocc : occurrences m (pre ++ selected ++ post) = selected).
  { unfold occurrences. rewrite !List.filter_app.
    rewrite (filter_none _ pre Hpre), (filter_none _ post Hpost),
      (filter_all _ selected Hown).
    rewrite app_nil_r. reflexivity. }
  unfold matchOne in *. rewrite Hocc.
  destruct (mSelector m).
  - destruct (List.find (exactField m) values) as [fv|] eqn:Hfind; [|discriminate].
    injection Hsel as <-.
    rewrite find_skip.
    + simpl. apply find_some in Hfind as [_ ->]. reflexivity.
    + intros x Hx. unfold exactField. rewrite (Hpre x Hx). reflexivity.
  - destruct (head (occurrences m values)) as [fv|]; [|discriminate].
    injection Hsel as <-. simpl. rewrite withPositionMasked_idem. reflexivity.
  - destruct (last (occurrences m values)) as [fv|]; [|discriminate].
    injection Hsel as <-. simpl. rewrite withPositionMasked_idem. reflexivity.
  - destruct (head (occurrences m values)) as [fv|]; [|discriminate].
    injection Hsel as <-. simpl. rewrite withPositionMasked_idem. reflexivity.
  - destruct (occurrences m values) as [|o occ]; [discriminate|].
    injection Hsel as <-. simpl.
    rewrite withPositionMasked_idem. f_equal. f_equal.
    rewrite map_map. apply map_ext. intros a. apply withPositionMasked_idem.
Qed.

Lemma selectValues_stable (values : list FieldValue) (ms : list Matcher) :
  forall (pre selected : list FieldValue),
    NoDup (map matcherField ms) ->
    selectValues ms values = Some selected ->
    (forall m x, m ∈ ms -> x ∈ pre -> sameField m x = false) ->
    selectValues ms (pre ++ selected) = Some selected.
Proof.
  induction ms as [|m ms IH]; intros pre selected Hnodup Hsel Hpre; simpl in *.
  - injection Hsel as <-. reflexivity.
  - destruct (matchOne m values) as [a|] eqn:Ha; [|discriminate].
    destruct (selectValues ms values) as [b|] eqn:Hb; [|discriminate].
    injection Hsel as <-.
    apply NoDup_cons in Hnodup as [Hfresh Hnodup].
    assert (Hothers : forall m', m' ∈ ms -> matcherField m <> matcherField m').
    { intros m' Hm' Heq. apply Hfresh. rewrite Heq.
      apply list_elem_of_In, in_map_iff. exists m'.
      split; [reflexivity | apply list_elem_of_In; assumption]. }
    rewrite (matchOne_stable m values a pre b Ha).
    + rewrite app_assoc. rewrite (IH (pre ++ a) b Hnodup eq_refl); [reflexivity|].
      intros m' x Hm' Hx. apply elem_of_app in Hx as [Hx|Hx].
      * apply Hpre; [apply elem_of_cons; right|]; assumption.
      * apply (sameField_other m m' x (Hothers m' Hm')).
        exact (matchOne_sameField m values a Ha x Hx).
    + intros x Hx. apply Hpre; [apply elem_of_cons; left; reflexivity | assumption].
    + intros x Hx.
      destruct (selectValues_sameField ms values b Hb x Hx) as (m' & Hm' & Hsame).
      apply (sameField_other m' m x); [|assumption].
      intros Heq. exact (Hothers m' Hm' (eq_sym Heq)).
Qed.

Lemma maskFieldValue_flagged (m : Matcher) (o : FieldValue) :
  sameField m o = true ->
  maskFieldValue (withPositionMasked o)
  = flaggedCopy m (mValue (withPositionMasked o)).
Proof.
  unfold sameField. rewrite andb_true_iff, !Z.eqb_eq. intros [Ht Hp].
  unfold maskFieldValue, maskField, flaggedCopy, withPositionMasked. simpl.
  rewrite maskPosition_flagged, Ht, Hp. reflexivity.
Qed.

Lemma matchOne_flagged (m : Matcher) (values selected : list FieldValue) :
  mSelector m <> EXACT ->
  matchOne m values = Some selected ->
  map maskFieldValue selected = map (flaggedCopy m) (map mValue selected).
Proof.
  intros Hsel Hmatch.
  assert (Hsrc : exists occ, selected = map withPositionMasked occ
                             /\ forall o, o ∈ occ -> sameField m o = true).
  { unfold matchOne in Hmatch. destruct (mSelector m); [congruence| | | |].
    - destruct (head (occurrences m values)) as [fv|] eqn:Hhead; [|discriminate].
      injection Hmatch as <-. exists [fv]. split; [reflexivity|].
      intros o ->%list_elem_of_singleton.
      apply head_Some_elem_of, elem_of_filter_bool in Hhead. tauto.
    - destruct (last (occurrences m values)) as [fv|] eqn:Hlast; [|discriminate].
      injection Hmatch as <-. exists [fv]. split; [reflexivity|].
      intros o ->%list_elem_of_singleton.
      apply last_Some_elem_of, elem_of_filter_bool in Hlast. tauto.
    - destruct (head (occurrences m values)) as [fv|] eqn:Hhead; [|discriminate].
      injection Hmatch as <-. exists [fv]. split; [reflexivity|].
      intros o ->%list_elem_of_singleton.
      apply head_Some_elem_of, elem_of_filter_bool in Hhead. tauto.
    - destruct (occurrences m values) as [|o occ] eqn:Hocc; [discriminate|].
      injection Hmatch as <-. exists (o :: occ). split; [reflexivity|].
      intros o' Ho'. rewrite <- Hocc in Ho'.
      apply elem_of_filter_bool in Ho'. tauto. }
  destruct Hsrc as (occ & -> & Hocc).
  rewrite !map_map. apply map_ext_in. intros o Ho.
  apply maskFieldValue_flagged, Hocc, list_elem_of_In, Ho.
Qed.

Section HashFacts.

Variable JenkinsHashMix : Z -> Z -> Z.
Variable JenkinsHashWhiten : Z -> Z.
Variable hash_type : Value -> Z.

Lemma hashFieldValue_masked (hash : Z) (x y : FieldValue) :
  maskFieldValue x = maskFieldValue y ->
  hashFieldValue JenkinsHashMix hash_type hash x
  = hashFieldValue JenkinsHashMix hash_type hash y.
Proof.
  intros Heq. unfold hashFieldValue.
  pose proof (f_equal (fun fv => tagId (mField fv)) Heq) as Ht.
  pose proof (f_equal (fun fv => path (mField fv)) Heq) as Hp.
  pose proof (f_equal (fun fv => position (mField fv)) Heq) as Hq.
  pose proof (f_equal mValue Heq) as Hv.
  simpl in Ht, Hp, Hq, Hv. rewrite Ht, Hp, Hq, Hv. reflexivity.
Qed.

Lemma foldl_hashFieldValue_masked (xs ys : list FieldValue) (hash : Z) :
  map maskFieldValue xs = map maskFieldValue ys ->
  foldl (hashFieldValue JenkinsHashMix hash_type) hash xs
  = foldl (hashFieldValue JenkinsHashMix hash_type) hash ys.
Proof.
  revert ys hash. induction xs as [|x xs IH]; intros [|y ys] hash Heq;
    try discriminate; [reflexivity|].
  simpl.
  rewrite (hashFieldValue_masked hash x y)
    by exact (f_equal (hd (maskFieldValue x)) Heq).
  apply IH. exact (f_equal (@tl FieldValue) Heq).
Qed.

(** *** C3 *)

(** C3: two dimension keys compare equal exactly when their value vectors
    are equal field by field after position masking; keys that compare
    equal have the same [hashDimension]; and two keys that a FIRST, LAST,
    ANY (or ALL) matcher builds from values with the same payloads compare
    equal and hash alike, at whichever chain positions the values were
    found. *)
Theorem operator_eq_iff_masked_equal_and_hash_agrees (k1 k2 : HashableDimensionKey) :
  (operator_eq k1 k2 = true
   <-> map maskFieldValue (getValues k1) = map maskFieldValue (getValues k2))
  /\ (operator_eq k1 k2 = true ->
      hashDimension JenkinsHashMix JenkinsHashWhiten hash_type k1
      = hashDimension JenkinsHashMix JenkinsHashWhiten hash_type k2)
  /\ (forall (m : Matcher) (values1 values2 : list FieldValue),
        mSelector m <> EXACT ->
        filterValues [m] values1 = Some k1 ->
        filterValues [m] values2 = Some k2 ->
        map mValue (getValues k1) = map mValue (getValues k2) ->
        operator_eq k1 k2 = true
        /\ hashDimension JenkinsHashMix JenkinsHashWhiten hash_type k1
           = hashDimension JenkinsHashMix JenkinsHashWhiten hash_type k2).
Proof.
  assert (Hhash : operator_eq k1 k2 = true ->
                  hashDimension JenkinsHashMix JenkinsHashWhiten hash_type k1
                  = hashDimension JenkinsHashMix JenkinsHashWhiten hash_type k2).
  { intros Heq. apply valuesEqb_eq in Heq. unfold hashDimension.
    f_equal. apply foldl_hashFieldValue_masked, Heq. }
  split; [apply valuesEqb_eq|]. split; [exact Hhash|].
  intros m values1 values2 Hsel H1 H2 Hpayload.
  assert (Heq : operator_eq k1 k2 = true).
  { apply valuesEqb_eq.
    unfold filterValues in H1, H2. simpl in H1, H2.
    destruct (matchOne m values1) as [a1|] eqn:Ha1; [|discriminate].
    destruct (matchOne m values2) as [a2|] eqn:Ha2; [|discriminate].
    injection H1 as <-. injection H2 as <-. simpl in *.
    rewrite !app_nil_r in *.
    rewrite (matchOne_flagged m values1 a1 Hsel Ha1),
      (matchOne_flagged m values2 a2 Hsel Ha2), Hpayload.
    reflexivity. }
  split; [exact Heq | exact (Hhash Heq)].
Qed.

End HashFacts.

(** *** Filtering a key again *)

(** When the matchers of the list address pairwise distinct fields,
    filtering the values of the key that the filter produced returns that
    key unchanged. *)
Theorem filterValues_idempotent_on_distinct_fields
    (matcherFields : list Matcher) (values : list FieldValue)
    (key : HashableDimensionKey) :
  NoDup (map matcherField matcherFields) ->
  filterValues matcherFields values = Some key ->
  filterValues matcherFields (getValues key) = Some key.
Proof.
  intros Hnodup Hkey.
  unfold filterValues in *.
  destruct (selectValues matcherFields values) as [selected|] eqn:Hsel;
    [|discriminate].
  injection Hkey as <-. simpl.
  assert (Hstable : selectValues matcherFields ([] ++ selected) = Some selected).
  { apply (selectValues_stable values matcherFields [] selected Hnodup Hsel).
    intros m x _ Hx. apply elem_of_nil in Hx. contradiction. }
  simpl in Hstable. rewrite Hstable. reflexivity.
Qed.

(** *** Concrete keys *)

(** The attribution-chain uid of atom 10. *)
Definition uidPath : Z := 0x010001.

Definition uidAt (pos uid : Z) : FieldValue :=
  {| mField := {| tagId := 10; path := uidPath; position := pos |};
     mValue := INT uid |}.

Definition lastUid : Matcher :=
  {| mTagId := 10; mPath := uidPath; mLeaf := 0; mSelector := LAST |}.

Definition allUids : Matcher :=
  {| mTagId := 10; mPath := uidPath; mLeaf := 0; mSelector := ALL |}.

Definition exactTag : Matcher :=
  {| mTagId := 10; mPath := 0x020000; mLeaf := 0; mSelector := EXACT |}.

Definition tagValue : FieldValue :=
  {| mField := {| tagId := 10; path := 0x020000; position := 0 |};
     mValue := STRING "wakelock" |}.

(** uid 1000 closes a chain of five in one atom and a chain of six in the
    other. *)
Definition atomChain5 : list FieldValue :=
  [uidAt 1 1001; uidAt 2 1002; uidAt 3 1003; uidAt 4 1004; uidAt 5 1000; tagValue].

Definition atomChain6 : list FieldValue :=
  [uidAt 1 1001; uidAt 2 1002; uidAt 3 1003; uidAt 4 1004; uidAt 5 1005;
   uidAt 6 1000; tagValue].

Definition keyChain5 : HashableDimensionKey := {| getValues := [uidAt 0x85 1000] |}.
Definition keyChain6 : HashableDimensionKey := {| getValues := [uidAt 0x86 1000] |}.

Example filterValues_chain5 : filterValues [lastUid] atomChain5 = Some keyChain5.
Proof. reflexivity. Qed.

Example filterValues_chain6 : filterValues [lastUid] atomChain6 = Some keyChain6.
Proof. reflexivity. Qed.

(** The hash functions of libutils, on 32 bits. *)
Definition JenkinsHashMix (hash data : Z) : Z :=
  let h := Int.uint32 (hash + data) in
  let h := Int.uint32 (h + Z.shiftl h 10) in
  Z.lxor h (Z.shiftr h 6).

Definition JenkinsHashWhiten (hash : Z) : Z :=
  let h := Int.uint32 (hash + Z.shiftl hash 3) in
  let h := Z.lxor h (Z.shiftr h 11) in
  Int.uint32 (h + Z.shiftl h 15).

Fixpoint hashBlob (hash : Z) (blob : list Z) : Z :=
  match blob with
  | [] => hash
  | b :: rest => hashBlob (JenkinsHashMix hash b) rest
  end.

Definition hash_type (v : Value) : Z :=
  match v with
  | INT x => Int.uint32 x
  | LONG x => Int.uint32 (Z.lxor x (Z.shiftr x 32))
  | FLOAT bits => Int.uint32 bits
  | STRING s => hashBlob 0 (map (fun a => Z.of_nat (Ascii.nat_of_ascii a)) (list_ascii_of_string s))
  | STORAGE blob => hashBlob 0 blob
  end.

(** The two keys differ as records, compare equal, and hash alike. *)
Lemma operator_eq_iff_masked_equal_and_hash_agrees_witness :
  keyChain5 <> keyChain6
  /\ operator_eq keyChain5 keyChain6 = true
  /\ hashDimension JenkinsHashMix JenkinsHashWhiten hash_type keyChain5
     = hashDimension JenkinsHashMix JenkinsHashWhiten hash_type keyChain6.
Proof.
  split; [discriminate|].
  refine (proj2 (proj2 (operator_eq_iff_masked_equal_and_hash_agrees
                          JenkinsHashMix JenkinsHashWhiten hash_type
                          keyChain5 keyChain6))
            lastUid atomChain5 atomChain6 _ _ _ _).
  - discriminate.
  - reflexivity.
  - reflexivity.
  - reflexivity.
Defined.

Example filterValues_two_fields :
  filterValues [exactTag; lastUid] atomChain5
  = Some {| getValues := [tagValue; uidAt 0x85 1000] |}.
Proof. reflexivity. Qed.

(** Filtering the key built from [exactTag] and [lastUid] gives the key back. *)
Lemma filterValues_idempotent_on_distinct_fields_witness :
  filterValues [exactTag; lastUid] [tagValue; uidAt 0x85 1000]
  = Some {| getValues := [tagValue; uidAt 0x85 1000] |}.
Proof.
  refine (filterValues_idempotent_on_distinct_fields [exactTag; lastUid]
            atomChain5 {| getValues := [tagValue; uidAt 0x85 1000] |} _ _).
  - apply (bool_decide_unpack (NoDup (map matcherField [exactTag; lastUid]))).
    vm_compute. exact I.
  - reflexivity.
Defined.

(** A matcher list that names the same field twice with ALL: the key holds
    every uid twice, and filtering the key doubles it again. *)
Lemma filterValues_not_idempotent_on_repeated_field :
  let matcherFields := [allUids; allUids] in
  let values := [uidAt 1 1001; uidAt 2 1000] in
  let key :=
    {| getValues := [uidAt 0x81 1001; uidAt 0x82 1000;
                     uidAt 0x81 1001; uidAt 0x82 1000] |} in
  filterValues matcherFields values = Some key
  /\ filterValues matcherFields (getValues key) <> Some key
  /\ (forall key', filterValues matcherFields (getValues key) = Some key' ->
        operator_eq key' key = false).
Proof.
  cbv zeta. split; [reflexivity|]. split; [discriminate|].
  intros key' Hkey'. vm_compute in Hkey'. injection Hkey' as <-. reflexivity.
Qed.

End Dimension.
